(** * DocumentVersion: the version model of mayan.apps.documents

    A shallow embedding of
    [mayan/apps/documents/models/document_version_models.py].

    The methods of [DocumentVersion] are state transformers over a [World]
    (the database tables, the document storage, the image cache, the logger,
    the event sink).  A Python exception is the [Raise] result; the world a
    raising statement leaves behind is kept, as in Python, unless a
    [transaction.atomic()] block rolls the database tables back.

    The in-memory object [self] is passed explicitly and the methods that
    assign to its fields return the updated object.  [self.document] is a
    query that raises [DoesNotExist] when the row is not there; an instance
    keeps the document it fetched, and [save] passes it on as [cached].

    What the module imports is a parameter, [Env]: the two registries of
    hooks, the hash function, the MIME sniffer, the converter, the
    orientation detector and the setting.  A pre-open hook is a function of
    the stream and the version that returns a stream or raises; a post-save
    hook is any method over the world.  The calls of the ORM that the
    properties let fail take their fault from [Env] too.

    The file has the model first, then the definitions the statements use
    and the sample worlds, then the properties, method by method. *)

From stdpp Require Import gmap strings list sorting pretty list_numbers.
From Stdlib Require Import ZArith Lia.

Local Open Scope string_scope.
Local Open Scope Z_scope.
Local Open Scope list_scope.

(** ** Exceptions and results *)

(** The exception classes the module names, and the ones its collaborators
    raise.  All of them are subclasses of Python's [Exception]. *)
Inductive Exn : Type :=
  | PageCountError
  | InvalidOfficeFormat
  | DoesNotExist
  | IOError
  | KeyError
  | ValueError
  | AssertionError
  | AttributeError
  | RecursionError
  | OtherError (msg : string).

Inductive Result (A : Type) : Type :=
  | Ok (a : A)
  | Raise (e : Exn).
Arguments Ok {A} a.
Arguments Raise {A} e.

Definition is_ok {A} (r : Result A) : bool :=
  match r with Ok _ => true | Raise _ => false end.

(** ** Data model *)

(** The content of a file: what [read()] returns. *)
Definition Stream : Type := list Byte.byte.

Record Document : Type := mkDocument {
  doc_uuid : string;
  label : string;
  is_stub : bool
}.

(** The fields of the model.  [pk] is [None] until the first save;
    [upload] is the content of a file that is not committed to the storage
    yet (Django's [FieldFile] writes it on the first save). *)
Record DocumentVersion : Type := mkDocumentVersion {
  pk : option positive;
  document_id : positive;
  timestamp : Z;
  comment : string;
  file : string;
  upload : option Stream;
  mimetype : option string;
  encoding : option string;
  checksum : option string
}.

Record DocumentPage : Type := mkDocumentPage {
  page_pk : positive;
  document_version_id : positive;
  page_number : Z
}.

Record Transformation : Type := mkTransformation {
  object_id : positive;
  name : string;
  arguments : string
}.

Definition set_pk (p : option positive) (v : DocumentVersion) : DocumentVersion :=
  mkDocumentVersion p (document_id v) (timestamp v) (comment v) (file v)
    (upload v) (mimetype v) (encoding v) (checksum v).
Definition set_timestamp (t : Z) (v : DocumentVersion) : DocumentVersion :=
  mkDocumentVersion (pk v) (document_id v) t (comment v) (file v)
    (upload v) (mimetype v) (encoding v) (checksum v).
Definition set_file (n : string) (v : DocumentVersion) : DocumentVersion :=
  mkDocumentVersion (pk v) (document_id v) (timestamp v) (comment v) n
    (upload v) (mimetype v) (encoding v) (checksum v).
Definition set_upload (u : option Stream) (v : DocumentVersion) : DocumentVersion :=
  mkDocumentVersion (pk v) (document_id v) (timestamp v) (comment v) (file v)
    u (mimetype v) (encoding v) (checksum v).
Definition set_mimetype (m : option string) (v : DocumentVersion) : DocumentVersion :=
  mkDocumentVersion (pk v) (document_id v) (timestamp v) (comment v) (file v)
    (upload v) m (encoding v) (checksum v).
Definition set_encoding (e : option string) (v : DocumentVersion) : DocumentVersion :=
  mkDocumentVersion (pk v) (document_id v) (timestamp v) (comment v) (file v)
    (upload v) (mimetype v) e (checksum v).
Definition set_checksum (c : option string) (v : DocumentVersion) : DocumentVersion :=
  mkDocumentVersion (pk v) (document_id v) (timestamp v) (comment v) (file v)
    (upload v) (mimetype v) (encoding v) c.

Definition set_page_pk (p : positive) (g : DocumentPage) : DocumentPage :=
  mkDocumentPage p (document_version_id g) (page_number g).

(** ** The world *)

Inductive LogRecord : Type :=
  | LogDebug (msg : string)
  | LogInfo (msg : string) (document : positive)
  | LogError (msg : string) (document : option positive) (e : Exn).

Inductive Event : Type :=
  | event_document_version_revert (actor : option string) (target : positive)
  | event_document_new_version (actor : option string) (target : option positive)
      (action_object : positive)
  | post_version_upload (instance : option positive)
  | post_document_created (instance : positive).

(** Calls to the collaborators, in the order they are made. *)
Inductive Call : Type :=
  | CallPageDelete (page : positive)
  | CallStorageDelete (name : string)
  | CallPartitionPurge (partition : string)
  | CallPageInvalidateCache (page : positive)
  | CallVersionDelete (version : positive)
  | CallDetectOrientation (page : positive)
  | CallAddTransformation (page : positive) (arguments : string).

(** The tables a database transaction covers.  A table is a map from the
    primary key to the row. *)
Record DB : Type := mkDB {
  documents : gmap positive Document;
  versions : gmap positive DocumentVersion;
  pages : gmap positive DocumentPage;
  transformations : list Transformation
}.

Record World : Type := mkWorld {
  db : DB;
  storage : gmap string Stream;
  cache : gmap string (gmap string Stream);
  log : list LogRecord;
  events : list Event;
  trace : list Call;
  now : Z
}.

Definition with_db (f : DB → DB) (w : World) : World :=
  mkWorld (f (db w)) (storage w) (cache w) (log w) (events w) (trace w) (now w).
Definition with_storage (f : gmap string Stream → gmap string Stream)
    (w : World) : World :=
  mkWorld (db w) (f (storage w)) (cache w) (log w) (events w) (trace w) (now w).
Definition with_cache
    (f : gmap string (gmap string Stream) → gmap string (gmap string Stream))
    (w : World) : World :=
  mkWorld (db w) (storage w) (f (cache w)) (log w) (events w) (trace w) (now w).
Definition add_log (r : LogRecord) (w : World) : World :=
  mkWorld (db w) (storage w) (cache w) (log w ++ [r]) (events w) (trace w) (now w).
Definition add_event (e : Event) (w : World) : World :=
  mkWorld (db w) (storage w) (cache w) (log w) (events w ++ [e]) (trace w) (now w).
Definition add_call (c : Call) (w : World) : World :=
  mkWorld (db w) (storage w) (cache w) (log w) (events w) (trace w ++ [c]) (now w).

Definition with_documents (f : gmap positive Document → gmap positive Document)
    (d : DB) : DB :=
  mkDB (f (documents d)) (versions d) (pages d) (transformations d).
Definition with_versions
    (f : gmap positive DocumentVersion → gmap positive DocumentVersion)
    (d : DB) : DB :=
  mkDB (documents d) (f (versions d)) (pages d) (transformations d).
Definition with_pages
    (f : gmap positive DocumentPage → gmap positive DocumentPage) (d : DB) : DB :=
  mkDB (documents d) (versions d) (f (pages d)) (transformations d).
Definition with_transformations (f : list Transformation → list Transformation)
    (d : DB) : DB :=
  mkDB (documents d) (versions d) (pages d) (f (transformations d)).

(** ** The monad of the methods *)

Definition M (A : Type) : Type := World → Result A * World.

#[global] Instance M_ret : MRet M := λ A a w, (Ok a, w).
#[global] Instance M_bind : MBind M := λ A B f m w,
  match m w with
  | (Ok a, w') => f a w'
  | (Raise e, w') => (Raise e, w')
  end.

Definition raise {A} (e : Exn) : M A := λ w, (Raise e, w).

(** A pure, fallible call. *)
Definition lift {A} (r : Result A) : M A := λ w, (r, w).

Definition gets {A} (f : World → A) : M A := λ w, (Ok (f w), w).
Definition modify (f : World → World) : M unit := λ w, (Ok tt, f w).

(** [try: m except Exception as e: h e else: k a].  What the body did to the
    world before it raised stays done. *)
Definition try_except_else {A B} (m : M A) (h : Exn → M B) (k : A → M B) : M B :=
  λ w, match m w with
       | (Ok a, w') => k a w'
       | (Raise e, w') => h e w'
       end.

Definition try_except {A} (m : M A) (h : Exn → M A) : M A :=
  try_except_else m h mret.

(** [with transaction.atomic(): m].  When the block raises, the tables go
    back to what they were on entry (a savepoint when nested); the storage,
    the cache files, the log and the events are outside the transaction. *)
Definition atomic {A} (m : M A) : M A :=
  λ w, match m w with
       | (Ok a, w') => (Ok a, w')
       | (Raise e, w') => (Raise e, with_db (λ _, db w) w')
       end.

(** [for x in l: body x]. *)
Fixpoint for_each {A} (l : list A) (body : A → M unit) : M unit :=
  match l with
  | [] => mret tt
  | x :: l' => body x ;; for_each l' body
  end.

Definition logger_debug (msg : string) : M unit := modify (add_log (LogDebug msg)).
Definition logger_info (msg : string) (document : positive) : M unit :=
  modify (add_log (LogInfo msg document)).
Definition logger_error (msg : string) (document : option positive) (e : Exn)
    : M unit :=
  modify (add_log (LogError msg document e)).
Definition emit (e : Event) : M unit := modify (add_event e).
Definition called (c : Call) : M unit := modify (add_call c).

(** [sorted(d)] for a dict [d]: its keys in ascending order. *)
Definition sorted {V} (d : gmap Z V) : list Z :=
  merge_sort Z.le (fst <$> map_to_list d).

(** ** The collaborators *)

Definition PreOpenHook : Type := Stream → DocumentVersion → Result Stream.
Definition PostSaveHook : Type := DocumentVersion → M unit.

(** What the module imports and calls: the two hook registries (class-level
    dicts), the hash function, the MIME sniffer, the converter, the
    orientation detector, the setting, and the faults of the database calls
    that can fail. *)
Record Env : Type := mkEnv {
  _pre_open_hooks : gmap Z PreOpenHook;
  _post_save_hooks : gmap Z PostSaveHook;
  document_hash_function : Stream → string;
  get_mimetype : Stream → Result (option string * option string);
  get_page_count : Stream → option string → Result Z;
  to_pdf : Stream → Result (list Stream);
  detect_orientation : DocumentPage → Result (option Z);
  setting_fix_orientation : bool;
  super_save_fault : DocumentVersion → option Exn;
  page_create_fault : positive → Z → option Exn;
  page_delete_fault : DocumentPage → option Exn
}.

(** [DocumentVersion.register_pre_open_hook(order, func)] *)
Definition register_pre_open_hook (order : Z) (func : PreOpenHook) (E : Env) : Env :=
  mkEnv (<[order := func]> (_pre_open_hooks E)) (_post_save_hooks E)
    (document_hash_function E) (get_mimetype E) (get_page_count E) (to_pdf E)
    (detect_orientation E) (setting_fix_orientation E) (super_save_fault E)
    (page_create_fault E) (page_delete_fault E).

(** [DocumentVersion.register_post_save_hook(order, func)] *)
Definition register_post_save_hook (order : Z) (func : PostSaveHook) (E : Env) : Env :=
  mkEnv (_pre_open_hooks E) (<[order := func]> (_post_save_hooks E))
    (document_hash_function E) (get_mimetype E) (get_page_count E) (to_pdf E)
    (detect_orientation E) (setting_fix_orientation E) (super_save_fault E)
    (page_create_fault E) (page_delete_fault E).

(** ** The model's methods *)

Section DocumentVersion.
Variable E : Env.

(** *** Storage ([self.file.storage]) *)

Definition storage_exists (name : string) : M bool :=
  gets (λ w, bool_decide (is_Some (storage w !! name))).

Definition storage_open (name : string) : M Stream :=
  λ w, match storage w !! name with
       | Some content => (Ok content, w)
       | None => (Raise IOError, w)
       end.

Definition storage_delete (name : string) : M unit :=
  called (CallStorageDelete name) ;;
  modify (with_storage (delete name)).

(** *** Querysets *)

(** [document.versions.all()]: the rows of one document, in the order of
    [Meta.ordering = ('timestamp',)], each with its primary key. *)
Definition timestamp_le (a b : DocumentVersion) : Prop := timestamp a ≤ timestamp b.
#[global] Instance timestamp_le_dec : RelDecision timestamp_le.
Proof. intros a b. unfold timestamp_le. apply _. Defined.

Definition version_rows (w : World) : list DocumentVersion :=
  (λ kv, set_pk (Some kv.1) kv.2) <$> map_to_list (versions (db w)).

Definition document_versions_all (document : positive) : M (list DocumentVersion) :=
  gets (λ w, merge_sort timestamp_le
    (filter (λ v, document_id v = document) (version_rows w))).

(** [document.versions.filter(timestamp__gt=t)] *)
Definition document_versions_filter_timestamp_gt (document : positive) (t : Z)
    : M (list DocumentVersion) :=
  gets (λ w, merge_sort timestamp_le
    (filter (λ v, document_id v = document ∧ t < timestamp v) (version_rows w))).

(** [self.pages.all()]: the pages of one version, by page number. *)
Definition page_number_le (a b : DocumentPage) : Prop := page_number a ≤ page_number b.
#[global] Instance page_number_le_dec : RelDecision page_number_le.
Proof. intros a b. unfold page_number_le. apply _. Defined.

Definition page_rows (w : World) : list DocumentPage :=
  (λ kv, set_page_pk kv.1 kv.2) <$> map_to_list (pages (db w)).

Definition pages_of (self : DocumentVersion) (w : World) : list DocumentPage :=
  merge_sort page_number_le
    (filter (λ g, Some (document_version_id g) = pk self) (page_rows w)).

Definition pages_all (self : DocumentVersion) : M (list DocumentPage) :=
  gets (pages_of self).

(** [self.pages.all().delete()]: one bulk delete. *)
Definition pages_all_delete (self : DocumentVersion) : M unit :=
  modify (with_db (with_pages
    (filter (λ kv, Some (document_version_id kv.2) ≠ pk self)))).

(** [self.pages.create(page_number=n)].  The related manager of an unsaved
    version cannot create rows. *)
Definition pages_create (self : DocumentVersion) (n : Z) : M unit :=
  match pk self with
  | None => raise ValueError
  | Some v =>
      match page_create_fault E v n with
      | Some e => raise e
      | None =>
          modify (with_db (with_pages (λ t,
            let k := fresh (dom t) in <[k := mkDocumentPage k v n]> t)))
      end
  end.

(** [self.page_count] *)
Definition page_count (self : DocumentVersion) : M Z :=
  gets (λ w, Z.of_nat (length (pages_of self w))).

(** Modelled from the spec: [DocumentPage.delete], of
    [document_page_models.py].  Section 3 has a Version delete its Pages and
    lets the deletion of a page fail; the page's row is removed. *)
Definition page_delete (page : DocumentPage) : M unit :=
  called (CallPageDelete (page_pk page)) ;;
  match page_delete_fault E page with
  | Some e => raise e
  | None => modify (with_db (with_pages (delete (page_pk page))))
  end.

(** Modelled from the spec: [DocumentPage.detect_orientation], section 4.5:
    [detect_orientation(page) -> degrees | none], which can fail. *)
Definition page_detect_orientation (page : DocumentPage) : M (option Z) :=
  called (CallDetectOrientation (page_pk page)) ;;
  lift (detect_orientation E page).

(** Modelled from the spec: [DocumentPage.invalidate_cache]; section 4.7
    delegates the cache state of a page to the Page, and only the call is
    in scope. *)
Definition page_invalidate_cache (page : DocumentPage) : M unit :=
  called (CallPageInvalidateCache (page_pk page)).

(** Modelled from the spec: [Transformation.objects.add_for_model], of the
    converter app; section 4.5 appends the transformation to the page's
    list. *)
Definition add_for_model (obj : DocumentPage) (transformation : string)
    (arguments : string) : M unit :=
  called (CallAddTransformation (page_pk obj) arguments) ;;
  modify (with_db (with_transformations
    (λ l, l ++ [mkTransformation (page_pk obj) transformation arguments]))).

(** [super(DocumentVersion, self).delete()]: Django refuses an object with
    no primary key, and removes the row otherwise.  The pages were deleted
    by the caller, so the cascade finds none. *)
Definition super_delete (self : DocumentVersion) : M unit :=
  match pk self with
  | None => raise AssertionError
  | Some p =>
      called (CallVersionDelete p) ;;
      modify (with_db (with_versions (delete p)))
  end.

(** [Storage.get_available_name]: [Storage.save(name, content)] of Django
    never replaces a file.  It keeps the name when no file has it;
    otherwise it draws other names (the name with a random suffix) until
    one is free.  Which one is not fixed by the code: the model takes the
    free name that [fresh] gives. *)
Definition get_available_name (name : string) (files : gmap string Stream)
    : string :=
  if decide (is_Some (files !! name)) then fresh (dom files) else name.

(** [super(DocumentVersion, self).save()].  The file field commits a
    pending upload to the storage first, under an available name, which
    becomes the name of the file.  Then the row is written: an object that
    has a primary key updates its row, and is inserted when the table has
    no such row; an object without a key is inserted under a fresh one.  An
    insert sets the timestamp ([auto_now_add]). *)
Definition super_save (self : DocumentVersion) : M DocumentVersion :=
  committed ←
    match upload self with
    | Some content =>
        name ← gets (λ w, get_available_name (file self) (storage w)) ;
        modify (with_storage (<[name := content]>)) ;;
        mret (set_upload None (set_file name self))
    | None => mret self
    end ;
  match super_save_fault E self with
  | Some e => raise e
  | None =>
      t ← gets now ;
      match pk self with
      | Some p =>
          updated ← gets (λ w, bool_decide (is_Some (versions (db w) !! p))) ;
          let row :=
            if (updated : bool) then committed else set_timestamp t committed in
          modify (with_db (with_versions (<[p := row]>))) ;;
          mret row
      | None =>
          p ← gets (λ w, fresh (dom (versions (db w)))) ;
          let row := set_pk (Some p) (set_timestamp t committed) in
          modify (with_db (with_versions (<[p := row]>))) ;;
          mret row
      end
  end.

(** [self.document] *)
Definition get_document (self : DocumentVersion) : M Document :=
  λ w, match documents (db w) !! document_id self with
       | Some d => (Ok d, w)
       | None => (Raise DoesNotExist, w)
       end.

(** [self.document] on an instance that may hold the related object: the
    first access fetches it, and Django keeps it on the instance, so that
    the later accesses make no query.  [cached] is what the instance
    holds. *)
Definition self_document (cached : option Document) (self : DocumentVersion)
    : M Document :=
  match cached with
  | Some document => mret document
  | None => get_document self
  end.

(** Modelled from the spec: [Document.save(_commit_events=False)], of
    [document_models.py]; section 4.7 step 6 saves the Document without
    emitting Document-level events. *)
Definition document_save (id : positive) (d : Document) : M unit :=
  modify (with_db (with_documents (<[id := d]>))).

(** *** The cache ([self.cache_partition]) *)

Definition pk_text (p : option positive) : string :=
  match p with Some k => pretty k | None => "None" end.

(** [uuid]: a mix of the document's UUID and the version's id. *)
Definition uuid (self : DocumentVersion) : M string :=
  d ← get_document self ;
  mret (doc_uuid d +:+ "-" +:+ pk_text (pk self)).

(** Modelled from the spec: the Cache model of the common app, section 4.2.
    [partitions.get_or_create(name=...)] makes the partition when it is not
    there, [get_file] returns the artifact or nothing, [create_file] makes
    the artifact visible when the writer is done, [purge] removes all the
    artifacts of the partition. *)
Definition partitions_get_or_create (name : string) : M string :=
  λ w, match cache w !! name with
       | Some _ => (Ok name, w)
       | None => (Ok name, with_cache (<[name := ∅]>) w)
       end.

Definition partition_get_file (partition filename : string) : M (option Stream) :=
  gets (λ w, cache w !! partition ≫= (.!! filename)).

Definition partition_create_file (partition filename : string)
    (chunks : list Stream) : M unit :=
  modify (with_cache (λ c,
    <[partition := <[filename := concat chunks]> (default ∅ (c !! partition))]> c)).

Definition partition_purge (partition : string) : M unit :=
  called (CallPartitionPurge partition) ;;
  modify (with_cache (<[partition := ∅]>)).

Definition cache_partition (self : DocumentVersion) : M string :=
  u ← uuid self ;
  partitions_get_or_create ("version-" +:+ u).

(** *** Methods *)

Definition delete (self : DocumentVersion) : M unit :=
  ps ← pages_all self ;
  for_each ps page_delete ;;
  storage_delete (file self) ;;
  super_delete self.

Definition exists_ (self : DocumentVersion) : M bool :=
  storage_exists (file self).

(** [if degrees:] *)
Definition truthy (degrees : option Z) : bool :=
  match degrees with
  | Some d => negb (d =? 0)
  | None => false
  end.

Definition dquote : string := String (Ascii.ascii_of_nat 34) EmptyString.

(** ['{{"degrees": {}}}'.format(360 - degrees)] *)
Definition rotate_arguments (degrees : Z) : string :=
  "{" +:+ dquote +:+ "degrees" +:+ dquote +:+ ": " +:+ pretty (360 - degrees) +:+ "}".

Definition fix_orientation (self : DocumentVersion) : M unit :=
  ps ← pages_all self ;
  for_each ps (λ page,
    degrees ← page_detect_orientation page ;
    if truthy degrees
    then add_for_model page "TransformationRotate"
           (rotate_arguments (default 0 degrees))
    else mret tt).

(** The loop of [open]: [for key in sorted(hooks): result = hooks[key](...)]. *)
Fixpoint apply_pre_open_hooks (keys : list Z) (result : Stream)
    (self : DocumentVersion) : Result Stream :=
  match keys with
  | [] => Ok result
  | key :: keys' =>
      match _pre_open_hooks E !! key with
      | Some hook =>
          match hook result self with
          | Ok result' => apply_pre_open_hooks keys' result' self
          | Raise e => Raise e
          end
      | None => Raise KeyError
      end
  end.

Definition open (self : DocumentVersion) (raw : bool) : M Stream :=
  if raw then storage_open (file self)
  else
    result ← storage_open (file self) ;
    lift (apply_pre_open_hooks (sorted (_pre_open_hooks E)) result self).

Definition get_intermidiate_file (self : DocumentVersion) : M Stream :=
  partition ← cache_partition self ;
  cache_file ← partition_get_file partition "intermediate_file" ;
  match cache_file with
  | Some content =>
      logger_debug "Intermidiate file found." ;;
      mret content
  | None =>
      logger_debug "Intermidiate file not found." ;;
      try_except
        (file_object ← open self false ;
         pdf_file_object ← lift (to_pdf E file_object) ;
         partition_create_file partition "intermediate_file" pdf_file_object ;;
         created ← partition_get_file partition "intermediate_file" ;
         match created with
         | Some content => mret content
         | None => raise AttributeError
         end)
        (λ exception,
           match exception with
           | InvalidOfficeFormat => open self false
           | _ =>
               logger_error "Error creating intermediate file; %s." None exception ;;
               raise exception
           end)
  end.

Definition invalidate_cache (self : DocumentVersion) : M unit :=
  partition ← cache_partition self ;
  partition_purge partition ;;
  ps ← pages_all self ;
  for_each ps page_invalidate_cache.

(** The arguments of the call of the logger are evaluated first:
    [self.document] is fetched, and raises [DoesNotExist] when the row of
    the document is not there. *)
Definition revert (self : DocumentVersion) (_user : option string) : M unit :=
  get_document self ;;
  logger_info "Reverting to document document: %s to version: %s"
    (document_id self) ;;
  emit (event_document_version_revert _user (document_id self)) ;;
  later ← document_versions_filter_timestamp_gt (document_id self) (timestamp self) ;
  for_each later delete.

(** The loop of [save]: [for key in sorted(hooks): hooks[key](self)]. *)
Fixpoint run_post_save_hooks (keys : list Z) (self : DocumentVersion) : M unit :=
  match keys with
  | [] => mret tt
  | key :: keys' =>
      match _post_save_hooks E !! key with
      | Some hook => hook self ;; run_post_save_hooks keys' self
      | None => raise KeyError
      end
  end.

(** [save], [update_checksum], [update_mimetype] and [update_page_count]
    call each other; the three [update_] methods take the [self.save] they
    call as [self_save]. *)
Section methods_calling_save.
Variable self_save : DocumentVersion → M DocumentVersion.

Definition update_checksum_with (self : DocumentVersion) (save : bool)
    : M DocumentVersion :=
  found ← exists_ self ;
  if (found : bool) then
    source ← open self false ;
    let self := set_checksum (Some (document_hash_function E source)) self in
    if save then self_save self else mret self
  else mret self.

(** The [try] has an [except Exception] that cannot raise, so the [finally]
    is what comes next on both paths. *)
Definition update_mimetype_with (self : DocumentVersion) (save : bool)
    : M DocumentVersion :=
  found ← exists_ self ;
  if (found : bool) then
    self ← try_except
      (file_object ← open self false ;
       detected ← lift (get_mimetype E file_object) ;
       mret (set_encoding detected.2 (set_mimetype detected.1 self)))
      (λ _, mret (set_encoding (Some EmptyString)
                    (set_mimetype (Some EmptyString) self))) ;
    if save then self_save self else mret self
  else mret self.

(** Returns [self] and what the Python method returns ([None] when it
    falls off the end). *)
Definition update_page_count_with (self : DocumentVersion) (save : bool)
    : M (DocumentVersion * option Z) :=
  try_except_else
    (file_object ← open self false ;
     lift (get_page_count E file_object (mimetype self)))
    (λ exception,
       match exception with
       | PageCountError => mret (self, None)
       | _ => raise exception
       end)
    (λ detected_pages,
       atomic (
         pages_all_delete self ;;
         for_each (seqZ 0 detected_pages)
           (λ page_number, pages_create self (page_number + 1))) ;;
       self ← (if save then self_save self else mret self) ;
       mret (self, Some detected_pages)).

(** [not self.pk] *)
Definition not_pk (self : DocumentVersion) : bool :=
  match pk self with Some _ => false | None => true end.

(** The body of the [with transaction.atomic():] block of [save].
    [cached] is the document the instance holds. *)
Definition save_transaction (cached : option Document)
    (new_document_version : bool) (self : DocumentVersion) : M DocumentVersion :=
  self ← super_save self ;
  run_post_save_hooks (sorted (_post_save_hooks E)) self ;;
  if new_document_version then
    self ← update_checksum_with self false ;
    self ← update_mimetype_with self false ;
    self ← self_save self ;
    counted ← update_page_count_with self false ;
    let self := counted.1 in
    (if setting_fix_orientation E then fix_orientation self else mret tt) ;;
    document ← self_document cached self ;
    logger_info
      ("New document version " +:+ dquote +:+ "%s" +:+ dquote +:+
       " created for document: %s")
      (document_id self) ;;
    let document := mkDocument (doc_uuid document)
      (if String.eqb (label document) EmptyString
       then file self else label document) false in
    document_save (document_id self) document ;;
    mret self
  else mret self.

End methods_calling_save.

Definition creating_message : string := "Creating new version for document: %s".
Definition error_message : string :=
  "Error creating new document version for document " +:+ dquote +:+
  "%s" +:+ dquote +:+ "; %s".

(** [save(_user=...)].  The method calls itself ([self.save()] in the block
    for a new version); [depth] is the number of nested calls Python allows
    before it raises [RecursionError].  [cached] is the document the
    instance holds: for a new version the first call of the logger fetches
    it, before the [try]; the handler names [self.document] too. *)
Fixpoint save_depth (depth : nat) (cached : option Document)
    (_user : option string) (self : DocumentVersion) {struct depth}
    : M DocumentVersion :=
  match depth with
  | O => raise RecursionError
  | S depth' =>
      let user := _user in
      let new_document_version := not_pk self in
      cached ← (if new_document_version
                then document ← self_document cached self ;
                     logger_info creating_message (document_id self) ;;
                     mret (Some document)
                else mret cached) ;
      try_except_else
        (atomic (save_transaction (save_depth depth' cached None) cached
                   new_document_version self))
        (λ exception,
           self_document cached self ;;
           logger_error error_message (Some (document_id self)) exception ;;
           raise exception)
        (λ self,
           if new_document_version then
             emit (event_document_new_version user (pk self) (document_id self)) ;;
             emit (post_version_upload (pk self)) ;;
             siblings ← document_versions_all (document_id self) ;
             (if bool_decide (pk <$> siblings = [pk self])
              then emit (post_document_created (document_id self))
              else mret tt) ;;
             mret self
           else mret self)
  end.

Definition recursion_limit : nat := 1000.

(** [save] on an instance that holds no document yet. *)
Definition save (_user : option string) (self : DocumentVersion)
    : M DocumentVersion :=
  save_depth recursion_limit None _user self.

Definition update_checksum := update_checksum_with (save None).
Definition update_mimetype := update_mimetype_with (save None).
Definition update_page_count := update_page_count_with (save None).

End DocumentVersion.

(** ** Definitions used by the statements *)

(** The degraded result of a failed MIME detection. *)
Definition blank (self : DocumentVersion) : DocumentVersion :=
  set_encoding (Some EmptyString) (set_mimetype (Some EmptyString) self).

(** What section 4.6 says of the pre-open hooks: each hook receives the
    current stream and the version, and its stream goes to the next one. *)
Fixpoint hook_chain (hooks : list PreOpenHook) (stream : Stream)
    (version : DocumentVersion) : Result Stream :=
  match hooks with
  | [] => Ok stream
  | hook :: hooks' =>
      match hook stream version with
      | Ok stream' => hook_chain hooks' stream' version
      | Raise e => Raise e
      end
  end.

Definition identity_hook : PreOpenHook := λ stream _, Ok stream.

(** The hooks of the registry, by ascending key. *)
Definition registered_hooks (E : Env) : list (Z * PreOpenHook) :=
  (λ k, (k, default identity_hook (_pre_open_hooks E !! k)))
    <$> sorted (_pre_open_hooks E).

(** The artifact stored under a name in a partition of the cache. *)
Definition cached (w : World) (partition filename : string) : option Stream :=
  cache w !! partition ≫= (.!! filename).

(** *** What [super().save()] writes *)

(** The object after the file field committed a pending upload: the name
    of the file is the one the storage gave. *)
Definition committed (self : DocumentVersion) (w : World) : DocumentVersion :=
  match upload self with
  | Some _ =>
      set_upload None
        (set_file (get_available_name (file self) (storage w)) self)
  | None => self
  end.

(** The world after the file field committed a pending upload. *)
Definition commit (self : DocumentVersion) (w : World) : World :=
  match upload self with
  | Some content =>
      with_storage (<[get_available_name (file self) (storage w) := content]>) w
  | None => w
  end.

(** The row of an object that has the key [p]: the object as it is when
    this updates a row, and with the time of the save when this inserts
    one. *)
Definition saved_row (self : DocumentVersion) (p : positive) (w : World)
    : DocumentVersion :=
  if bool_decide (is_Some (versions (db w) !! p))
  then committed self w
  else set_timestamp (now w) (committed self w).

(** The row of an object that has no key yet. *)
Definition inserted_row (self : DocumentVersion) (w : World) : DocumentVersion :=
  set_pk (Some (fresh (dom (versions (db w)))))
    (set_timestamp (now w) (committed self w)).

(** *** Sample worlds *)

Definition no_fault {A} : A → option Exn := λ _, None.

(** No hooks, a sniffer and a converter that understand every file. *)
Definition plain_env : Env :=
  mkEnv ∅ ∅ (λ _, "c0ffee")
    (λ _, Ok (Some "text/plain", Some "utf-8"))
    (λ _ _, Ok 3) (λ _, Ok [[Byte.x25]; [Byte.x50]])
    (λ _, Ok (Some 90)) true no_fault (λ _ _, None) no_fault.

Definition sample_document : Document := mkDocument "d1" "report" false.

Definition empty_world : World :=
  mkWorld (mkDB {[1%positive := sample_document]} ∅ ∅ []) ∅ ∅ [] [] [] 100.

(** An upload that is not saved yet. *)
Definition new_version : DocumentVersion :=
  mkDocumentVersion None 1 0 EmptyString "file-1" (Some [Byte.x01; Byte.x02])
    None None None.

(** An upload for a document that has no row. *)
Definition orphan_version : DocumentVersion :=
  mkDocumentVersion None 7 0 EmptyString "file-7" (Some [Byte.x07])
    None None None.

(** An object without a key that names a file of the storage. *)
Definition unsaved_version : DocumentVersion :=
  mkDocumentVersion None 1 0 EmptyString "file-1" None None None None.

(** A saved version of [sample_document], with its binary in the storage. *)
Definition stored_version : DocumentVersion :=
  mkDocumentVersion (Some 1%positive) 1 100 EmptyString "file-1" None
    (Some "text/plain") (Some "utf-8") (Some "c0ffee").

Definition stored_world : World :=
  mkWorld
    (mkDB {[1%positive := sample_document]} {[1%positive := stored_version]} ∅ [])
    {["file-1" := [Byte.x01; Byte.x02]]} ∅ [] [] [] 200.

(** A saved version whose binary is not in the storage. *)
Definition lost_world : World :=
  mkWorld
    (mkDB {[1%positive := sample_document]} {[1%positive := stored_version]} ∅ [])
    ∅ ∅ [] [] [] 200.

(** Two pre-open hooks, registered out of order. *)
Definition append_byte (b : Byte.byte) : PreOpenHook :=
  λ stream _, Ok (stream ++ [b]).

Definition hooked_env : Env :=
  register_pre_open_hook 10 (append_byte Byte.x10)
    (register_pre_open_hook 20 (append_byte Byte.x20) plain_env).

(** A sniffer that fails. *)
Definition unsniffable_env : Env :=
  mkEnv ∅ ∅ (λ _, "c0ffee") (λ _, Raise (OtherError "magic"))
    (λ _ _, Ok 3) (λ _, Ok [[Byte.x25]; [Byte.x50]])
    (λ _, Ok (Some 90)) true no_fault (λ _ _, None) no_fault.

(** The same, with a post-save hook that only writes to the log. *)
Definition unsniffable_hooked_env : Env :=
  register_post_save_hook 10 (λ _, logger_debug "saved") unsniffable_env.

(** A converter that knows neither how to count the pages of the file nor
    how to make a PDF of it. *)
Definition unpaginatable_env : Env :=
  mkEnv ∅ ∅ (λ _, "c0ffee")
    (λ _, Ok (Some "application/octet-stream", Some "binary"))
    (λ _ _, Raise PageCountError) (λ _, Raise InvalidOfficeFormat)
    (λ _, Ok None) true no_fault (λ _ _, None) no_fault.

(** *** Worlds after a loop *)

Definition add_calls (cs : list Call) (w : World) : World :=
  mkWorld (db w) (storage w) (cache w) (log w) (events w) (trace w ++ cs) (now w).

(** The world after the pages [l] were deleted one by one. *)
Definition pages_deleted (l : list DocumentPage) (w : World) : World :=
  add_calls (CallPageDelete ∘ page_pk <$> l)
    (with_db (with_pages (λ t, foldl (λ t g, base.delete (page_pk g) t) t l)) w).

(** What [fix_orientation] does for one page whose detection returns. *)
Definition orientation_rotations (E : Env) (g : DocumentPage) : list Transformation :=
  match detect_orientation E g with
  | Ok degrees =>
      if truthy degrees
      then [mkTransformation (page_pk g) "TransformationRotate"
              (rotate_arguments (default 0 degrees))]
      else []
  | Raise _ => []
  end.

Definition orientation_calls (E : Env) (g : DocumentPage) : list Call :=
  CallDetectOrientation (page_pk g) ::
  ((λ t, CallAddTransformation (object_id t) (arguments t))
     <$> orientation_rotations E g).

(** The world after the orientation of the pages [l] was fixed. *)
Definition oriented (E : Env) (l : list DocumentPage) (w : World) : World :=
  add_calls (l ≫= orientation_calls E)
    (with_db (with_transformations (λ t, t ++ (l ≫= orientation_rotations E))) w).

(** *** The deletion contract and the orientation contract, as section 3
    and section 4.5 word them *)

(** The calls a method made: what it added to the trace. *)
Definition calls_of {A} (m : M A) (w : World) : list Call :=
  drop (length (trace w)) (trace (m w).2).

(** Section 3: deleting a Version deletes its Pages, purges its cache
    partition and removes its binary, in that order, and goes on when the
    deletion of a page fails. *)
Definition delete_is_best_effort (E : Env) (self : DocumentVersion)
    (w : World) : Prop :=
  ∃ partition rest,
    calls_of (delete E self) w =
      (CallPageDelete ∘ page_pk <$> pages_of self w) ++
      CallPartitionPurge partition :: CallStorageDelete (file self) :: rest.

(** Section 4.5: a failure of the detection for one page aborts neither the
    other pages nor the ingestion. *)
Definition fix_orientation_is_best_effort (E : Env) (self : DocumentVersion)
    (w : World) : Prop :=
  (fix_orientation E self w).1 = Ok tt ∧
  ∀ g, g ∈ pages_of self w →
    CallDetectOrientation (page_pk g) ∈ calls_of (fix_orientation E self) w.

(** *** More sample worlds *)

(** [stored_version] with two pages. *)
Definition paged_world : World :=
  mkWorld
    (mkDB {[1%positive := sample_document]} {[1%positive := stored_version]}
       {[1%positive := mkDocumentPage 1 1 1; 2%positive := mkDocumentPage 2 1 2]} [])
    {["file-1" := [Byte.x01; Byte.x02]]} ∅ [] [] [] 200.

(** The deletion of the first page of a version fails. *)
Definition locked_page_env : Env :=
  mkEnv ∅ ∅ (λ _, "c0ffee")
    (λ _, Ok (Some "text/plain", Some "utf-8"))
    (λ _ _, Ok 2) (λ _, Ok [[Byte.x25]; [Byte.x50]])
    (λ _, Ok (Some 90)) true no_fault (λ _ _, None)
    (λ g, if page_number g =? 1 then Some (OtherError "locked") else None).

(** The deletion of the second page of a version fails. *)
Definition locked_second_page_env : Env :=
  mkEnv ∅ ∅ (λ _, "c0ffee")
    (λ _, Ok (Some "text/plain", Some "utf-8"))
    (λ _ _, Ok 2) (λ _, Ok [[Byte.x25]; [Byte.x50]])
    (λ _, Ok (Some 90)) true no_fault (λ _ _, None)
    (λ g, if page_number g =? 2 then Some (OtherError "locked") else None).

(** The detection of the orientation of the first page of a version fails. *)
Definition unreadable_page_env : Env :=
  mkEnv ∅ ∅ (λ _, "c0ffee")
    (λ _, Ok (Some "text/plain", Some "utf-8"))
    (λ _ _, Ok 2) (λ _, Ok [[Byte.x25]; [Byte.x50]])
    (λ g, if page_number g =? 1 then Raise (OtherError "ocr") else Ok (Some 90))
    true no_fault (λ _ _, None) no_fault.

(** *** [revert] *)

(** A version of the document of [self] that is newer than [self]. *)
Definition is_later (self v : DocumentVersion) : Prop :=
  document_id v = document_id self ∧ timestamp self < timestamp v.

#[global] Instance is_later_dec self v : Decision (is_later self v).
Proof. unfold is_later. apply _. Defined.

(** Three versions of [sample_document] and one of another document. *)
Definition version_at (k document : positive) (t : Z) : DocumentVersion :=
  mkDocumentVersion (Some k) document t EmptyString ("file-" +:+ pretty k) None
    (Some "text/plain") (Some "utf-8") (Some "c0ffee").

Definition history_world : World :=
  mkWorld
    (mkDB {[1%positive := sample_document; 2%positive := sample_document]}
       {[1%positive := version_at 1 1 100; 2%positive := version_at 2 1 200;
         3%positive := version_at 3 1 300; 4%positive := version_at 4 2 400]}
       {[1%positive := mkDocumentPage 1 1 1; 2%positive := mkDocumentPage 2 2 1;
         3%positive := mkDocumentPage 3 3 1; 4%positive := mkDocumentPage 4 4 1]} [])
    {["file-1" := [Byte.x01]; "file-2" := [Byte.x02]; "file-3" := [Byte.x03];
      "file-4" := [Byte.x04]]} ∅ [] [] [] 500.

(** *** [update_page_count] *)

#[global] Instance page_number_le_total : Total page_number_le.
Proof. intros a b. unfold page_number_le. lia. Qed.

(** The table after [self.pages.create(page_number=n)] for version [v]. *)
Definition page_created (v : positive) (n : Z) (t : gmap positive DocumentPage)
    : gmap positive DocumentPage :=
  let k := fresh (dom t) in <[k := mkDocumentPage k v n]> t.

(** The numbers of the pages of a version, in the order of [pages.all()]. *)
Definition page_numbers (self : DocumentVersion) (w : World) : list Z :=
  page_number <$> pages_of self w.

(** The third page of a version cannot be created. *)
Definition full_table_env : Env :=
  mkEnv ∅ ∅ (λ _, "c0ffee")
    (λ _, Ok (Some "text/plain", Some "utf-8"))
    (λ _ _, Ok 3) (λ _, Ok [[Byte.x25]; [Byte.x50]])
    (λ _, Ok None) true no_fault
    (λ _ n, if n =? 3 then Some (OtherError "disk full") else None) no_fault.

(** The numbers of the pages of a version in a table of pages. *)
Definition numbers_in (v : option positive) (t : gmap positive DocumentPage)
    : list Z :=
  page_number <$>
    filter (λ g, Some (document_version_id g) = v)
      ((λ kv, set_page_pk kv.1 kv.2) <$> map_to_list t).

(** The world after the [atomic] block of [update_page_count] for [n]
    detected pages. *)
Definition pages_replaced (self : DocumentVersion) (v : positive) (n : Z)
    (w : World) : World :=
  with_db (with_pages (λ t,
    foldl (λ t page_number, page_created v (page_number + 1) t)
      (filter (λ kv, Some (document_version_id kv.2) ≠ pk self) t)
      (seqZ 0 n))) w.

(** *** [save] of a new version *)

(** The [self.save()] that [save] calls in its block, one level down, on
    the instance that holds [document]. *)
Definition nested_save (E : Env) (document : Document)
    : DocumentVersion → M DocumentVersion :=
  save_depth E (pred recursion_limit) (Some document) None.

(** The [with transaction.atomic():] block of [save] for a new version:
    the row is written, the post-save hooks run, the checksum and the MIME
    type are computed, the version is saved again, the pages are counted,
    the orientation is fixed and the document is saved. *)
Definition new_version_transaction (E : Env) (document : Document)
    (self : DocumentVersion) : M DocumentVersion :=
  save_transaction E (nested_save E document) (Some document) true self.

(** The world [save] runs the block in: the logger has the first record. *)
Definition creating (self : DocumentVersion) (w : World) : World :=
  add_log (LogInfo creating_message (document_id self)) w.

(** What [save] logs when the block raises. *)
Definition error_record (self : DocumentVersion) (e : Exn) : LogRecord :=
  LogError error_message (Some (document_id self)) e.

(** A post-save hook that fails, registered under the key 10. *)
Definition failing_hook_env : Env :=
  register_post_save_hook 10 (λ _, raise (OtherError "hook")) plain_env.

(** The database refuses the row. *)
Definition failing_database_env : Env :=
  mkEnv ∅ ∅ (λ _, "c0ffee")
    (λ _, Ok (Some "text/plain", Some "utf-8"))
    (λ _ _, Ok 3) (λ _, Ok [[Byte.x25]; [Byte.x50]])
    (λ _, Ok None) true (λ _, Some (OtherError "integrity")) (λ _ _, None) no_fault.

(** The converter fails on the file, and not with [PageCountError]. *)
Definition failing_converter_env : Env :=
  mkEnv ∅ ∅ (λ _, "c0ffee")
    (λ _, Ok (Some "text/plain", Some "utf-8"))
    (λ _ _, Raise (OtherError "converter")) (λ _, Ok [[Byte.x25]; [Byte.x50]])
    (λ _, Ok None) true no_fault (λ _ _, None) no_fault.

(** ** The other methods of the model *)

Section more_methods.
Variable E : Env.

(** [descriptor.read(n)] on what is left of the stream: at most [n] bytes,
    all of it when [n] is -1, and [ValueError] when [n] is below -1. *)
Definition read (n : Z) (left : Stream) : Result Stream :=
  if n <? -1 then Raise ValueError
  else if n <? 0 then Ok left
  else Ok (take (Z.to_nat n) left).

(** The loop of [save_to_file]: [while True: copy_buffer = read(buffer_size);
    if copy_buffer: write(copy_buffer) else: break].  [input] is what the
    input descriptor has left and [output] what was written.  [turns]
    bounds the number of turns of the loop.  The result has what was
    written, also when [read] raises. *)
Fixpoint copy_loop (turns : nat) (buffer_size : Z) (input output : Stream)
    : Result unit * Stream :=
  match turns with
  | O => (Ok tt, output)
  | S turns' =>
      match read buffer_size input with
      | Raise e => (Raise e, output)
      | Ok [] => (Ok tt, output)
      | Ok ((_ :: _) as copy_buffer) =>
          copy_loop turns' buffer_size (drop (length copy_buffer) input)
            (output ++ copy_buffer)
      end
  end.

(** [save_to_file(filepath, buffer_size)].  The local file system is a map
    from paths to contents, next to the world, and the method returns it
    also when it raises; [open(filepath, 'wb')] makes the file empty.
    Every turn of the loop but the last reads at least one byte, so one
    turn more than the bytes of the input is enough. *)
Definition save_to_file (self : DocumentVersion) (filepath : string)
    (buffer_size : Z) (local : gmap string Stream)
    : World → Result string * gmap string Stream * World :=
  λ w,
    match open E self false w with
    | (Raise e, w') => (Raise e, local, w')
    | (Ok input_descriptor, w') =>
        let local := <[filepath := []]> local in
        let copied :=
          copy_loop (S (length input_descriptor)) buffer_size
            input_descriptor [] in
        (match copied.1 with
         | Ok _ => Ok filepath
         | Raise e => Raise e
         end,
         <[filepath := copied.2]> local, w')
    end.

(** The default of [buffer_size]. *)
Definition default_buffer_size : Z := 1024 * 1024.

End more_methods.

(** *** Sample worlds for the other methods *)

(** A pre-open hook that fails, between two that do not. *)
Definition broken_hook_env : Env :=
  register_pre_open_hook 30 (append_byte Byte.x30)
    (register_pre_open_hook 20 (λ _ _, Raise (OtherError "cipher"))
       (register_pre_open_hook 10 (append_byte Byte.x10) plain_env)).

(** *** The name of the cache partition *)

(** ['version-{}'.format(self.uuid)], for the document [d] of the version. *)
Definition partition_name (d : Document) (self : DocumentVersion) : string :=
  "version-" +:+ (doc_uuid d +:+ "-" +:+ pk_text (pk self)).

(** The world after [partitions.get_or_create(name=...)]. *)
Definition with_partition (partition : string) (w : World) : World :=
  match cache w !! partition with
  | Some _ => w
  | None => with_cache (<[partition := ∅]>) w
  end.

(** Every character of a string has a property. *)
Fixpoint only (P : Ascii.ascii → Prop) (s : string) : Prop :=
  match s with
  | EmptyString => True
  | String a s' => P a ∧ only P s'
  end.

Definition digit (a : Ascii.ascii) : Prop :=
  ∃ x, (x < 10)%N ∧ a = pretty_N_char x.

(** The character [-]. *)
Definition dash : Ascii.ascii := Ascii.ascii_of_nat 45.

Definition not_dash (a : Ascii.ascii) : Prop := a ≠ dash.

(** A converter that makes a PDF of two chunks, and a world with a stale
    artifact in the partition of [stored_version]. *)
Definition stale_world : World :=
  with_cache (<["version-d1-1" := {["intermediate_file" := [Byte.xff]]}]>)
    stored_world.

(** *** What [delete] and [revert] leave alone *)

(** [w'] has the events, the log, the cache, the documents and the
    transformations of [w]. *)
Definition same_outside (w w' : World) : Prop :=
  events w' = events w ∧ log w' = log w ∧ cache w' = cache w ∧
  documents (db w') = documents (db w) ∧
  transformations (db w') = transformations (db w).

(** A version that [revert] from [self] deletes: a row of the table that is
    later than [self]. *)
Definition later_row (self : DocumentVersion) (w : World) (k : positive) : Prop :=
  ∃ row, versions (db w) !! k = Some row ∧ is_later self row.

#[global] Instance later_row_dec self w k : Decision (later_row self w k).
Proof.
  unfold later_row. destruct (versions (db w) !! k) as [row|].
  - destruct (decide (is_later self row)) as [Hl|Hn].
    + left. by exists row.
    + right. intros (row' & [= <-] & Hl). done.
  - right. intros (row & Hrow & _). discriminate.
Defined.

(** *** [save] of a new version *)

(** The version is the only version of its document in the table. *)
Definition only_version (self : DocumentVersion) (w : World) : Prop :=
  ∃ k, pk self = Some k ∧
    (∃ row, versions (db w) !! k = Some row ∧ document_id row = document_id self) ∧
    (∀ k' row', versions (db w) !! k' = Some row' →
       document_id row' = document_id self → k' = k).

(** A world where [sample_document] has a version already. *)
Definition second_upload_world : World :=
  mkWorld
    (mkDB {[1%positive := sample_document]} {[1%positive := stored_version]} ∅ [])
    {["file-1" := [Byte.x01; Byte.x02]]} ∅ [] [] [] 300.

Definition second_version : DocumentVersion :=
  mkDocumentVersion None 1 0 EmptyString "file-2" (Some [Byte.x03])
    None None None.


(** [w'] has the files of the storage and the rows of the versions of [w]. *)
Definition same_files_and_rows (w w' : World) : Prop :=
  storage w' = storage w ∧ versions (db w') = versions (db w).

(** A computation that writes no file and no row of a version. *)
Definition keeps_files_and_rows {A} (m : M A) : Prop :=
  ∀ w, same_files_and_rows w (m w).2.

(** What [update_mimetype] leaves in the two fields for a stream. *)
Definition detected_or_blank (E : Env) (content : Stream)
    : option string * option string :=
  match get_mimetype E content with
  | Ok detected => detected
  | Raise _ => (Some EmptyString, Some EmptyString)
  end.

(** The post-save hooks of the registry, by ascending key. *)
Definition idle_hook : PostSaveHook := λ _, mret tt.

Definition registered_post_save_hooks (E : Env) : list (Z * PostSaveHook) :=
  (λ k, (k, default idle_hook (_post_save_hooks E !! k)))
    <$> sorted (_post_save_hooks E).

(** * Properties *)

(** ** Running the monad *)

Lemma bind_run {A B} (m : M A) (f : A → M B) w :
  (m ≫= f) w = match m w with
               | (Ok a, w') => f a w'
               | (Raise e, w') => (Raise e, w')
               end.
Proof. reflexivity. Qed.

Lemma try_except_else_run {A B} (m : M A) (h : Exn → M B) (k : A → M B) w :
  try_except_else m h k w = match m w with
                            | (Ok a, w') => k a w'
                            | (Raise e, w') => h e w'
                            end.
Proof. reflexivity. Qed.

Lemma atomic_run {A} (m : M A) w :
  atomic m w = match m w with
               | (Ok a, w') => (Ok a, w')
               | (Raise e, w') => (Raise e, with_db (λ _, db w) w')
               end.
Proof. reflexivity. Qed.

Lemma exists_run self w :
  exists_ self w = (Ok (bool_decide (is_Some (storage w !! file self))), w).
Proof. reflexivity. Qed.

(** ** [open] *)

(** Opening a file reads the storage and leaves the world as it is. *)
Lemma open_world E self raw w : (open E self raw w).2 = w.
Proof.
  unfold open, storage_open. destruct raw.
  - destruct (storage w !! file self); reflexivity.
  - rewrite bind_run. destruct (storage w !! file self); reflexivity.
Qed.

Lemma open_run E self raw w : open E self raw w = ((open E self raw w).1, w).
Proof. rewrite <- (open_world E self raw w) at 3. apply surjective_pairing. Qed.

Lemma open_storage E self raw w w' :
  storage w = storage w' → (open E self raw w).1 = (open E self raw w').1.
Proof.
  intros Hs. unfold open, storage_open. destruct raw.
  - rewrite Hs. destruct (storage w' !! file self); reflexivity.
  - rewrite !bind_run, Hs. destruct (storage w' !! file self); reflexivity.
Qed.

Lemma sorted_elem_of {V} (d : gmap Z V) k : k ∈ sorted d ↔ is_Some (d !! k).
Proof.
  unfold sorted. rewrite merge_sort_Permutation, list_elem_of_fmap. split.
  - intros [[k' v] [-> Hin]]. apply elem_of_map_to_list in Hin. eauto.
  - intros [v Hv]. exists (k, v). split; [done|]. by apply elem_of_map_to_list.
Qed.

Lemma sorted_NoDup {V} (d : gmap Z V) : NoDup (sorted d).
Proof.
  unfold sorted. rewrite merge_sort_Permutation. apply NoDup_fst_map_to_list.
Qed.

Lemma Sorted_le_NoDup_lt (l : list Z) :
  Sorted Z.le l → NoDup l → StronglySorted Z.lt l.
Proof.
  intros Hs%Sorted_StronglySorted Hnd; [|apply _].
  induction Hs as [|x l Hs IH Hall]; [constructor|].
  apply NoDup_cons in Hnd as [Hx Hnd].
  constructor; [by apply IH|].
  apply Forall_forall. intros y Hy.
  pose proof (proj1 (Forall_forall _ _) Hall y Hy) as Hle.
  assert (x ≠ y) by (intros ->; done). lia.
Qed.

Lemma sorted_ascending {V} (d : gmap Z V) : StronglySorted Z.lt (sorted d).
Proof.
  apply Sorted_le_NoDup_lt; [|apply sorted_NoDup].
  unfold sorted. apply Sorted_merge_sort. apply _.
Qed.

Lemma sorted_empty {V} : sorted (∅ : gmap Z V) = [].
Proof. unfold sorted. by rewrite map_to_list_empty. Qed.

Lemma registered_hooks_keys E : (registered_hooks E).*1 = sorted (_pre_open_hooks E).
Proof.
  unfold registered_hooks. rewrite <- list_fmap_compose.
  rewrite <- (list_fmap_id (sorted _)) at 2. by apply list_fmap_ext.
Qed.

Lemma registered_hooks_elem_of E k h :
  (k, h) ∈ registered_hooks E ↔ _pre_open_hooks E !! k = Some h.
Proof.
  unfold registered_hooks. rewrite list_elem_of_fmap. split.
  - intros [k' [[= -> ->] Hin]].
    apply sorted_elem_of in Hin as [h' Hh']. by rewrite Hh'.
  - intros Hk. exists k. split; [by rewrite Hk|].
    apply sorted_elem_of. eauto.
Qed.

Lemma apply_pre_open_hooks_chain E keys result self :
  (∀ k, k ∈ keys → is_Some (_pre_open_hooks E !! k)) →
  apply_pre_open_hooks E keys result self =
  hook_chain ((λ k, default identity_hook (_pre_open_hooks E !! k)) <$> keys)
    result self.
Proof.
  revert result. induction keys as [|k keys IH]; intros result Hin; [done|].
  destruct (Hin k) as [h Hh]; [left|]. cbn [apply_pre_open_hooks fmap list_fmap hook_chain].
  unfold PreOpenHook in *. rewrite Hh. cbn [default from_option id].
  destruct (h result self); [|done].
  apply IH. intros k' Hk'. apply Hin. by right.
Qed.

(** C9: [open(raw=True)] returns the stream of the storage and applies no
    hook.  [open(raw=False)] applies every registered pre-open hook, once,
    in ascending order of the keys they are registered under; each hook gets
    the stream the one before returned (the first gets the stream of the
    storage) and the version. *)
Theorem open_applies_hooks_in_ascending_order (E : Env)
    (self : DocumentVersion) (w : World) :
  open E self true w = storage_open (file self) w ∧
  ∃ registered : list (Z * PreOpenHook),
    (∀ k h, (k, h) ∈ registered ↔ _pre_open_hooks E !! k = Some h) ∧
    StronglySorted Z.lt registered.*1 ∧
    open E self false w =
      (stream ← storage_open (file self) ;
       lift (hook_chain registered.*2 stream self)) w.
Proof.
  split; [reflexivity|].
  exists (registered_hooks E). split; [apply registered_hooks_elem_of|]. split.
  - rewrite registered_hooks_keys. apply sorted_ascending.
  - unfold open. rewrite !bind_run.
    destruct (storage_open (file self) w) as [[s|e] w']; [|done].
    unfold lift. f_equal.
    rewrite apply_pre_open_hooks_chain by (intros k; apply sorted_elem_of).
    unfold registered_hooks. by rewrite <- list_fmap_compose.
Qed.

Example open_runs_hook_10_before_hook_20 :
  open hooked_env stored_version false stored_world
    = (Ok [Byte.x01; Byte.x02; Byte.x10; Byte.x20], stored_world) ∧
  open hooked_env stored_version true stored_world
    = (Ok [Byte.x01; Byte.x02], stored_world).
Proof. split; reflexivity. Qed.

(** ** [update_checksum] and [update_mimetype] *)

(** C10: when the file of the version is not in the storage,
    [update_checksum] and [update_mimetype] return without a change to the
    object or to the world, whatever [save] is: no field is assigned and no
    [save] runs. *)
Theorem update_without_binary_is_noop (E : Env) (self : DocumentVersion)
    (save_flag : bool) (w : World) :
  storage w !! file self = None →
  update_checksum E self save_flag w = (Ok self, w) ∧
  update_mimetype E self save_flag w = (Ok self, w).
Proof.
  intros Hnone.
  unfold update_checksum, update_checksum_with, update_mimetype, update_mimetype_with.
  rewrite !bind_run, exists_run, Hnone.
  rewrite bool_decide_eq_false_2 by (intros [? ?]; discriminate).
  split; reflexivity.
Qed.

Lemma update_without_binary_is_noop_witness :
  storage lost_world !! file stored_version = None ∧
  update_checksum plain_env stored_version true lost_world
    = (Ok stored_version, lost_world) ∧
  update_mimetype plain_env stored_version true lost_world
    = (Ok stored_version, lost_world).
Proof.
  split; [reflexivity|].
  apply (update_without_binary_is_noop plain_env stored_version true lost_world).
  reflexivity.
Defined.
(** ** [super().save()] *)

Lemma super_save_keyed_run E self p w :
  pk self = Some p →
  super_save E self w =
  match super_save_fault E self with
  | Some e => (Raise e, commit self w)
  | None =>
      (Ok (saved_row self p w),
       with_db (with_versions (<[p := saved_row self p w]>)) (commit self w))
  end.
Proof.
  intros Hpk. unfold super_save, saved_row, committed, commit.
  rewrite bind_run, Hpk.
  destruct (upload self) as [content|]; cbn;
    destruct (super_save_fault E self); cbn; try done;
    by destruct (bool_decide _).
Qed.

Lemma super_save_new_run E self w :
  pk self = None →
  super_save E self w =
  match super_save_fault E self with
  | Some e => (Raise e, commit self w)
  | None =>
      (Ok (inserted_row self w),
       with_db (with_versions
                  (<[fresh (dom (versions (db w))) := inserted_row self w]>))
         (commit self w))
  end.
Proof.
  intros Hpk. unfold super_save, inserted_row, committed, commit.
  rewrite bind_run, Hpk.
  destruct (upload self) as [content|]; cbn;
    by destruct (super_save_fault E self).
Qed.



Lemma committed_no_upload self w :
  upload self = None → committed self w = self ∧ commit self w = w.
Proof. intros Hup. unfold committed, commit. by rewrite Hup. Qed.

(** ** [save] of a version that has a primary key *)

Lemma save_depth_S E depth cached user self :
  save_depth E (S depth) cached user self =
  let new_document_version := not_pk self in
  cached ← (if new_document_version
            then document ← self_document cached self ;
                 logger_info creating_message (document_id self) ;;
                 mret (Some document)
            else mret cached) ;
  try_except_else
    (atomic (save_transaction E (save_depth E depth cached None) cached
               new_document_version self))
    (λ exception,
       self_document cached self ;;
       logger_error error_message (Some (document_id self)) exception ;;
       raise exception)
    (λ self,
       if new_document_version then
         emit (event_document_new_version user (pk self) (document_id self)) ;;
         emit (post_version_upload (pk self)) ;;
         siblings ← document_versions_all (document_id self) ;
         (if bool_decide (pk <$> siblings = [pk self])
          then emit (post_document_created (document_id self))
          else mret tt) ;;
         mret self
       else mret self).
Proof. reflexivity. Qed.

(** A saved version does not take the branch of [save] that calls [save]
    again, so one level of the recursion is enough for it. *)
Lemma save_depth_persisted E n cached user self p :
  pk self = Some p →
  save_depth E (S n) cached user self = save_depth E 1 cached user self.
Proof.
  intros Hpk. cbn [save_depth]. unfold not_pk. rewrite Hpk. reflexivity.
Qed.

Lemma save_persisted E user self p :
  pk self = Some p → save E user self = save_depth E 1 None user self.
Proof.
  intros Hpk. unfold save. by apply (save_depth_persisted E _ None user self p).
Qed.

(** [save] of a version that has a key: the row is written and the
    post-save hooks run in one transaction; the handler names the document
    before it logs. *)
Lemma save_depth_persisted_run E n cached user self p w :
  pk self = Some p →
  save_depth E (S n) cached user self w =
  match atomic (self' ← super_save E self ;
                run_post_save_hooks E (sorted (_post_save_hooks E)) self' ;;
                mret self') w with
  | (Ok self', w1) => (Ok self', w1)
  | (Raise e, w1) =>
      (self_document cached self ;;
       logger_error error_message (Some (document_id self)) e ;;
       raise e) w1
  end.
Proof.
  intros Hpk. rewrite save_depth_S. unfold not_pk. rewrite Hpk. cbv zeta.
  rewrite bind_run. cbn [mret M_ret]. cbn iota beta.
  rewrite try_except_else_run. unfold save_transaction.
  rewrite !atomic_run, !bind_run.
  destruct (super_save E self w) as [[self1|e] w1]; [|done].
  rewrite !bind_run.
  by destruct (run_post_save_hooks _ _ _ _) as [[[]|e] w2].
Qed.

(** Without hooks and without a database fault, saving a saved version
    writes its row. *)
Lemma save_persisted_writes_row E user self p w :
  pk self = Some p → upload self = None →
  super_save_fault E self = None → _post_save_hooks E = ∅ →
  is_Some (versions (db w) !! p) →
  save E user self w
    = (Ok self, with_db (with_versions (<[p := self]>)) w).
Proof.
  intros Hpk Hup Hfault Hhooks Hrow. unfold save.
  change recursion_limit with (S (pred recursion_limit)).
  rewrite (save_depth_persisted_run E _ None user self p w Hpk).
  rewrite atomic_run, bind_run, (super_save_keyed_run E self p w Hpk), Hfault.
  unfold saved_row. rewrite bool_decide_eq_true_2 by done.
  destruct (committed_no_upload self w Hup) as [-> ->].
  by rewrite Hhooks, sorted_empty.
Qed.

(** A whole ingestion: the upload gets its row, its metadata and three
    pages, the document is no stub any more, and the events are emitted. *)
Example save_new_version_example :
  ∃ w', save plain_env (Some "admin") new_version empty_world
          = (Ok stored_version, w') ∧
        versions (db w') = {[1%positive := stored_version]} ∧
        page_number <$> pages_of stored_version w' = [1; 2; 3] ∧
        storage w' !! "file-1" = Some [Byte.x01; Byte.x02] ∧
        events w' =
          [event_document_new_version (Some "admin") (Some 1%positive) 1;
           post_version_upload (Some 1%positive);
           post_document_created 1].
Proof. eexists. split; [vm_compute; reflexivity|]. repeat split. Qed.

(** ** [update_mimetype] *)

Lemma update_mimetype_with_blank E self_save self save_flag w content :
  storage w !! file self = Some content →
  (∀ s, (open E self false w).1 = Ok s → is_ok (get_mimetype E s) = false) →
  update_mimetype_with E self_save self save_flag w =
    if save_flag then self_save (blank self) w else (Ok (blank self), w).
Proof.
  intros Hsome Hfail.
  unfold update_mimetype_with.
  rewrite bind_run, exists_run, Hsome.
  rewrite bool_decide_eq_true_2 by eauto.
  rewrite bind_run. unfold try_except. rewrite try_except_else_run, bind_run.
  rewrite (open_run E self false w).
  destruct (open E self false w).1 as [s|e] eqn:Hopen.
  - specialize (Hfail s eq_refl). rewrite bind_run. unfold lift.
    destruct (get_mimetype E s); [discriminate|].
    destruct save_flag; reflexivity.
  - destruct save_flag; reflexivity.
Qed.

(** [save] of a version that has a key, when the database takes the row
    and the post-save hooks return. *)
Lemma save_keyed_returns E user v p w w2 :
  pk v = Some p → super_save_fault E v = None →
  run_post_save_hooks E (sorted (_post_save_hooks E)) (saved_row v p w)
    (with_db (with_versions (<[p := saved_row v p w]>)) (commit v w))
    = (Ok tt, w2) →
  save E user v w = (Ok (saved_row v p w), w2).
Proof.
  intros Hpk Hfault Hhooks. unfold save.
  change recursion_limit with (S (pred recursion_limit)).
  rewrite (save_depth_persisted_run E _ None user v p w Hpk).
  by rewrite atomic_run, bind_run, (super_save_keyed_run E v p w Hpk), Hfault,
    bind_run, Hhooks.
Qed.

Lemma saved_row_blank self p w :
  pk self = Some p →
  mimetype (saved_row (blank self) p w) = Some EmptyString ∧
  encoding (saved_row (blank self) p w) = Some EmptyString ∧
  pk (saved_row (blank self) p w) = Some p ∧
  upload (saved_row (blank self) p w) = None ∧
  checksum (saved_row (blank self) p w) = checksum self ∧
  document_id (saved_row (blank self) p w) = document_id self.
Proof.
  intros Hpk. unfold saved_row, committed, blank.
  destruct (bool_decide _), (upload self) as [content|] eqn:Hup; cbn;
    rewrite ?Hup; cbn; done.
Qed.

(** ** [update_page_count] on a format the converter cannot paginate *)

(** When counting the pages raises [PageCountError], the method does
    nothing: it returns [None] and the world is the one it started in. *)
Lemma update_page_count_unpaginatable E self save_flag w s :
  open E self false w = (Ok s, w) →
  get_page_count E s (mimetype self) = Raise PageCountError →
  update_page_count E self save_flag w = (Ok (self, None), w).
Proof.
  intros Hopen Hcount.
  unfold update_page_count, update_page_count_with.
  rewrite try_except_else_run, bind_run, Hopen. unfold lift. by rewrite Hcount.
Qed.

(** C1: a version that was just saved has no page.  The converter raises
    [PageCountError] on its file: [update_page_count] returns normally
    ([None]), and the version has no page afterwards, where the comment in
    the handler and the claim have one page, numbered 1.  The same holds of
    the version a whole [save] of an upload makes. *)
Theorem update_page_count_unpaginatable_creates_no_page :
  pages_of stored_version stored_world = [] ∧
  ∃ w', update_page_count unpaginatable_env stored_version true stored_world
          = (Ok (stored_version, None), w') ∧
        page_count stored_version w' = (Ok 0, w') ∧
        (page_number <$> pages_of stored_version w') ≠ [1] ∧
  ∃ self w'', save unpaginatable_env None new_version empty_world = (Ok self, w'') ∧
        page_count self w'' = (Ok 0, w'').
Proof.
  split; [reflexivity|]. exists stored_world. split.
  - apply (update_page_count_unpaginatable _ _ _ _ [Byte.x01; Byte.x02]);
      reflexivity.
  - split; [reflexivity|]. split; [discriminate|].
    eexists _, _. split; vm_compute; reflexivity.
Qed.

(** ** [get_intermidiate_file] *)

(** Asking for the partition of a version makes it when it is missing, and
    changes no artifact of the cache. *)
Lemma cache_partition_run self w :
  match cache_partition self w with
  | (Ok partition, w') =>
      storage w' = storage w ∧ db w' = db w ∧ log w' = log w ∧
      (∀ p f, cached w' p f = cached w p f)
  | (Raise e, w') => w' = w
  end.
Proof.
  unfold cache_partition, uuid. rewrite !bind_run. unfold get_document.
  destruct (documents (db w) !! document_id self) as [d|]; [|done].
  cbn [mret M_ret]. unfold partitions_get_or_create.
  destruct (cache w !! _) as [files|] eqn:Hpart; [done|].
  repeat split; [done..|]. intros p f. unfold cached, with_cache. cbn [cache].
  destruct (decide (p = "version-" +:+ doc_uuid d +:+ "-" +:+ pk_text (pk self)))
    as [->|Hne].
  - by rewrite lookup_insert_eq, Hpart.
  - by rewrite lookup_insert_ne.
Qed.

(** C8: the cache has no intermediate file for the version, [open] returns
    a stream, and the converter raises [InvalidOfficeFormat] on it.  Then
    [get_intermidiate_file] returns normally, and what it returns is that
    stream: the one a second [open] gives, which is the binary of the
    storage when no pre-open hook is registered.  The storage and the
    tables are unchanged and no artifact of the cache is added or changed. *)
Theorem get_intermidiate_file_falls_back_to_original (E : Env)
    (self : DocumentVersion) (w w1 : World) (s : Stream) :
  (partition ← cache_partition self ;
   partition_get_file partition "intermediate_file") w = (Ok None, w1) →
  open E self false w = (Ok s, w) →
  to_pdf E s = Raise InvalidOfficeFormat →
  ∃ w', get_intermidiate_file E self w = (Ok s, w') ∧
        open E self false w' = (Ok s, w') ∧
        storage w' = storage w ∧ db w' = db w ∧
        (∀ p f, cached w' p f = cached w p f) ∧
        (_pre_open_hooks E = ∅ → storage w !! file self = Some s).
Proof.
  intros Hmiss Hopen Hpdf.
  rewrite bind_run in Hmiss.
  pose proof (cache_partition_run self w) as Hpart.
  unfold get_intermidiate_file. rewrite bind_run.
  destruct (cache_partition self w) as [[partition|e] w2]; [|done].
  destruct Hpart as (Hst & Hdb & _ & Hcache).
  rewrite bind_run. unfold partition_get_file, gets in *.
  injection Hmiss as Hnone ->. rewrite Hnone.
  rewrite bind_run. unfold try_except.
  set (w3 := add_log (LogDebug "Intermidiate file not found.") w1).
  assert (open E self false w3 = (Ok s, w3)) as Hopen3.
  { rewrite (open_run E self false w3).
    rewrite (open_storage E self false w3 w) by (by rewrite <- Hst).
    by rewrite Hopen. }
  change (logger_debug "Intermidiate file not found." w1) with (Ok tt, w3).
  cbn iota beta. rewrite try_except_else_run, bind_run, Hopen3.
  rewrite bind_run. unfold lift. rewrite Hpdf.
  exists w3. repeat split; [done..|].
  intros Hhooks. unfold open in Hopen. rewrite bind_run in Hopen.
  unfold storage_open in *. destruct (storage w !! file self) as [c|]; [|done].
  unfold lift in Hopen. rewrite Hhooks, sorted_empty in Hopen.
  by injection Hopen as ->.
Qed.

Lemma get_intermidiate_file_falls_back_to_original_witness :
  ∃ w', get_intermidiate_file unpaginatable_env stored_version stored_world
          = (Ok [Byte.x01; Byte.x02], w') ∧
        cached w' "version-d1-1" "intermediate_file" = None.
Proof.
  destruct (get_intermidiate_file_falls_back_to_original unpaginatable_env
              stored_version stored_world
              (with_cache (<["version-d1-1" := ∅]>) stored_world)
              [Byte.x01; Byte.x02])
    as (w' & Hrun & _ & _ & _ & Hcache & _).
  - reflexivity.
  - reflexivity.
  - reflexivity.
  - exists w'. split; [exact Hrun|]. by rewrite Hcache.
Defined.

(** ** Loops *)

Lemma for_each_app {A} (l1 l2 : list A) (body : A → M unit) w :
  for_each (l1 ++ l2) body w =
  match for_each l1 body w with
  | (Ok _, w') => for_each l2 body w'
  | (Raise e, w') => (Raise e, w')
  end.
Proof.
  revert w. induction l1 as [|x l1 IH]; intros w; [done|].
  cbn [for_each app]. rewrite !bind_run.
  destruct (body x w) as [[[]|e] w']; [apply IH|done].
Qed.

Lemma lookup_foldl_delete {A B} (f : B → positive) (l : list B)
    (t : gmap positive A) k :
  foldl (λ t g, base.delete (f g) t) t l !! k =
  if decide (k ∈ f <$> l) then None else t !! k.
Proof.
  revert t. induction l as [|g l IH]; intros t; cbn [foldl fmap list_fmap].
  - rewrite decide_False; [done|]. by intros ?%elem_of_nil.
  - rewrite IH. destruct (decide (k ∈ f <$> l)) as [Hin|Hnin].
    + rewrite decide_True; [done|]. by right.
    + destruct (decide (k = f g)) as [->|Hne].
      * rewrite decide_True by left. apply lookup_delete_eq.
      * rewrite decide_False; [by apply lookup_delete_ne|].
        intros [?|?]%elem_of_cons; done.
Qed.

(** ** The pages of a version *)

Lemma elem_of_page_rows g w :
  g ∈ page_rows w ↔
  ∃ row, pages (db w) !! page_pk g = Some row ∧ g = set_page_pk (page_pk g) row.
Proof.
  unfold page_rows. rewrite list_elem_of_fmap. split.
  - intros [[k row] [-> Hin]]. apply elem_of_map_to_list in Hin. by exists row.
  - intros (row & Hrow & Hg). exists (page_pk g, row). split; [done|].
    by apply elem_of_map_to_list.
Qed.

Lemma elem_of_pages_of g self w :
  g ∈ pages_of self w ↔
  Some (document_version_id g) = pk self ∧ g ∈ page_rows w.
Proof.
  unfold pages_of. by rewrite merge_sort_Permutation, list_elem_of_filter.
Qed.

Lemma filter_nil_intro {A} (P : A → Prop) `{∀ x, Decision (P x)} (l : list A) :
  (∀ x, x ∈ l → ¬ P x) → filter P l = [].
Proof.
  induction l as [|x l IH]; intros Hall; [done|].
  rewrite filter_cons_False by (apply Hall; left).
  apply IH. intros y Hy. apply Hall. by right.
Qed.

Lemma page_pk_NoDup self w : NoDup (page_pk <$> pages_of self w).
Proof.
  unfold pages_of. rewrite merge_sort_Permutation.
  apply (sublist_NoDup _ (page_pk <$> page_rows w)).
  - unfold page_rows. rewrite <- list_fmap_compose.
    apply (NoDup_fst_map_to_list (pages (db w))).
  - apply fmap_sublist, sublist_filter.
Qed.

(** ** [delete] *)

Lemma page_delete_run E g w :
  page_delete E g w =
  match page_delete_fault E g with
  | Some e => (Raise e, add_calls [CallPageDelete (page_pk g)] w)
  | None => (Ok tt, pages_deleted [g] w)
  end.
Proof. unfold page_delete. rewrite bind_run. by destruct (page_delete_fault E g). Qed.

Lemma pages_deleted_cons g l w :
  pages_deleted l (pages_deleted [g] w) = pages_deleted (g :: l) w.
Proof.
  unfold pages_deleted, add_calls, with_db, with_pages. cbn. f_equal.
  by rewrite <- app_assoc.
Qed.

Lemma for_each_page_delete E l w :
  (∀ g, g ∈ l → page_delete_fault E g = None) →
  for_each l (page_delete E) w = (Ok tt, pages_deleted l w).
Proof.
  revert w. induction l as [|g l IH]; intros w Hok.
  - unfold pages_deleted, add_calls, with_db, with_pages. cbn.
    rewrite app_nil_r. by destruct w as [[]].
  - cbn [for_each]. rewrite bind_run, page_delete_run, Hok by left.
    rewrite IH by (intros; apply Hok; by right). by rewrite pages_deleted_cons.
Qed.

Lemma pages_of_pages_deleted self w :
  pages_of self (pages_deleted (pages_of self w) w) = [].
Proof.
  unfold pages_of at 1. rewrite filter_nil_intro; [done|].
  intros g [row [Hrow Hg]]%elem_of_page_rows Hself.
  cbn in Hrow. rewrite lookup_foldl_delete in Hrow.
  destruct (decide _) as [|Hnin]; [done|]. apply Hnin.
  apply list_elem_of_fmap. exists g. split; [done|].
  apply elem_of_pages_of. split; [done|].
  apply elem_of_page_rows. by exists row.
Qed.

Lemma calls_of_app {A} (m : M A) w cs :
  trace (m w).2 = trace w ++ cs → calls_of m w = cs.
Proof. intros Ht. unfold calls_of. rewrite Ht. apply drop_app_length. Qed.

Lemma delete_run_ok E self w p :
  pk self = Some p →
  (∀ g, g ∈ pages_of self w → page_delete_fault E g = None) →
  delete E self w =
    (Ok tt,
     with_db (with_versions (base.delete p))
       (add_calls [CallVersionDelete p]
          (with_storage (base.delete (file self))
             (add_calls [CallStorageDelete (file self)]
                (pages_deleted (pages_of self w) w))))).
Proof.
  intros Hpk Hok. unfold delete. rewrite bind_run.
  change (pages_all self w) with (Ok (pages_of self w), w). cbn iota beta.
  rewrite bind_run, for_each_page_delete by done.
  unfold super_delete. by rewrite Hpk.
Qed.

Lemma delete_run_fault E self w pre g post e :
  pages_of self w = pre ++ g :: post →
  (∀ x, x ∈ pre → page_delete_fault E x = None) →
  page_delete_fault E g = Some e →
  delete E self w =
    (Raise e, add_calls [CallPageDelete (page_pk g)] (pages_deleted pre w)).
Proof.
  intros Hpages Hpre Hg. unfold delete. rewrite bind_run.
  change (pages_all self w) with (Ok (pages_of self w), w). cbn iota beta.
  rewrite bind_run, Hpages, for_each_app, for_each_page_delete by done.
  cbn [for_each]. by rewrite bind_run, page_delete_run, Hg.
Qed.

(** C2, as the code has it.  [delete] deletes the pages of the version one
    by one, in the order of their numbers, then removes the binary from the
    storage, then deletes the row of the version; it never purges the cache
    partition, and the cache is as it was.  When the deletion of a page
    raises, [delete] raises that error at once: the pages before it are
    gone from the table and stay deleted, and the failing page, the pages
    after it, the pages of the other versions, the binary and the row
    stay. *)
Theorem delete_pages_then_binary_then_row (E : Env) (self : DocumentVersion)
    (w : World) :
  (∀ p, pk self = Some p →
     (∀ g, g ∈ pages_of self w → page_delete_fault E g = None) →
     ∃ w', delete E self w = (Ok tt, w') ∧
       calls_of (delete E self) w =
         (CallPageDelete ∘ page_pk <$> pages_of self w) ++
         [CallStorageDelete (file self); CallVersionDelete p] ∧
       pages_of self w' = [] ∧
       storage w' = base.delete (file self) (storage w) ∧
       versions (db w') = base.delete p (versions (db w)) ∧
       cache w' = cache w) ∧
  (∀ pre g post e,
     pages_of self w = pre ++ g :: post →
     (∀ x, x ∈ pre → page_delete_fault E x = None) →
     page_delete_fault E g = Some e →
     ∃ w', delete E self w = (Raise e, w') ∧
       calls_of (delete E self) w = CallPageDelete ∘ page_pk <$> pre ++ [g] ∧
       (∀ x, x ∈ pre → pages (db w') !! page_pk x = None) ∧
       (∀ x, x ∈ g :: post → pages (db w') !! page_pk x = pages (db w) !! page_pk x) ∧
       (∀ k, pages (db w') !! k =
               if decide (k ∈ page_pk <$> pre) then None else pages (db w) !! k) ∧
       (∀ x, x ∈ pages_of self w' ↔ x ∈ g :: post) ∧
       storage w' = storage w ∧
       versions (db w') = versions (db w) ∧
       cache w' = cache w).
Proof.
  split.
  - intros p Hpk Hok. eexists. split; [by apply delete_run_ok|].
    split; [|split; [|done]].
    + apply calls_of_app. rewrite (delete_run_ok E self w p) by done. cbn.
      by rewrite <- !app_assoc.
    + apply (pages_of_pages_deleted self w).
  - intros pre g post e Hpages Hpre Hg. eexists.
    split; [by eapply delete_run_fault|].
    pose proof (page_pk_NoDup self w) as Hnd.
    rewrite Hpages, fmap_app in Hnd.
    apply NoDup_app in Hnd as (_ & Hdisj & _).
    split; [|split; [|split; [|split; [|split; [|done]]]]].
    + apply calls_of_app. rewrite (delete_run_fault E self w pre g post e) by done. cbn.
      by rewrite fmap_app, <- app_assoc.
    + intros x Hx. cbn. rewrite lookup_foldl_delete.
      rewrite decide_True; [done|]. by apply list_elem_of_fmap_2.
    + intros x Hx. cbn. rewrite lookup_foldl_delete.
      rewrite decide_False; [done|]. intros Hin.
      apply (Hdisj _ Hin). by apply list_elem_of_fmap_2.
    + intros k. cbn. apply lookup_foldl_delete.
    + intros x. rewrite elem_of_pages_of, elem_of_page_rows. cbn.
      setoid_rewrite lookup_foldl_delete. split.
      * intros (Hself & row & Hrow & Hx).
        destruct (decide (page_pk x ∈ page_pk <$> pre)) as [|Hnin]; [done|].
        assert (x ∈ pages_of self w) as Hin.
        { apply elem_of_pages_of. split; [done|].
          apply elem_of_page_rows. by exists row. }
        rewrite Hpages in Hin. apply elem_of_app in Hin as [Hin|Hin]; [|done].
        exfalso. apply Hnin. by apply list_elem_of_fmap_2.
      * intros Hx.
        assert (x ∈ pages_of self w) as Hin.
        { rewrite Hpages. apply elem_of_app. by right. }
        apply elem_of_pages_of in Hin as [Hself (row & Hrow & Hrow')%elem_of_page_rows].
        split; [done|]. exists row. split; [|done].
        rewrite decide_False; [done|]. intros Hin.
        apply (Hdisj _ Hin). by apply list_elem_of_fmap_2.
Qed.

Lemma delete_pages_then_binary_then_row_witness :
  (∃ w', delete plain_env stored_version paged_world = (Ok tt, w') ∧
     calls_of (delete plain_env stored_version) paged_world =
       [CallPageDelete 1; CallPageDelete 2; CallStorageDelete "file-1";
        CallVersionDelete 1]) ∧
  (∃ w', delete locked_second_page_env stored_version paged_world
           = (Raise (OtherError "locked"), w') ∧
     calls_of (delete locked_second_page_env stored_version) paged_world =
       [CallPageDelete 1; CallPageDelete 2] ∧
     pages (db w') !! 1%positive = None ∧
     pages (db w') !! 2%positive = Some (mkDocumentPage 2 1 2) ∧
     storage w' = storage paged_world ∧
     versions (db w') = versions (db paged_world)).
Proof.
  destruct (delete_pages_then_binary_then_row plain_env stored_version paged_world)
    as [Hok _].
  destruct (delete_pages_then_binary_then_row locked_second_page_env stored_version
              paged_world) as [_ Hfault].
  split.
  - destruct (Hok 1%positive) as (w' & Hrun & Hcalls & _); [reflexivity| |].
    + intros g _. reflexivity.
    + exists w'. split; [exact Hrun|]. rewrite Hcalls. reflexivity.
  - destruct (Hfault [mkDocumentPage 1 1 1] (mkDocumentPage 2 1 2) []
                (OtherError "locked"))
      as (w' & Hrun & Hcalls & Hgone & Hstay & _ & _ & Hst & Hrows & _).
    + reflexivity.
    + intros x Hx. apply list_elem_of_singleton in Hx as ->. reflexivity.
    + reflexivity.
    + exists w'. split; [exact Hrun|]. split; [exact Hcalls|].
      split; [apply (Hgone (mkDocumentPage 1 1 1)); left|].
      split; [|done].
      change 2%positive with (page_pk (mkDocumentPage 2 1 2)) at 1.
      rewrite (Hstay (mkDocumentPage 2 1 2)) by left. reflexivity.
Defined.

(** Against C2 as section 3 words it: with pages that delete without an
    error, [delete] makes no call to purge the cache partition; and when the
    deletion of the first page raises, [delete] raises too and the binary
    and the row of the version are still there. *)
Lemma delete_is_not_best_effort :
  ¬ delete_is_best_effort plain_env stored_version paged_world ∧
  ¬ delete_is_best_effort locked_page_env stored_version paged_world ∧
  (delete locked_page_env stored_version paged_world).1
    = Raise (OtherError "locked") ∧
  storage (delete locked_page_env stored_version paged_world).2 !! "file-1"
    = Some [Byte.x01; Byte.x02] ∧
  versions (db (delete locked_page_env stored_version paged_world).2) !! 1%positive
    = Some stored_version.
Proof.
  split; [|split; [|split; [|split]]]; try reflexivity.
  - intros (partition & rest & Hcalls). vm_compute in Hcalls. discriminate.
  - intros (partition & rest & Hcalls). vm_compute in Hcalls. discriminate.
Qed.

(** ** [fix_orientation] *)

(** The body of the loop, for one page. *)
Lemma fix_orientation_page_run E g w :
  (degrees ← page_detect_orientation E g ;
   if truthy degrees
   then add_for_model g "TransformationRotate" (rotate_arguments (default 0 degrees))
   else mret tt) w =
  match detect_orientation E g with
  | Ok _ => (Ok tt, oriented E [g] w)
  | Raise e => (Raise e, add_calls [CallDetectOrientation (page_pk g)] w)
  end.
Proof.
  rewrite bind_run. unfold page_detect_orientation. rewrite bind_run.
  unfold oriented, orientation_calls, orientation_rotations, lift.
  cbn [called modify].
  destruct (detect_orientation E g) as [degrees|e] eqn:Hd; [|done].
  destruct w as [[docs vs ps ts] st ca lg ev tr nw].
  destruct (truthy degrees) eqn:Ht; cbn; rewrite Hd, Ht; cbn;
    unfold add_for_model, called, modify, add_calls, add_call, with_db,
      with_transformations; rewrite ?bind_run; cbn;
    by rewrite ?app_nil_r, <- ?app_assoc.
Qed.

Lemma oriented_cons E g l w :
  oriented E l (oriented E [g] w) = oriented E (g :: l) w.
Proof.
  unfold oriented, add_calls, with_db, with_transformations. cbn.
  by rewrite !app_nil_r, <- !app_assoc.
Qed.

Lemma for_each_fix_orientation E l w :
  (∀ g, g ∈ l → is_ok (detect_orientation E g) = true) →
  for_each l (λ page,
    degrees ← page_detect_orientation E page ;
    if truthy degrees
    then add_for_model page "TransformationRotate"
           (rotate_arguments (default 0 degrees))
    else mret tt) w = (Ok tt, oriented E l w).
Proof.
  revert w. induction l as [|g l IH]; intros w Hok.
  - unfold oriented, add_calls, with_db, with_transformations. cbn.
    rewrite !app_nil_r. by destruct w as [[]].
  - cbn [for_each]. rewrite bind_run, fix_orientation_page_run.
    pose proof (Hok g ltac:(left)) as Hg.
    destruct (detect_orientation E g); [|done].
    rewrite IH by (intros; apply Hok; by right). by rewrite oriented_cons.
Qed.

Lemma fix_orientation_run_ok E self w :
  (∀ g, g ∈ pages_of self w → is_ok (detect_orientation E g) = true) →
  fix_orientation E self w = (Ok tt, oriented E (pages_of self w) w).
Proof.
  intros Hok. unfold fix_orientation. rewrite bind_run.
  change (pages_all self w) with (Ok (pages_of self w), w). cbn iota beta.
  by apply for_each_fix_orientation.
Qed.

Lemma fix_orientation_run_fault E self w pre g post e :
  pages_of self w = pre ++ g :: post →
  (∀ x, x ∈ pre → is_ok (detect_orientation E x) = true) →
  detect_orientation E g = Raise e →
  fix_orientation E self w =
    (Raise e, add_calls [CallDetectOrientation (page_pk g)] (oriented E pre w)).
Proof.
  intros Hpages Hpre Hg. unfold fix_orientation. rewrite bind_run.
  change (pages_all self w) with (Ok (pages_of self w), w). cbn iota beta.
  rewrite Hpages, for_each_app, for_each_fix_orientation by done.
  cbn [for_each]. by rewrite bind_run, fix_orientation_page_run, Hg.
Qed.

Lemma detect_call_of_page E (l : list DocumentPage) k :
  CallDetectOrientation k ∈ l ≫= orientation_calls E → k ∈ page_pk <$> l.
Proof.
  intros (g & Hcall & Hg)%list_elem_of_bind.
  apply list_elem_of_fmap. exists g. split; [|done].
  unfold orientation_calls in Hcall.
  apply elem_of_cons in Hcall as [[= ->]|Hadd]; [done|].
  apply list_elem_of_fmap in Hadd as (t & Habs & _). discriminate.
Qed.

(** C3, as the code has it.  [fix_orientation] takes the pages of the
    version in the order of their numbers.  When the detection raises for a
    page, [fix_orientation] raises that error at once: the pages before it
    were checked and got their rotation, and no page after it is checked. *)
Theorem fix_orientation_stops_at_first_failure (E : Env)
    (self : DocumentVersion) (w : World)
    (pre : list DocumentPage) (g : DocumentPage) (post : list DocumentPage)
    (e : Exn) :
  pages_of self w = pre ++ g :: post →
  (∀ x, x ∈ pre → is_ok (detect_orientation E x) = true) →
  detect_orientation E g = Raise e →
  ∃ w', fix_orientation E self w = (Raise e, w') ∧
    calls_of (fix_orientation E self) w =
      (pre ≫= orientation_calls E) ++ [CallDetectOrientation (page_pk g)] ∧
    transformations (db w') =
      transformations (db w) ++ (pre ≫= orientation_rotations E) ∧
    (∀ x, x ∈ post →
       CallDetectOrientation (page_pk x) ∉ calls_of (fix_orientation E self) w).
Proof.
  intros Hpages Hpre Hg.
  assert (calls_of (fix_orientation E self) w =
            (pre ≫= orientation_calls E) ++ [CallDetectOrientation (page_pk g)])
    as Hcalls.
  { apply calls_of_app.
    rewrite (fix_orientation_run_fault E self w pre g post e) by done. cbn.
    by rewrite <- app_assoc. }
  eexists. split; [by eapply fix_orientation_run_fault|].
  split; [done|]. split; [done|].
  intros x Hx. rewrite Hcalls. intros Hin.
  pose proof (page_pk_NoDup self w) as Hnd.
  rewrite Hpages in Hnd.
  change (pre ++ g :: post) with (pre ++ [g] ++ post) in Hnd.
  rewrite app_assoc, fmap_app in Hnd.
  apply NoDup_app in Hnd as (_ & Hdisj & _).
  apply (Hdisj (page_pk x)); [|by apply list_elem_of_fmap_2].
  rewrite fmap_app. apply elem_of_app in Hin as [Hin|Hin].
  - apply elem_of_app. left. by eapply detect_call_of_page.
  - apply elem_of_app. right. apply list_elem_of_singleton in Hin as [= ->].
    by left.
Qed.

Lemma fix_orientation_stops_at_first_failure_witness :
  ∃ w', fix_orientation unreadable_page_env stored_version paged_world
          = (Raise (OtherError "ocr"), w') ∧
        transformations (db w') = [] ∧
        CallDetectOrientation 2 ∉
          calls_of (fix_orientation unreadable_page_env stored_version) paged_world.
Proof.
  destruct (fix_orientation_stops_at_first_failure unreadable_page_env
              stored_version paged_world [] (mkDocumentPage 1 1 1)
              [mkDocumentPage 2 1 2] (OtherError "ocr"))
    as (w' & Hrun & _ & Hrot & Hlater).
  - reflexivity.
  - intros x Hx. by apply elem_of_nil in Hx.
  - reflexivity.
  - exists w'. split; [exact Hrun|]. split; [exact Hrot|].
    apply (Hlater (mkDocumentPage 2 1 2)). left.
Defined.

(** Against C3 as section 4.5 words it: the detection raises for the first
    of two pages; [fix_orientation] raises, the second page is never
    checked, and the [save] of an upload with that first page raises and
    leaves no version. *)
Lemma fix_orientation_is_not_best_effort :
  ¬ fix_orientation_is_best_effort unreadable_page_env stored_version paged_world ∧
  (fix_orientation unreadable_page_env stored_version paged_world).1
    = Raise (OtherError "ocr") ∧
  (CallDetectOrientation 2 ∉
     calls_of (fix_orientation unreadable_page_env stored_version) paged_world) ∧
  (save unreadable_page_env None new_version empty_world).1
    = Raise (OtherError "ocr") ∧
  versions (db (save unreadable_page_env None new_version empty_world).2) = ∅.
Proof.
  split; [|split; [|split; [|split]]].
  - intros [Hok _]. vm_compute in Hok. discriminate.
  - reflexivity.
  - vm_compute. intros Hin. apply list_elem_of_singleton in Hin. discriminate.
  - vm_compute. reflexivity.
  - vm_compute. reflexivity.
Qed.

(** ** [revert] *)

Lemma elem_of_version_rows v w :
  v ∈ version_rows w ↔
  ∃ k row, versions (db w) !! k = Some row ∧ v = set_pk (Some k) row.
Proof.
  unfold version_rows. rewrite list_elem_of_fmap. split.
  - intros [[k row] [-> Hin]]. apply elem_of_map_to_list in Hin. by exists k, row.
  - intros (k & row & Hrow & ->). exists (k, row). split; [done|].
    by apply elem_of_map_to_list.
Qed.

Lemma for_each_page_delete_versions E l w :
  versions (db (for_each l (page_delete E) w).2) = versions (db w).
Proof.
  revert w. induction l as [|g l IH]; intros w; [done|].
  cbn [for_each]. rewrite bind_run, page_delete_run.
  destruct (page_delete_fault E g); [done|]. by rewrite IH.
Qed.

(** Whatever happens, [delete] takes no row of another version. *)
Lemma delete_other_versions E v w k :
  Some k ≠ pk v →
  versions (db (delete E v w).2) !! k = versions (db w) !! k.
Proof.
  intros Hne. unfold delete. rewrite bind_run.
  change (pages_all v w) with (Ok (pages_of v w), w). cbn iota beta.
  rewrite bind_run.
  pose proof (for_each_page_delete_versions E (pages_of v w) w) as Hloop.
  destruct (for_each (pages_of v w) (page_delete E) w) as [[[]|e] w1];
    cbn in Hloop; [|cbn; by rewrite Hloop].
  unfold super_delete, storage_delete, called, modify.
  destruct (pk v) as [p|]; rewrite ?bind_run; cbn; rewrite Hloop; [|done].
  apply lookup_delete_ne. congruence.
Qed.

Lemma for_each_delete_other_versions E l w k :
  Some k ∉ pk <$> l →
  versions (db (for_each l (delete E) w).2) !! k = versions (db w) !! k.
Proof.
  revert w. induction l as [|v l IH]; intros w Hk; [done|].
  cbn [for_each]. rewrite bind_run.
  assert (Some k ≠ pk v) as Hv.
  { intros Heq. apply Hk. cbn [fmap list_fmap]. rewrite Heq. left. }
  pose proof (delete_other_versions E v w k Hv) as Hstep.
  destruct (delete E v w) as [[[]|e] w1]; cbn in Hstep; [|done].
  rewrite IH; [exact Hstep|]. intros Hin. apply Hk. by right.
Qed.

Lemma pages_of_mono v w w' g :
  pages (db w') ⊆ pages (db w) → g ∈ pages_of v w' → g ∈ pages_of v w.
Proof.
  intros Hsub [Hv [row [Hrow Hg]]%elem_of_page_rows]%elem_of_pages_of.
  apply elem_of_pages_of. split; [done|]. apply elem_of_page_rows.
  exists row. split; [|done]. by eapply lookup_weaken.
Qed.

Lemma foldl_delete_subseteq {A B} (f : B → positive) (l : list B)
    (t : gmap positive A) :
  foldl (λ t g, base.delete (f g) t) t l ⊆ t.
Proof.
  apply map_subseteq_spec. intros k x. rewrite lookup_foldl_delete.
  by destruct (decide _).
Qed.

Lemma for_each_delete_ok E l w :
  (∀ v, v ∈ l → is_Some (pk v)) →
  (∀ v g, v ∈ l → g ∈ pages_of v w → page_delete_fault E g = None) →
  ∃ w', for_each l (delete E) w = (Ok tt, w') ∧
    pages (db w') ⊆ pages (db w) ∧
    (∀ k, versions (db w') !! k =
            if decide (Some k ∈ pk <$> l) then None else versions (db w) !! k).
Proof.
  revert w. induction l as [|v l IH]; intros w Hpk Hok.
  - exists w. split; [done|]. split; [done|]. intros k.
    rewrite decide_False; [done|]. by intros ?%elem_of_nil.
  - destruct (Hpk v) as [p Hp]; [left|].
    cbn [for_each]. rewrite bind_run, (delete_run_ok E v w p);
      [|done|intros g Hg; apply (Hok v); [left|done]].
    set (w1 := with_db _ _).
    assert (pages (db w1) ⊆ pages (db w)) as Hsub by apply foldl_delete_subseteq.
    destruct (IH w1) as (w' & Hrun & Hpages & Hversions).
    { intros v' Hv'. apply Hpk. by right. }
    { intros v' g Hv' Hg. apply (Hok v'); [by right|]. by eapply pages_of_mono. }
    exists w'. split; [done|]. split; [by etrans|]. intros k.
    rewrite Hversions. cbn [fmap list_fmap]. rewrite Hp.
    destruct (decide (Some k ∈ pk <$> l)) as [Hin|Hnin].
    + rewrite decide_True; [done|]. by right.
    + destruct (decide (k = p)) as [->|Hne].
      * rewrite decide_True by left. apply lookup_delete_eq.
      * rewrite decide_False.
        -- cbn. by apply lookup_delete_ne.
        -- intros [[= ?]|?]%elem_of_cons; done.
Qed.

(** The versions [revert] deletes are the rows that are later. *)
Lemma later_versions_spec self w k :
  Some k ∈ pk <$> merge_sort timestamp_le
    (filter (λ v, document_id v = document_id self ∧ timestamp self < timestamp v)
       (version_rows w)) ↔
  ∃ row, versions (db w) !! k = Some row ∧ is_later self row.
Proof.
  rewrite merge_sort_Permutation, list_elem_of_fmap. split.
  - intros (v & Hk & [Hlater (k' & row & Hrow & ->)%elem_of_version_rows]%list_elem_of_filter).
    cbn in Hk. injection Hk as ->. by exists row.
  - intros (row & Hrow & Hlater). exists (set_pk (Some k) row). split; [done|].
    apply list_elem_of_filter. split; [done|].
    apply elem_of_version_rows. by exists k, row.
Qed.

(** [revert] names the document first: without its row nothing is done. *)
Lemma revert_missing E self _user w :
  documents (db w) !! document_id self = None →
  revert E self _user w = (Raise DoesNotExist, w).
Proof.
  intros Hdoc. unfold revert. rewrite bind_run. unfold get_document.
  by rewrite Hdoc.
Qed.

Lemma revert_run E self _user w :
  is_Some (documents (db w) !! document_id self) →
  revert E self _user w =
  let w0 :=
    add_event (event_document_version_revert _user (document_id self))
      (add_log (LogInfo "Reverting to document document: %s to version: %s"
                  (document_id self)) w) in
  for_each
    (merge_sort timestamp_le
       (filter (λ v, document_id v = document_id self ∧ timestamp self < timestamp v)
          (version_rows w0)))
    (delete E) w0.
Proof.
  intros [d Hdoc]. unfold revert. rewrite bind_run. unfold get_document.
  by rewrite Hdoc.
Qed.

(** C4: [revert] never deletes a version that is not later than [self] (one
    of another document, or one whose timestamp is at most the timestamp
    of [self], [self] included), whether it returns or raises.  When the
    document of [self] is in the table and no deletion of a page of a later
    version fails, [revert] returns, and the versions left are the ones
    that were there and are not later: it has deleted the versions of the
    document with a greater timestamp, all of them and no other.  When the
    row of the document is not there, [revert] raises [DoesNotExist] at its
    first line and does nothing. *)
Theorem revert_deletes_exactly_later_versions (E : Env)
    (self : DocumentVersion) (_user : option string) (w : World) :
  (∀ k row, versions (db w) !! k = Some row → ¬ is_later self row →
     versions (db (revert E self _user w).2) !! k = Some row) ∧
  (is_Some (documents (db w) !! document_id self) →
   (∀ g v, g ∈ page_rows w →
      versions (db w) !! document_version_id g = Some v → is_later self v →
      page_delete_fault E g = None) →
   ∃ w', revert E self _user w = (Ok tt, w') ∧
     versions (db w') = filter (λ kv, ¬ is_later self kv.2) (versions (db w)) ∧
     (∀ k row, versions (db w) !! k = Some row →
        (versions (db w') !! k = None ↔
         document_id row = document_id self ∧ timestamp self < timestamp row))) ∧
  (documents (db w) !! document_id self = None →
   revert E self _user w = (Raise DoesNotExist, w)).
Proof.
  split; [|split; [|apply revert_missing]].
  { intros k row Hrow Hnot.
    destruct (documents (db w) !! document_id self) as [d|] eqn:Hdoc;
      [|by rewrite revert_missing].
    rewrite revert_run by eauto. cbv zeta.
    set (w0 := add_event _ _).
    rewrite for_each_delete_other_versions; [done|].
    intros (row' & Hrow' & Hl)%(later_versions_spec self w0 k).
    change (versions (db w0)) with (versions (db w)) in Hrow'. congruence. }
  intros Hdocument. rewrite revert_run by done. cbv zeta.
  set (w0 := add_event _ _).
  set (later := merge_sort _ _).
  assert (∀ k, Some k ∈ pk <$> later ↔
               ∃ row, versions (db w) !! k = Some row ∧ is_later self row)
    as Hlater by (intros k; apply (later_versions_spec self w0 k)).
  - intros Hok.
    destruct (for_each_delete_ok E later w0) as (w' & Hrun & _ & Hversions).
    { intros v Hv. unfold later in Hv. rewrite merge_sort_Permutation in Hv.
      apply list_elem_of_filter in Hv as [_ (k & row & _ & ->)%elem_of_version_rows].
      by eexists. }
    { intros v g Hv [Hgv Hg]%elem_of_pages_of.
      unfold later in Hv. rewrite merge_sort_Permutation in Hv.
      apply list_elem_of_filter in Hv as [Hl (k & row & Hrow & ->)%elem_of_version_rows].
      cbn in Hgv. injection Hgv as Hgv. apply (Hok g row); [done| |done].
      by rewrite Hgv. }
    assert (∀ k row, versions (db w) !! k = Some row →
              (versions (db w') !! k = None ↔ is_later self row)) as Hexact.
    { intros k row Hrow. rewrite Hversions.
      destruct (decide (Some k ∈ pk <$> later)) as [Hin|Hnin].
      - apply Hlater in Hin as (row' & Hrow' & Hl).
        assert (row' = row) as -> by congruence. done.
      - change (versions (db w0)) with (versions (db w)). rewrite Hrow.
        split; [done|]. intros Hl. exfalso. apply Hnin, Hlater. eauto. }
    exists w'. split; [done|]. split; [|exact Hexact].
    apply map_eq. intros k.
    destruct (versions (db w) !! k) as [row|] eqn:Hrow.
    + destruct (decide (is_later self row)) as [Hl|Hnl].
      * rewrite (proj2 (Hexact k row Hrow) Hl). symmetry.
        apply map_lookup_filter_None_2. right. intros row' Hrow'.
        assert (row' = row) as -> by congruence. cbn. tauto.
      * rewrite Hversions, decide_False.
        -- change (versions (db w0)) with (versions (db w)). rewrite Hrow.
           symmetry. by apply map_lookup_filter_Some_2.
        -- intros (row' & Hrow' & Hl)%Hlater. congruence.
    + rewrite Hversions. symmetry.
      rewrite (map_lookup_filter_None_2 _ _ k) by (by left).
      destruct (decide _); [done|]. by change (versions (db w0)) with (versions (db w)).
Qed.

Lemma revert_deletes_exactly_later_versions_witness :
  ∃ w', revert plain_env (version_at 1 1 100) None history_world = (Ok tt, w') ∧
    versions (db w') =
      {[1%positive := version_at 1 1 100; 4%positive := version_at 4 2 400]}.
Proof.
  destruct (revert_deletes_exactly_later_versions plain_env (version_at 1 1 100)
              None history_world) as [_ [Hexact _]].
  destruct Hexact as (w' & Hrun & Hversions & _).
  - by eexists.
  - intros g v _ _ _. reflexivity.
  - exists w'. split; [exact Hrun|]. rewrite Hversions. vm_compute. reflexivity.
Defined.

(** ** [update_page_count] *)

Lemma Sorted_seqZ m n : Sorted Z.le (seqZ m n).
Proof.
  remember (Z.to_nat n) as k eqn:Hk. revert m n Hk.
  induction k as [|k IH]; intros m n Hk.
  - rewrite seqZ_nil by lia. constructor.
  - rewrite seqZ_cons by lia. constructor; [apply IH; lia|].
    destruct (decide (0 < Z.pred n)) as [Hpos|Hneg].
    + rewrite seqZ_cons by lia. constructor. lia.
    + rewrite seqZ_nil by lia. constructor.
Qed.

Lemma range_plus_one n : (λ page_number, page_number + 1) <$> seqZ 0 n = seqZ 1 n.
Proof.
  change (seqZ 1 n) with (seqZ (1 + 0) n).
  rewrite <- (fmap_add_seqZ 1 0 n). apply list_fmap_ext. intros _ i _. lia.
Qed.

Lemma numbers_in_page_created v n t :
  numbers_in (Some v) (page_created v n t) ≡ₚ n :: numbers_in (Some v) t.
Proof.
  unfold numbers_in, page_created.
  rewrite map_to_list_insert by (apply not_elem_of_dom, is_fresh).
  rewrite fmap_cons, filter_cons_True by done. by rewrite fmap_cons.
Qed.

Lemma numbers_in_foldl v (f : Z → Z) l t :
  numbers_in (Some v) (foldl (λ t i, page_created v (f i) t) t l)
    ≡ₚ numbers_in (Some v) t ++ (f <$> l).
Proof.
  revert t. induction l as [|i l IH]; intros t; cbn [foldl fmap list_fmap].
  - by rewrite app_nil_r.
  - rewrite IH, numbers_in_page_created. apply Permutation_middle.
Qed.

Lemma numbers_in_filter v (t : gmap positive DocumentPage) :
  numbers_in v (filter (λ kv, Some (document_version_id kv.2) ≠ v) t) = [].
Proof.
  unfold numbers_in. rewrite filter_nil_intro; [done|].
  intros g (kv & -> & Hin)%list_elem_of_fmap Hv. destruct kv as [k row].
  apply elem_of_map_to_list, map_lookup_filter_Some in Hin as [_ Hne].
  cbn in *. congruence.
Qed.

Lemma page_numbers_sorted self w :
  page_numbers self w ≡ₚ numbers_in (pk self) (pages (db w)) ∧
  Sorted Z.le (page_numbers self w).
Proof.
  unfold page_numbers, pages_of, numbers_in. split.
  - by rewrite merge_sort_Permutation.
  - apply (Sorted_fmap _ page_number_le); [done|].
    apply Sorted_merge_sort. apply _.
Qed.

(** After the block, the pages of the version are numbered 1 to [n]. *)
Lemma page_numbers_pages_replaced self v n w :
  pk self = Some v →
  page_numbers self (pages_replaced self v n w) = seqZ 1 n.
Proof.
  intros Hpk.
  destruct (page_numbers_sorted self (pages_replaced self v n w)) as [Hperm Hsorted].
  apply (Sorted_unique Z.le); [done|apply Sorted_seqZ|].
  rewrite Hperm, Hpk. cbn. rewrite Hpk.
  by rewrite numbers_in_foldl, numbers_in_filter, range_plus_one.
Qed.

Lemma lookup_foldl_page_created v (f : Z → Z) l t k g :
  document_version_id g ≠ v →
  foldl (λ t i, page_created v (f i) t) t l !! k = Some g ↔ t !! k = Some g.
Proof.
  intros Hv. revert t. induction l as [|i l IH]; intros t; [done|].
  cbn [foldl]. rewrite IH. unfold page_created.
  destruct (decide (k = fresh (dom t))) as [->|Hne].
  - rewrite lookup_insert_eq.
    pose proof (not_elem_of_dom_1 _ _ (is_fresh (dom t))) as Hnone.
    rewrite Hnone. split; [|done]. intros [= <-]. done.
  - by rewrite lookup_insert_ne.
Qed.

(** The pages of the other versions are as they were. *)
Lemma pages_replaced_other self v n w k g :
  pk self = Some v → document_version_id g ≠ v →
  pages (db (pages_replaced self v n w)) !! k = Some g ↔
  pages (db w) !! k = Some g.
Proof.
  intros Hpk Hv. cbn. rewrite lookup_foldl_page_created by done.
  rewrite map_lookup_filter_Some. cbn. rewrite Hpk. split; [tauto|].
  intros Hk. split; [done|]. congruence.
Qed.

Lemma pages_create_run E self v n w :
  pk self = Some v →
  pages_create E self n w =
  match page_create_fault E v n with
  | Some e => (Raise e, w)
  | None => (Ok tt, with_db (with_pages (page_created v n)) w)
  end.
Proof.
  intros Hpk. unfold pages_create. rewrite Hpk.
  by destruct (page_create_fault E v n).
Qed.

(** The loop that creates the pages touches the table of pages only, and
    raises only the fault of a page it creates. *)
Lemma for_each_pages_create E self v l w :
  pk self = Some v →
  (for_each l (λ page_number, pages_create E self (page_number + 1)) w =
     (Ok tt, with_db (with_pages (λ t,
        foldl (λ t page_number, page_created v (page_number + 1) t) t l)) w) ∧
   ∀ i, i ∈ l → page_create_fault E v (i + 1) = None) ∨
  (∃ e i t, i ∈ l ∧ page_create_fault E v (i + 1) = Some e ∧
     for_each l (λ page_number, pages_create E self (page_number + 1)) w =
       (Raise e, with_db (with_pages (λ _, t)) w)).
Proof.
  intros Hpk. revert w. induction l as [|i l IH]; intros w.
  - left. split; [by destruct w as [[]]|]. by intros i ?%elem_of_nil.
  - cbn [for_each]. rewrite !bind_run, !(pages_create_run E self v) by done.
    destruct (page_create_fault E v (i + 1)) as [e|] eqn:Hfault.
    + right. exists e, i, (pages (db w)). split; [left|]. split; [done|].
      by destruct w as [[]].
    + destruct (IH (with_db (with_pages (page_created v (i + 1))) w))
        as [[Hrun Hok]|(e & j & t & Hj & Hfj & Hrun)].
      * left. rewrite Hrun. split; [done|].
        intros j [->|Hj]%elem_of_cons; [done|by apply Hok].
      * right. exists e, j, t. split; [by right|]. split; [done|].
        rewrite Hrun. done.
Qed.

Lemma update_page_count_run E self save_flag w s n :
  open E self false w = (Ok s, w) →
  get_page_count E s (mimetype self) = Ok n →
  update_page_count E self save_flag w =
  (atomic (
     pages_all_delete self ;;
     for_each (seqZ 0 n) (λ page_number, pages_create E self (page_number + 1))) ;;
   self' ← (if save_flag then save E None self else mret self) ;
   mret (self', Some n)) w.
Proof.
  intros Hopen Hcount. unfold update_page_count, update_page_count_with.
  rewrite try_except_else_run, bind_run, Hopen. unfold lift. by rewrite Hcount.
Qed.

(** A saved version: the block returns when no page has a fault, and
    raises the fault of a page otherwise. *)
Lemma update_page_count_saved_version E self save_flag w v s n :
  pk self = Some v →
  open E self false w = (Ok s, w) →
  get_page_count E s (mimetype self) = Ok n →
  ((∀ i, 1 ≤ i ≤ n → page_create_fault E v i = None) ∧
   update_page_count E self save_flag w =
     (self' ← (if save_flag then save E None self else mret self) ;
      mret (self', Some n)) (pages_replaced self v n w)) ∨
  (∃ e i, 1 ≤ i ≤ n ∧ page_create_fault E v i = Some e ∧
     update_page_count E self save_flag w = (Raise e, w)).
Proof.
  intros Hpk Hopen Hcount.
  rewrite (update_page_count_run E self save_flag w s n Hopen Hcount).
  rewrite bind_run, atomic_run, bind_run. cbn [pages_all_delete modify].
  cbn iota beta.
  set (w0 := with_db (with_pages (filter _)) w).
  destruct (for_each_pages_create E self v (seqZ 0 n) w0 Hpk)
    as [[Hrun Hok]|(e & i & t & Hi & Hfault & Hrun)]; rewrite Hrun.
  - left. split; [|reflexivity].
    intros i Hi. replace i with (i - 1 + 1) by lia. apply Hok.
    apply elem_of_seqZ. lia.
  - right. exists e, (i + 1). apply elem_of_seqZ in Hi.
    split; [lia|]. split; [done|]. by destruct w as [[]].
Qed.

(** A version that was never saved has no page and can get none. *)
Lemma update_page_count_unsaved_version E self save_flag w s n :
  pk self = None →
  open E self false w = (Ok s, w) →
  get_page_count E s (mimetype self) = Ok n →
  (n ≤ 0 ∧
   update_page_count E self save_flag w =
     (self' ← (if save_flag then save E None self else mret self) ;
      mret (self', Some n)) w) ∨
  update_page_count E self save_flag w = (Raise ValueError, w).
Proof.
  intros Hpk Hopen Hcount.
  rewrite (update_page_count_run E self save_flag w s n Hopen Hcount).
  rewrite bind_run, atomic_run, bind_run. cbn [pages_all_delete modify].
  cbn iota beta.
  assert (with_db (with_pages
            (filter (λ kv, Some (document_version_id kv.2) ≠ pk self))) w = w)
    as ->.
  { destruct w as [[docs vs ps ts] st ca lg ev tr nw].
    unfold with_db, with_pages.
    cbn [db storage cache log events trace now documents versions pages
         transformations].
    rewrite map_filter_id; [done|]. intros k g _. cbn. by rewrite Hpk. }
  destruct (decide (n ≤ 0)) as [Hn|Hn].
  - left. split; [done|]. by rewrite seqZ_nil by done.
  - right. rewrite seqZ_cons by lia. cbn [for_each]. rewrite bind_run.
    unfold pages_create at 1. rewrite Hpk. by destruct w as [[]].
Qed.

Lemma page_numbers_unsaved self w : pk self = None → page_numbers self w = [].
Proof.
  intros Hpk. unfold page_numbers, pages_of. rewrite filter_nil_intro; [done|].
  intros g _. by rewrite Hpk.
Qed.

(** C7: [update_page_count] got the count [n] from the converter.  Either
    the block of the method returns: the pages of the version are then
    numbered 1, ..., [n], in this order and without a duplicate, whatever
    pages the version had before; the pages of the other versions and
    everything else are as they were; and the method goes on from that
    world (it saves the version when [save] is set, and returns [n]).  Or
    the block raises: the method raises that error and the world is the one
    it started in, with the pages the version had.  For a saved version
    whose pages can all be created, the block returns. *)
Theorem update_page_count_replaces_page_set (E : Env) (self : DocumentVersion)
    (save_flag : bool) (w : World) (s : Stream) (n : Z) :
  open E self false w = (Ok s, w) →
  get_page_count E s (mimetype self) = Ok n →
  ((∃ w1,
      page_numbers self w1 = seqZ 1 n ∧
      NoDup (page_numbers self w1) ∧
      (∀ k g, Some (document_version_id g) ≠ pk self →
         pages (db w1) !! k = Some g ↔ pages (db w) !! k = Some g) ∧
      w1 = with_db (with_pages (λ _, pages (db w1))) w ∧
      update_page_count E self save_flag w =
        (self' ← (if save_flag then save E None self else mret self) ;
         mret (self', Some n)) w1) ∨
   (∃ e, update_page_count E self save_flag w = (Raise e, w))) ∧
  (∀ v, pk self = Some v →
     (∀ i, 1 ≤ i ≤ n → page_create_fault E v i = None) →
     ∃ w1, page_numbers self w1 = seqZ 1 n ∧
       update_page_count E self save_flag w =
         (self' ← (if save_flag then save E None self else mret self) ;
          mret (self', Some n)) w1).
Proof.
  intros Hopen Hcount. split.
  - destruct (pk self) as [v|] eqn:Hpk.
    + destruct (update_page_count_saved_version E self save_flag w v s n
                  Hpk Hopen Hcount) as [[_ Hrun]|(e & i & _ & _ & Hrun)];
        [left|right; by exists e].
      exists (pages_replaced self v n w).
      split; [by apply page_numbers_pages_replaced|].
      split; [rewrite page_numbers_pages_replaced by done; apply NoDup_seqZ|].
      split; [|split; [by destruct w as [[]]|done]].
      intros k g Hg. apply pages_replaced_other; [done|congruence].
    + destruct (update_page_count_unsaved_version E self save_flag w s n
                  Hpk Hopen Hcount) as [[Hn Hrun]|Hrun];
        [left|right; by exists ValueError].
      exists w. rewrite page_numbers_unsaved, seqZ_nil by done.
      split; [done|]. split; [constructor|].
      split; [done|]. split; [by destruct w as [[]]|done].
  - intros v Hpk Hok.
    destruct (update_page_count_saved_version E self save_flag w v s n
                Hpk Hopen Hcount) as [[_ Hrun]|(e & i & Hi & Hfault & _)].
    + exists (pages_replaced self v n w).
      split; [by apply page_numbers_pages_replaced|done].
    + rewrite Hok in Hfault by done. discriminate.
Qed.

Lemma update_page_count_replaces_page_set_witness :
  ∃ w1, page_numbers stored_version w1 = [1; 2; 3] ∧
    update_page_count plain_env stored_version false paged_world
      = (Ok (stored_version, Some 3), w1).
Proof.
  destruct (update_page_count_replaces_page_set plain_env stored_version false
              paged_world [Byte.x01; Byte.x02] 3) as [_ Hreturns].
  - reflexivity.
  - reflexivity.
  - destruct (Hreturns 1%positive) as (w1 & Hnumbers & Hrun).
    + reflexivity.
    + intros i _. reflexivity.
    + exists w1. split; [exact Hnumbers|exact Hrun].
Defined.
(** ** [save] of a new version *)

(** [save] of a new version names the document for the logger first; with
    the document it logs and runs the block in a transaction. *)
Lemma save_new_missing E user self w :
  pk self = None → documents (db w) !! document_id self = None →
  save E user self w = (Raise DoesNotExist, w).
Proof.
  intros Hpk Hdoc. unfold save.
  change recursion_limit with (S (pred recursion_limit)).
  rewrite save_depth_S. unfold not_pk. rewrite Hpk. cbv zeta.
  rewrite !bind_run. cbn [self_document]. unfold get_document. by rewrite Hdoc.
Qed.

Lemma save_new_run E user self w d :
  pk self = None → documents (db w) !! document_id self = Some d →
  save E user self w =
  match atomic (new_version_transaction E d self) (creating self w) with
  | (Ok self', w1) =>
      (emit (event_document_new_version user (pk self') (document_id self')) ;;
       emit (post_version_upload (pk self')) ;;
       siblings ← document_versions_all (document_id self') ;
       (if bool_decide (pk <$> siblings = [pk self'])
        then emit (post_document_created (document_id self'))
        else mret tt) ;;
       mret self') w1
  | (Raise e, w1) => (Raise e, add_log (error_record self e) w1)
  end.
Proof.
  intros Hpk Hdoc. unfold save.
  change recursion_limit with (S (pred recursion_limit)).
  rewrite save_depth_S. unfold not_pk. rewrite Hpk. cbv zeta.
  rewrite !bind_run. cbn [self_document]. unfold get_document. rewrite Hdoc.
  rewrite bind_run. cbn [logger_info modify mret M_ret]. cbn iota beta.
  rewrite try_except_else_run.
  change (save_transaction E (save_depth E (pred recursion_limit) (Some d) None)
            (Some d) true self)
    with (new_version_transaction E d self).
  fold (creating self w).
  by destruct (atomic (new_version_transaction E d self) (creating self w))
    as [[self'|e] w1].
Qed.

(** After the block has returned, [save] only emits events and returns. *)
Lemma save_new_ok E user self w d self' w1 :
  pk self = None → documents (db w) !! document_id self = Some d →
  atomic (new_version_transaction E d self) (creating self w) = (Ok self', w1) →
  (save E user self w).1 = Ok self'.
Proof.
  intros Hpk Hdoc Hblock. rewrite (save_new_run E user self w d), Hblock by done.
  unfold emit, modify, document_versions_all, gets. rewrite !bind_run.
  by destruct (bool_decide _).
Qed.

(** C5: [save] of a new version runs its block in one transaction.  When
    the block raises (the write of the row, a post-save hook, the checksum,
    the MIME type, the second save, the count of the pages, the orientation
    or the save of the document raised and nothing caught it), [save] raises
    the same error, the tables are the ones [save] started with, so that no
    row of the version is left, and the last record of the logger is the
    error, with the document.  With the document in the table [save] raises
    in no other case, and it neither swallows the error nor runs the block
    again.  The block is not reached when the row of the document is not
    there: the first call of the logger names [self.document], and [save]
    raises [DoesNotExist] with nothing logged and nothing stored.  In every
    case a [save] that raises leaves the tables as they were. *)
Theorem save_new_version_error_rolls_back (E : Env) (user : option string)
    (self : DocumentVersion) (w : World) :
  pk self = None →
  (∀ d, documents (db w) !! document_id self = Some d →
     (∀ e w1, new_version_transaction E d self (creating self w) = (Raise e, w1) →
        save E user self w =
          (Raise e, add_log (error_record self e) (with_db (λ _, db w) w1))) ∧
     (∀ e w', save E user self w = (Raise e, w') →
        db w' = db w ∧
        last (log w') = Some (error_record self e) ∧
        ∃ w1, new_version_transaction E d self (creating self w) = (Raise e, w1))) ∧
  (documents (db w) !! document_id self = None →
     save E user self w = (Raise DoesNotExist, w)) ∧
  (∀ e w', save E user self w = (Raise e, w') → db w' = db w).
Proof.
  intros Hpk.
  assert (∀ d, documents (db w) !! document_id self = Some d →
            ∀ e w', save E user self w = (Raise e, w') →
              db w' = db w ∧
              last (log w') = Some (error_record self e) ∧
              ∃ w1, new_version_transaction E d self (creating self w)
                    = (Raise e, w1)) as Hraise.
  { intros d Hdoc e w' Hsave.
    destruct (new_version_transaction E d self (creating self w))
      as [[self'|e'] w1] eqn:Hblock.
    + pose proof (save_new_ok E user self w d self' w1 Hpk Hdoc) as Hok.
      rewrite atomic_run, Hblock, Hsave in Hok. by specialize (Hok eq_refl).
    + rewrite (save_new_run E user self w d), atomic_run, Hblock in Hsave by done.
      injection Hsave as -> <-. split; [done|]. split; [|by eexists].
      cbn. by rewrite last_snoc. }
  split; [|split].
  - intros d Hdoc. split; [|by apply Hraise].
    intros e w1 Hblock.
    by rewrite (save_new_run E user self w d), atomic_run, Hblock.
  - by apply save_new_missing.
  - intros e w' Hsave.
    destruct (documents (db w) !! document_id self) as [d|] eqn:Hdoc.
    + by destruct (Hraise d eq_refl e w' Hsave).
    + rewrite save_new_missing in Hsave by done. by injection Hsave as _ <-.
Qed.

(** The write of the row is the first step of the block: its fault is the
    error of the block. *)
Lemma new_version_transaction_persistence_fault E d self w e :
  super_save_fault E self = Some e →
  (new_version_transaction E d self w).1 = Raise e.
Proof.
  intros Hfault. unfold new_version_transaction, save_transaction.
  rewrite bind_run. unfold super_save. rewrite bind_run, Hfault.
  by destruct (upload self).
Qed.

(** The post-save hooks are the second step: when one raises, the block
    raises. *)
Lemma new_version_transaction_hook_fault E d self w self1 w1 e w2 :
  super_save E self w = (Ok self1, w1) →
  run_post_save_hooks E (sorted (_post_save_hooks E)) self1 w1 = (Raise e, w2) →
  new_version_transaction E d self w = (Raise e, w2).
Proof.
  intros Hsave Hhooks. unfold new_version_transaction, save_transaction.
  by rewrite bind_run, Hsave, bind_run, Hhooks.
Qed.

(** The checksum is the third step. *)
Lemma new_version_transaction_checksum_fault E d self w self1 w1 w2 e w3 :
  super_save E self w = (Ok self1, w1) →
  run_post_save_hooks E (sorted (_post_save_hooks E)) self1 w1 = (Ok tt, w2) →
  update_checksum_with E (nested_save E d) self1 false w2 = (Raise e, w3) →
  new_version_transaction E d self w = (Raise e, w3).
Proof.
  intros Hsave Hhooks Hchecksum. unfold new_version_transaction, save_transaction.
  by rewrite bind_run, Hsave, bind_run, Hhooks, bind_run, Hchecksum.
Qed.

(** The count of the pages comes after the MIME type and the second save;
    an error of the converter that is not [PageCountError] is the error of
    the block. *)
Lemma new_version_transaction_page_count_fault E d self w
    self1 w1 w2 self2 w3 self3 w4 self4 w5 e w6 :
  super_save E self w = (Ok self1, w1) →
  run_post_save_hooks E (sorted (_post_save_hooks E)) self1 w1 = (Ok tt, w2) →
  update_checksum_with E (nested_save E d) self1 false w2 = (Ok self2, w3) →
  update_mimetype_with E (nested_save E d) self2 false w3 = (Ok self3, w4) →
  nested_save E d self3 w4 = (Ok self4, w5) →
  update_page_count_with E (nested_save E d) self4 false w5 = (Raise e, w6) →
  new_version_transaction E d self w = (Raise e, w6).
Proof.
  intros Hsave Hhooks Hchecksum Hmimetype Hnested Hcount.
  unfold new_version_transaction, save_transaction.
  by rewrite bind_run, Hsave, bind_run, Hhooks, bind_run, Hchecksum,
    bind_run, Hmimetype, bind_run, Hnested, bind_run, Hcount.
Qed.

Lemma save_new_version_error_rolls_back_witness :
  (∃ w', save failing_database_env None new_version empty_world
           = (Raise (OtherError "integrity"), w') ∧
         db w' = db empty_world) ∧
  (∃ w', save failing_hook_env None new_version empty_world
           = (Raise (OtherError "hook"), w') ∧
         db w' = db empty_world) ∧
  (∃ w', save failing_converter_env None new_version empty_world
           = (Raise (OtherError "converter"), w') ∧
         db w' = db empty_world) ∧
  save plain_env None orphan_version empty_world
    = (Raise DoesNotExist, empty_world).
Proof.
  destruct (save_new_version_error_rolls_back failing_database_env None
              new_version empty_world eq_refl) as [Hdatabase _].
  destruct (save_new_version_error_rolls_back failing_hook_env None
              new_version empty_world eq_refl) as [Hhook _].
  destruct (save_new_version_error_rolls_back failing_converter_env None
              new_version empty_world eq_refl) as [Hconverter _].
  destruct (save_new_version_error_rolls_back plain_env None
              orphan_version empty_world eq_refl) as (_ & Hmissing & _).
  destruct (Hdatabase sample_document eq_refl) as [Hdatabase' _].
  destruct (Hhook sample_document eq_refl) as [Hhook' _].
  destruct (Hconverter sample_document eq_refl) as [Hconverter' _].
  split; [|split; [|split]].
  - eexists. split; [apply Hdatabase'; vm_compute; reflexivity|reflexivity].
  - eexists. split; [apply Hhook'; vm_compute; reflexivity|reflexivity].
  - eexists. split; [apply Hconverter'; vm_compute; reflexivity|reflexivity].
  - apply Hmissing. reflexivity.
Defined.

(** * More properties *)

(** ** [open] and the registry of pre-open hooks *)

Lemma open_hook_chain E self w :
  open E self false w =
  (stream ← storage_open (file self) ;
   lift (hook_chain (registered_hooks E).*2 stream self)) w.
Proof.
  unfold open. rewrite !bind_run.
  destruct (storage_open (file self) w) as [[s|e] w']; [|done].
  unfold lift. f_equal.
  rewrite apply_pre_open_hooks_chain by (intros k; apply sorted_elem_of).
  unfold registered_hooks. by rewrite <- list_fmap_compose.
Qed.

Lemma hook_chain_app hooks1 hooks2 stream self :
  hook_chain (hooks1 ++ hooks2) stream self =
  match hook_chain hooks1 stream self with
  | Ok stream' => hook_chain hooks2 stream' self
  | Raise e => Raise e
  end.
Proof.
  revert stream. induction hooks1 as [|h hooks1 IH]; intros stream; [done|].
  cbn [app hook_chain]. destruct (h stream self); [apply IH|done].
Qed.

(** X1: [open] raises [IOError] when the file is not in the storage, raw
    or not.  When a pre-open hook raises, [open] raises that error: the
    hooks with a smaller key have run, the ones with a greater key have no
    say.  In both cases the world is unchanged. *)
Theorem open_raises_without_binary_or_with_failing_hook (E : Env)
    (self : DocumentVersion) (w : World) :
  (storage w !! file self = None →
   ∀ raw, open E self raw w = (Raise IOError, w)) ∧
  (∀ content before k hook after stream e,
     storage w !! file self = Some content →
     registered_hooks E = before ++ (k, hook) :: after →
     hook_chain before.*2 content self = Ok stream →
     hook stream self = Raise e →
     open E self false w = (Raise e, w)).
Proof.
  split.
  - intros Hnone raw. unfold open, storage_open.
    destruct raw; rewrite ?bind_run, Hnone; done.
  - intros content before k hook after stream e Hsome Hreg Hbefore Hhook.
    rewrite open_hook_chain, bind_run. unfold storage_open. rewrite Hsome.
    unfold lift. f_equal.
    rewrite Hreg, fmap_app, hook_chain_app, Hbefore. cbn. by rewrite Hhook.
Qed.

Lemma open_raises_without_binary_or_with_failing_hook_witness :
  open plain_env stored_version false lost_world = (Raise IOError, lost_world) ∧
  open broken_hook_env stored_version false stored_world
    = (Raise (OtherError "cipher"), stored_world).
Proof.
  destruct (open_raises_without_binary_or_with_failing_hook plain_env
              stored_version lost_world) as [Hmissing _].
  destruct (open_raises_without_binary_or_with_failing_hook broken_hook_env
              stored_version stored_world) as [_ Hhook].
  split.
  - apply Hmissing. reflexivity.
  - apply (Hhook [Byte.x01; Byte.x02] [(10, append_byte Byte.x10)] 20
             (λ _ _, Raise (OtherError "cipher")) [(30, append_byte Byte.x30)]
             [Byte.x01; Byte.x02; Byte.x10]); reflexivity.
Defined.

(** The keys of a registry after a registration under a key greater than,
    or smaller than, every key. *)
Lemma sorted_insert_last {V} (d : gmap Z V) k v :
  (∀ k', is_Some (d !! k') → k' < k) →
  sorted (<[k := v]> d) = sorted d ++ [k].
Proof.
  intros Hlast.
  assert (d !! k = None) as Hnone.
  { destruct (d !! k) eqn:Hk; [|done]. specialize (Hlast k). rewrite Hk in Hlast.
    specialize (Hlast ltac:(eauto)). lia. }
  apply (StronglySorted_unique Z.le).
  - apply Sorted_StronglySorted; [apply _|]. unfold sorted.
    apply Sorted_merge_sort. apply _.
  - apply StronglySorted_app_2.
    + intros x1 x2 Hx1%sorted_elem_of Hx2%list_elem_of_singleton. subst x2.
      specialize (Hlast x1 Hx1). lia.
    + apply Sorted_StronglySorted; [apply _|]. unfold sorted.
      apply Sorted_merge_sort. apply _.
    + repeat constructor.
  - unfold sorted. rewrite !merge_sort_Permutation.
    rewrite map_to_list_insert by done. cbn.
    by rewrite <- Permutation_cons_append.
Qed.

Lemma sorted_insert_first {V} (d : gmap Z V) k v :
  (∀ k', is_Some (d !! k') → k < k') →
  sorted (<[k := v]> d) = k :: sorted d.
Proof.
  intros Hfirst.
  assert (d !! k = None) as Hnone.
  { destruct (d !! k) eqn:Hk; [|done]. specialize (Hfirst k). rewrite Hk in Hfirst.
    specialize (Hfirst ltac:(eauto)). lia. }
  apply (StronglySorted_unique Z.le).
  - apply Sorted_StronglySorted; [apply _|]. unfold sorted.
    apply Sorted_merge_sort. apply _.
  - constructor.
    + apply Sorted_StronglySorted; [apply _|]. unfold sorted.
      apply Sorted_merge_sort. apply _.
    + apply Forall_forall. intros x Hx%sorted_elem_of.
      specialize (Hfirst x Hx). lia.
  - unfold sorted. rewrite !merge_sort_Permutation.
    by rewrite map_to_list_insert by done.
Qed.

Lemma apply_pre_open_hooks_register E k hook keys result self :
  k ∉ keys →
  apply_pre_open_hooks (register_pre_open_hook k hook E) keys result self =
  apply_pre_open_hooks E keys result self.
Proof.
  revert result. induction keys as [|k' keys IH]; intros result Hk; [done|].
  apply not_elem_of_cons in Hk as [Hne Hk].
  cbn [apply_pre_open_hooks register_pre_open_hook _pre_open_hooks].
  rewrite (lookup_insert_ne _ k k' hook Hne).
  destruct (_pre_open_hooks E !! k') as [h|]; [|done].
  destruct (h result self); [by apply IH|done].
Qed.

Lemma apply_pre_open_hooks_app E keys1 keys2 result self :
  apply_pre_open_hooks E (keys1 ++ keys2) result self =
  match apply_pre_open_hooks E keys1 result self with
  | Ok result' => apply_pre_open_hooks E keys2 result' self
  | Raise e => Raise e
  end.
Proof.
  revert result. induction keys1 as [|k keys1 IH]; intros result; [done|].
  cbn [app apply_pre_open_hooks].
  destruct (_pre_open_hooks E !! k) as [h|]; [|done].
  destruct (h result self); [apply IH|done].
Qed.

Lemma open_not_raw_run E self w :
  open E self false w =
  match storage w !! file self with
  | Some content =>
      (apply_pre_open_hooks E (sorted (_pre_open_hooks E)) content self, w)
  | None => (Raise IOError, w)
  end.
Proof.
  unfold open, storage_open. rewrite bind_run.
  by destruct (storage w !! file self).
Qed.

(** X2: a hook registered under a key greater than every key of the
    registry runs last: [open] gives it the stream that [open] returned
    before the registration.  A hook registered under a key smaller than
    every key runs first, on the stream of the storage, and the other hooks
    get its stream. *)
Theorem open_after_register_pre_open_hook (E : Env) (k : Z) (hook : PreOpenHook)
    (self : DocumentVersion) (w : World) :
  ((∀ k', is_Some (_pre_open_hooks E !! k') → k' < k) →
   open (register_pre_open_hook k hook E) self false w =
     (stream ← open E self false ; lift (hook stream self)) w) ∧
  ((∀ k', is_Some (_pre_open_hooks E !! k') → k < k') →
   open (register_pre_open_hook k hook E) self false w =
     (content ← storage_open (file self) ;
      stream ← lift (hook content self) ;
      lift (apply_pre_open_hooks E (sorted (_pre_open_hooks E)) stream self)) w).
Proof.
  split; intros Hkeys; rewrite !bind_run, !open_not_raw_run; unfold storage_open;
    destruct (storage w !! file self) as [content|]; try done;
    cbn [register_pre_open_hook _pre_open_hooks]; unfold lift.
  - rewrite sorted_insert_last by done.
    rewrite apply_pre_open_hooks_app, apply_pre_open_hooks_register.
    + destruct (apply_pre_open_hooks E _ content self) as [stream|e]; [|done].
      cbn [apply_pre_open_hooks register_pre_open_hook _pre_open_hooks].
      rewrite (lookup_insert_eq (_pre_open_hooks E) k hook).
      by destruct (hook stream self).
    + intros Hin%sorted_elem_of. specialize (Hkeys k Hin). lia.
  - rewrite sorted_insert_first by done.
    cbn [apply_pre_open_hooks register_pre_open_hook _pre_open_hooks].
    rewrite (lookup_insert_eq (_pre_open_hooks E) k hook).
    rewrite bind_run.
    destruct (hook content self) as [stream|e]; [|done].
    f_equal. apply (apply_pre_open_hooks_register E).
    intros Hin%sorted_elem_of. specialize (Hkeys k Hin). lia.
Qed.

Lemma open_after_register_pre_open_hook_witness :
  open (register_pre_open_hook 30 (append_byte Byte.x30) hooked_env)
    stored_version false stored_world
    = (Ok [Byte.x01; Byte.x02; Byte.x10; Byte.x20; Byte.x30], stored_world) ∧
  open (register_pre_open_hook 5 (append_byte Byte.x05) hooked_env)
    stored_version false stored_world
    = (Ok [Byte.x01; Byte.x02; Byte.x05; Byte.x10; Byte.x20], stored_world).
Proof.
  split.
  - destruct (open_after_register_pre_open_hook hooked_env 30
                (append_byte Byte.x30) stored_version stored_world) as [Hlast _].
    rewrite Hlast; [reflexivity|].
    intros k' [h Hk']. cbn in Hk'.
    apply lookup_insert_Some in Hk' as [[<- _]|[_ Hk']]; [lia|].
    apply lookup_insert_Some in Hk' as [[<- _]|[_ Hk']]; [lia|].
    by rewrite lookup_empty in Hk'.
  - destruct (open_after_register_pre_open_hook hooked_env 5
                (append_byte Byte.x05) stored_version stored_world) as [_ Hfirst].
    rewrite Hfirst; [reflexivity|].
    intros k' [h Hk']. cbn in Hk'.
    apply lookup_insert_Some in Hk' as [[<- _]|[_ Hk']]; [lia|].
    apply lookup_insert_Some in Hk' as [[<- _]|[_ Hk']]; [lia|].
    by rewrite lookup_empty in Hk'.
Defined.

(** ** [update_checksum], [update_mimetype], [update_page_count], [page_count] *)

Lemma exists_true self w content :
  storage w !! file self = Some content → exists_ self w = (Ok true, w).
Proof.
  intros Hsome. rewrite exists_run, Hsome. by rewrite bool_decide_eq_true_2 by eauto.
Qed.

Lemma update_checksum_with_run E self_save self save_flag w content :
  storage w !! file self = Some content →
  update_checksum_with E self_save self save_flag w =
  match (open E self false w).1 with
  | Ok s =>
      let self' := set_checksum (Some (document_hash_function E s)) self in
      if save_flag then self_save self' w else (Ok self', w)
  | Raise e => (Raise e, w)
  end.
Proof.
  intros Hsome. unfold update_checksum_with.
  rewrite bind_run, (exists_true self w content Hsome), bind_run.
  rewrite (open_run E self false w).
  destruct (open E self false w).1; [|done]. by destruct save_flag.
Qed.

Lemma update_mimetype_with_run E self_save self save_flag w content :
  storage w !! file self = Some content →
  update_mimetype_with E self_save self save_flag w =
  let self' :=
    match (open E self false w).1 with
    | Ok s =>
        match get_mimetype E s with
        | Ok detected => set_encoding detected.2 (set_mimetype detected.1 self)
        | Raise _ => blank self
        end
    | Raise _ => blank self
    end in
  if save_flag then self_save self' w else (Ok self', w).
Proof.
  intros Hsome. unfold update_mimetype_with.
  rewrite bind_run, (exists_true self w content Hsome), bind_run.
  unfold try_except. rewrite try_except_else_run, bind_run.
  rewrite (open_run E self false w).
  destruct (open E self false w).1 as [s|e]; cbn [fst];
    [|destruct save_flag; reflexivity].
  rewrite bind_run. unfold lift. cbv zeta.
  destruct (get_mimetype E s); destruct save_flag; reflexivity.
Qed.

(** X3: with the file in the storage, [update_checksum] hashes the stream
    that [open] returns, the one the pre-open hooks made, and assigns it to
    [checksum]; without a hook that is the hash of the binary.  With
    [save=False] the world is unchanged, with [save=True] the object is
    saved next.  An error of [open] is not caught, unlike in
    [update_mimetype]: the method raises it, for either value of [save],
    and saves nothing. *)
Theorem update_checksum_hashes_opened_stream (E : Env) (self : DocumentVersion)
    (w : World) (content : Stream) :
  storage w !! file self = Some content →
  (∀ s, open E self false w = (Ok s, w) →
     update_checksum E self false w =
       (Ok (set_checksum (Some (document_hash_function E s)) self), w) ∧
     update_checksum E self true w =
       save E None (set_checksum (Some (document_hash_function E s)) self) w) ∧
  (∀ e save_flag, open E self false w = (Raise e, w) →
     update_checksum E self save_flag w = (Raise e, w)) ∧
  (_pre_open_hooks E = ∅ →
     update_checksum E self false w =
       (Ok (set_checksum (Some (document_hash_function E content)) self), w)).
Proof.
  intros Hsome. unfold update_checksum.
  split; [|split].
  - intros s Hopen.
    rewrite !(update_checksum_with_run E _ self _ w content Hsome), Hopen. done.
  - intros e save_flag Hopen.
    rewrite (update_checksum_with_run E _ self _ w content Hsome), Hopen. done.
  - intros Hhooks.
    rewrite (update_checksum_with_run E _ self _ w content Hsome).
    rewrite open_not_raw_run, Hsome, Hhooks, sorted_empty. done.
Qed.

Lemma update_checksum_hashes_opened_stream_witness :
  update_checksum plain_env stored_version false stored_world
    = (Ok (set_checksum (Some "c0ffee") stored_version), stored_world) ∧
  update_checksum broken_hook_env stored_version true stored_world
    = (Raise (OtherError "cipher"), stored_world).
Proof.
  destruct (update_checksum_hashes_opened_stream plain_env stored_version
              stored_world [Byte.x01; Byte.x02] eq_refl) as (_ & _ & Hplain).
  destruct (update_checksum_hashes_opened_stream broken_hook_env stored_version
              stored_world [Byte.x01; Byte.x02] eq_refl) as (_ & Hraise & _).
  split.
  - apply Hplain. reflexivity.
  - apply Hraise. reflexivity.
Defined.

(** X4: when what [open] returns does not depend on the metadata of the
    version (as without pre-open hooks), computing the checksum and the
    MIME type with [save=False] can be done in either order and any number
    of times: the object is the same and the world is unchanged. *)
Theorem update_checksum_update_mimetype_commute (E : Env)
    (self : DocumentVersion) (w : World) :
  (∀ v, file v = file self → open E v false w = open E self false w) →
  (v ← update_checksum E self false ; update_mimetype E v false) w =
    (v ← update_mimetype E self false ; update_checksum E v false) w ∧
  (v ← update_checksum E self false ; update_checksum E v false) w =
    update_checksum E self false w ∧
  (v ← update_mimetype E self false ; update_mimetype E v false) w =
    update_mimetype E self false w ∧
  (update_checksum E self false w).2 = w ∧
  (update_mimetype E self false w).2 = w.
Proof.
  intros Hopen. unfold update_checksum, update_mimetype.
  destruct (storage w !! file self) as [content|] eqn:Hfile.
  - assert (∀ v, file v = file self →
              update_checksum_with E (save E None) v false w =
              match (open E self false w).1 with
              | Ok s => (Ok (set_checksum (Some (document_hash_function E s)) v), w)
              | Raise e => (Raise e, w)
              end) as Hchecksum.
    { intros v Hv. rewrite (update_checksum_with_run E _ v false w content)
        by (by rewrite Hv). by rewrite (Hopen v Hv). }
    assert (∀ v, file v = file self →
              update_mimetype_with E (save E None) v false w =
              (Ok match (open E self false w).1 with
                  | Ok s =>
                      match get_mimetype E s with
                      | Ok detected =>
                          set_encoding detected.2 (set_mimetype detected.1 v)
                      | Raise _ => blank v
                      end
                  | Raise _ => blank v
                  end, w)) as Hmimetype.
    { intros v Hv. rewrite (update_mimetype_with_run E _ v false w content)
        by (by rewrite Hv). by rewrite (Hopen v Hv). }
    rewrite !bind_run, !(Hchecksum self eq_refl), !(Hmimetype self eq_refl).
    destruct (open E self false w).1 as [s|e] eqn:Hs; cbn [fst snd].
    + rewrite !Hmimetype, !Hchecksum by (by destruct (get_mimetype E s)).
      destruct (get_mimetype E s); repeat split; reflexivity.
    + rewrite !Hmimetype, !Hchecksum by done. repeat split; reflexivity.
  - assert (∀ v, file v = file self →
              update_checksum_with E (save E None) v false w = (Ok v, w) ∧
              update_mimetype_with E (save E None) v false w = (Ok v, w)) as Hnoop.
    { intros v Hv. unfold update_checksum_with, update_mimetype_with.
      rewrite !bind_run, exists_run, Hv, Hfile.
      by rewrite bool_decide_eq_false_2 by (intros [? ?]; discriminate). }
    rewrite !bind_run.
    destruct (Hnoop self eq_refl) as [-> ->]. cbn [fst snd].
    by destruct (Hnoop self eq_refl) as [-> ->].
Qed.

Lemma update_checksum_update_mimetype_commute_witness :
  (v ← update_checksum plain_env new_version false ;
   update_mimetype plain_env v false)
    (with_storage (<["file-1" := [Byte.x01]]>) empty_world) =
  (v ← update_mimetype plain_env new_version false ;
   update_checksum plain_env v false)
    (with_storage (<["file-1" := [Byte.x01]]>) empty_world).
Proof.
  apply (update_checksum_update_mimetype_commute plain_env new_version
           (with_storage (<["file-1" := [Byte.x01]]>) empty_world)).
  intros v Hv. rewrite !open_not_raw_run, Hv. reflexivity.
Defined.

(** X5: [update_page_count] has no [exists()] guard and catches only
    [PageCountError].  When the file is not in the storage it raises
    [IOError], where [update_checksum] and [update_mimetype] return; and
    any other error of the converter is raised.  In both cases the world,
    with the pages of the version, is unchanged, and nothing is saved. *)
Theorem update_page_count_raises_other_errors (E : Env) (self : DocumentVersion)
    (save_flag : bool) (w : World) :
  (storage w !! file self = None →
   update_page_count E self save_flag w = (Raise IOError, w)) ∧
  (∀ s e, open E self false w = (Ok s, w) →
     get_page_count E s (mimetype self) = Raise e → e ≠ PageCountError →
     update_page_count E self save_flag w = (Raise e, w)).
Proof.
  unfold update_page_count, update_page_count_with. split.
  - intros Hnone. rewrite try_except_else_run, bind_run, open_not_raw_run, Hnone.
    done.
  - intros s e Hopen Hcount Hne.
    rewrite try_except_else_run, bind_run, Hopen. unfold lift. rewrite Hcount.
    by destruct e.
Qed.

Lemma update_page_count_raises_other_errors_witness :
  update_page_count plain_env stored_version true lost_world
    = (Raise IOError, lost_world) ∧
  update_page_count failing_converter_env stored_version true paged_world
    = (Raise (OtherError "converter"), paged_world).
Proof.
  destruct (update_page_count_raises_other_errors plain_env stored_version true
              lost_world) as [Hmissing _].
  destruct (update_page_count_raises_other_errors failing_converter_env
              stored_version true paged_world) as [_ Hconverter].
  split.
  - apply Hmissing. reflexivity.
  - apply (Hconverter [Byte.x01; Byte.x02]); [reflexivity|reflexivity|discriminate].
Defined.

(** X6: after [update_page_count] has replaced the pages of a saved version
    for a detected count [n], [page_count] is [n], and 0 when [n] is
    negative: a count of zero or less leaves the version without a page,
    while the method still returns [n] itself. *)
Theorem page_count_after_update_page_count (E : Env) (self : DocumentVersion)
    (w : World) (v : positive) (s : Stream) (n : Z) :
  pk self = Some v →
  open E self false w = (Ok s, w) →
  get_page_count E s (mimetype self) = Ok n →
  (∀ i, 1 ≤ i ≤ n → page_create_fault E v i = None) →
  ∃ w1, update_page_count E self false w = (Ok (self, Some n), w1) ∧
        page_count self w1 = (Ok (Z.max 0 n), w1) ∧
        (n ≤ 0 → pages_of self w1 = []).
Proof.
  intros Hpk Hopen Hcount Hok.
  destruct (update_page_count_saved_version E self false w v s n Hpk Hopen Hcount)
    as [[_ Hrun]|(e & i & Hi & Hfault & _)].
  - exists (pages_replaced self v n w). split; [done|].
    pose proof (page_numbers_pages_replaced self v n w Hpk) as Hnumbers.
    assert (length (pages_of self (pages_replaced self v n w)) = Z.to_nat n)
      as Hlen.
    { rewrite <- (length_seqZ 1 n), <- Hnumbers. unfold page_numbers.
      by rewrite length_fmap. }
    split.
    + unfold page_count, gets. rewrite Hlen. do 2 f_equal. lia.
    + intros Hn. apply length_zero_iff_nil. rewrite Hlen. lia.
  - rewrite Hok in Hfault by done. discriminate.
Qed.

Lemma page_count_after_update_page_count_witness :
  ∃ w1, update_page_count plain_env stored_version false paged_world
          = (Ok (stored_version, Some 3), w1) ∧
        page_count stored_version w1 = (Ok 3, w1).
Proof.
  destruct (page_count_after_update_page_count plain_env stored_version
              paged_world 1%positive [Byte.x01; Byte.x02] 3)
    as (w1 & Hrun & Hcount & _).
  - reflexivity.
  - reflexivity.
  - reflexivity.
  - intros i _. reflexivity.
  - exists w1. split; [exact Hrun|exact Hcount].
Defined.

(** ** The cache partition and [get_intermidiate_file] *)

Lemma cache_partition_ok self w d :
  documents (db w) !! document_id self = Some d →
  cache_partition self w =
    (Ok (partition_name d self), with_partition (partition_name d self) w).
Proof.
  intros Hd. unfold cache_partition, uuid. rewrite !bind_run.
  unfold get_document. rewrite Hd. cbn [mret M_ret].
  unfold partitions_get_or_create, with_partition, partition_name.
  by destruct (cache w !! _).
Qed.

Lemma cached_with_partition partition w p f :
  cached (with_partition partition w) p f = cached w p f.
Proof.
  unfold with_partition, cached.
  destruct (cache w !! partition) eqn:Hpart; [done|]. cbn [with_cache cache].
  destruct (decide (p = partition)) as [->|Hne].
  - by rewrite lookup_insert_eq, Hpart.
  - by rewrite lookup_insert_ne.
Qed.

Lemma get_intermidiate_file_hit E self w d content :
  documents (db w) !! document_id self = Some d →
  cached w (partition_name d self) "intermediate_file" = Some content →
  get_intermidiate_file E self w =
    (Ok content, add_log (LogDebug "Intermidiate file found.") w).
Proof.
  intros Hd Hhit. unfold get_intermidiate_file.
  rewrite bind_run, (cache_partition_ok self w d Hd).
  assert (with_partition (partition_name d self) w = w) as ->.
  { unfold with_partition. unfold cached in Hhit.
    by destruct (cache w !! partition_name d self). }
  rewrite bind_run. unfold partition_get_file, gets.
  change (cache w !! partition_name d self ≫= (.!! "intermediate_file"))
    with (cached w (partition_name d self) "intermediate_file").
  by rewrite Hhit.
Qed.

(** The world after a conversion was cached. *)
Lemma get_intermidiate_file_miss E self w d s chunks :
  documents (db w) !! document_id self = Some d →
  cached w (partition_name d self) "intermediate_file" = None →
  open E self false w = (Ok s, w) →
  to_pdf E s = Ok chunks →
  ∃ w', get_intermidiate_file E self w = (Ok (concat chunks), w') ∧
    cached w' (partition_name d self) "intermediate_file" = Some (concat chunks) ∧
    (∀ p f, (p, f) ≠ (partition_name d self, "intermediate_file") →
       cached w' p f = cached w p f) ∧
    storage w' = storage w ∧ db w' = db w.
Proof.
  intros Hd Hmiss Hopen Hpdf. unfold get_intermidiate_file.
  rewrite bind_run, (cache_partition_ok self w d Hd).
  set (name := partition_name d self) in *.
  set (w1 := with_partition name w).
  assert (storage w1 = storage w ∧ db w1 = db w) as [Hst Hdb].
  { unfold w1, with_partition. by destruct (cache w !! name). }
  rewrite bind_run. unfold partition_get_file at 1. unfold gets.
  change (cache w1 !! name ≫= (.!! "intermediate_file"))
    with (cached w1 name "intermediate_file").
  pose proof (cached_with_partition name w name "intermediate_file") as Hmiss1.
  fold w1 in Hmiss1. rewrite Hmiss1, Hmiss.
  rewrite bind_run. unfold try_except.
  set (w2 := add_log (LogDebug "Intermidiate file not found.") w1).
  change (logger_debug "Intermidiate file not found." w1) with (Ok tt, w2).
  cbn iota beta.
  assert (open E self false w2 = (Ok s, w2)) as Hopen2.
  { rewrite (open_run E self false w2).
    rewrite (open_storage E self false w2 w) by done. by rewrite Hopen. }
  rewrite try_except_else_run, bind_run, Hopen2, bind_run. unfold lift.
  rewrite Hpdf, bind_run. unfold partition_create_file, modify.
  set (w3 := with_cache _ w2).
  assert (∀ p f, cached w3 p f =
            if decide ((p, f) = (name, "intermediate_file"))
            then Some (concat chunks) else cached w p f) as Hcached.
  { intros p f. unfold cached, w3. cbn [with_cache cache].
    change (cache w2) with (cache w1).
    destruct (decide (p = name)) as [->|Hp].
    - rewrite lookup_insert_eq. cbn.
      destruct (decide (f = "intermediate_file")) as [->|Hf].
      + rewrite lookup_insert_eq. by rewrite decide_True.
      + rewrite lookup_insert_ne by done. rewrite decide_False by congruence.
        pose proof (cached_with_partition name w name f) as Hsame.
        unfold cached in Hsame. fold w1 in Hsame. rewrite <- Hsame.
        by destruct (cache w1 !! name).
    - rewrite lookup_insert_ne by done. rewrite decide_False by congruence.
      apply (cached_with_partition name w p f). }
  rewrite bind_run. unfold partition_get_file, gets.
  change (cache w3 !! name ≫= (.!! "intermediate_file"))
    with (cached w3 name "intermediate_file").
  rewrite Hcached, decide_True by done.
  exists w3. split; [done|]. split; [by rewrite Hcached, decide_True|].
  split; [|done].
  intros p f Hne. by rewrite Hcached, decide_False.
Qed.

(** X7: on a cache miss, when the converter makes a PDF of the stream of
    [open], [get_intermidiate_file] returns the chunks of the PDF put
    together and stores them as the artifact [intermediate_file] of the
    partition of the version; no other artifact, nor the storage, nor a
    table changes.  A second call returns the same content from the cache. *)
Theorem get_intermidiate_file_caches_conversion (E : Env)
    (self : DocumentVersion) (w : World) (d : Document) (s : Stream)
    (chunks : list Stream) :
  documents (db w) !! document_id self = Some d →
  cached w (partition_name d self) "intermediate_file" = None →
  open E self false w = (Ok s, w) →
  to_pdf E s = Ok chunks →
  ∃ w', get_intermidiate_file E self w = (Ok (concat chunks), w') ∧
    cached w' (partition_name d self) "intermediate_file" = Some (concat chunks) ∧
    (∀ p f, (p, f) ≠ (partition_name d self, "intermediate_file") →
       cached w' p f = cached w p f) ∧
    storage w' = storage w ∧ db w' = db w ∧
    (get_intermidiate_file E self w').1 = Ok (concat chunks).
Proof.
  intros Hd Hmiss Hopen Hpdf.
  destruct (get_intermidiate_file_miss E self w d s chunks Hd Hmiss Hopen Hpdf)
    as (w' & Hrun & Hcached & Hother & Hst & Hdb).
  exists w'. repeat split; try done.
  rewrite (get_intermidiate_file_hit E self w' d (concat chunks)); [done| |done].
  by rewrite Hdb.
Qed.

Lemma get_intermidiate_file_caches_conversion_witness :
  ∃ w', get_intermidiate_file plain_env stored_version stored_world
          = (Ok [Byte.x25; Byte.x50], w') ∧
        cached w' "version-d1-1" "intermediate_file" = Some [Byte.x25; Byte.x50].
Proof.
  destruct (get_intermidiate_file_caches_conversion plain_env stored_version
              stored_world sample_document [Byte.x01; Byte.x02]
              [[Byte.x25]; [Byte.x50]])
    as (w' & Hrun & Hcached & _).
  - reflexivity.
  - reflexivity.
  - reflexivity.
  - reflexivity.
  - exists w'. split; [exact Hrun|exact Hcached].
Defined.

(** X8: when the partition of the version has the artifact
    [intermediate_file], [get_intermidiate_file] returns it as it is and
    only logs: the storage is not read and the converter is not called, so
    the artifact is returned also when the binary is gone or the converter
    would fail. *)
Theorem get_intermidiate_file_serves_cached_artifact (E : Env)
    (self : DocumentVersion) (w : World) (d : Document) (content : Stream) :
  documents (db w) !! document_id self = Some d →
  cached w (partition_name d self) "intermediate_file" = Some content →
  get_intermidiate_file E self w =
    (Ok content, add_log (LogDebug "Intermidiate file found.") w) ∧
  (storage w !! file self = None →
   (open E self false w).1 = Raise IOError ∧
   (get_intermidiate_file E self w).1 = Ok content).
Proof.
  intros Hd Hhit.
  pose proof (get_intermidiate_file_hit E self w d content Hd Hhit) as Hrun.
  split; [done|]. intros Hnone. split; [|by rewrite Hrun].
  by rewrite open_not_raw_run, Hnone.
Qed.

Lemma get_intermidiate_file_serves_cached_artifact_witness :
  (get_intermidiate_file unpaginatable_env stored_version
     (with_storage (λ _, ∅) stale_world)).1 = Ok [Byte.xff].
Proof.
  destruct (get_intermidiate_file_serves_cached_artifact unpaginatable_env
              stored_version (with_storage (λ _, ∅) stale_world)
              sample_document [Byte.xff]) as [_ Hgone].
  - reflexivity.
  - reflexivity.
  - apply Hgone. reflexivity.
Defined.

(** X9: on a cache miss, an error of [open] or of the converter other than
    [InvalidOfficeFormat] is logged and raised again; no artifact is made
    and the storage is as it was. *)
Theorem get_intermidiate_file_raises_other_errors (E : Env)
    (self : DocumentVersion) (w : World) (d : Document) (e : Exn) :
  documents (db w) !! document_id self = Some d →
  cached w (partition_name d self) "intermediate_file" = None →
  e ≠ InvalidOfficeFormat →
  (open E self false w).1 = Raise e ∨
  (∃ s, (open E self false w).1 = Ok s ∧ to_pdf E s = Raise e) →
  ∃ w', get_intermidiate_file E self w = (Raise e, w') ∧
    last (log w') = Some (LogError "Error creating intermediate file; %s." None e) ∧
    (∀ p f, cached w' p f = cached w p f) ∧
    storage w' = storage w ∧ db w' = db w.
Proof.
  intros Hd Hmiss Hne Hfail. unfold get_intermidiate_file.
  rewrite bind_run, (cache_partition_ok self w d Hd).
  set (name := partition_name d self) in *.
  set (w1 := with_partition name w).
  assert (storage w1 = storage w ∧ db w1 = db w) as [Hst Hdb].
  { unfold w1, with_partition. by destruct (cache w !! name). }
  assert (∀ p f, cached w1 p f = cached w p f) as Hcached
    by (intros p f; apply cached_with_partition).
  rewrite bind_run. unfold partition_get_file at 1. unfold gets.
  change (cache w1 !! name ≫= (.!! "intermediate_file"))
    with (cached w1 name "intermediate_file").
  rewrite Hcached, Hmiss.
  rewrite bind_run. unfold try_except.
  set (w2 := add_log (LogDebug "Intermidiate file not found.") w1).
  change (logger_debug "Intermidiate file not found." w1) with (Ok tt, w2).
  cbn iota beta.
  assert ((open E self false w2).1 = (open E self false w).1) as Hopen2
    by (by apply open_storage).
  rewrite try_except_else_run, bind_run, (open_run E self false w2), Hopen2.
  exists (add_log (LogError "Error creating intermediate file; %s." None e) w2).
  assert (last (log (add_log
            (LogError "Error creating intermediate file; %s." None e) w2)) =
          Some (LogError "Error creating intermediate file; %s." None e)) as Hlast
    by (cbn; by rewrite last_snoc).
  destruct Hfail as [Hopen|(s & Hopen & Hpdf)]; rewrite Hopen.
  - split; [by destruct e|]. done.
  - rewrite bind_run. unfold lift. rewrite Hpdf.
    split; [by destruct e|]. done.
Qed.

Lemma get_intermidiate_file_raises_other_errors_witness :
  ∃ w', get_intermidiate_file plain_env stored_version lost_world
          = (Raise IOError, w') ∧
        cached w' "version-d1-1" "intermediate_file" = None.
Proof.
  destruct (get_intermidiate_file_raises_other_errors plain_env stored_version
              lost_world sample_document IOError)
    as (w' & Hrun & _ & Hcached & _).
  - reflexivity.
  - reflexivity.
  - discriminate.
  - left. reflexivity.
  - exists w'. split; [exact Hrun|]. by rewrite Hcached.
Defined.

(** ** [invalidate_cache] *)

Lemma for_each_page_invalidate_cache l w :
  for_each l page_invalidate_cache w =
    (Ok tt, add_calls (CallPageInvalidateCache ∘ page_pk <$> l) w).
Proof.
  revert w. induction l as [|g l IH]; intros w.
  - unfold add_calls. cbn. rewrite app_nil_r. by destruct w.
  - cbn [for_each]. rewrite bind_run. unfold page_invalidate_cache at 1.
    cbn [called modify]. cbn iota beta. rewrite IH.
    unfold add_calls, add_call. cbn. by rewrite <- app_assoc.
Qed.

Lemma invalidate_cache_run self w d :
  documents (db w) !! document_id self = Some d →
  invalidate_cache self w =
    (Ok tt,
     add_calls (CallPageInvalidateCache ∘ page_pk <$> pages_of self w)
       (with_cache (<[partition_name d self := ∅]>)
          (add_call (CallPartitionPurge (partition_name d self))
             (with_partition (partition_name d self) w)))).
Proof.
  intros Hd. unfold invalidate_cache.
  rewrite bind_run, (cache_partition_ok self w d Hd).
  rewrite bind_run. unfold partition_purge. rewrite bind_run.
  cbn [called modify]. cbn iota beta. rewrite bind_run.
  set (w1 := with_cache _ _).
  change (pages_all self w1) with (Ok (pages_of self w1), w1). cbn iota beta.
  rewrite for_each_page_invalidate_cache. do 3 f_equal.
  unfold w1, with_partition. by destruct (cache w !! partition_name d self).
Qed.

(** X10: [invalidate_cache] empties the cache partition of the version,
    then calls [invalidate_cache] on each page of the version, in the order
    of the page numbers.  The artifacts of the other partitions, the
    storage and the tables are as they were. *)
Theorem invalidate_cache_purges_own_partition (self : DocumentVersion)
    (w : World) (d : Document) :
  documents (db w) !! document_id self = Some d →
  ∃ w', invalidate_cache self w = (Ok tt, w') ∧
    (∀ f, cached w' (partition_name d self) f = None) ∧
    (∀ p f, p ≠ partition_name d self → cached w' p f = cached w p f) ∧
    calls_of (invalidate_cache self) w =
      CallPartitionPurge (partition_name d self) ::
      (CallPageInvalidateCache ∘ page_pk <$> pages_of self w) ∧
    storage w' = storage w ∧ db w' = db w.
Proof.
  intros Hd. eexists. split; [by apply invalidate_cache_run|].
  set (name := partition_name d self).
  assert (storage (with_partition name w) = storage w ∧
          db (with_partition name w) = db w ∧
          trace (with_partition name w) = trace w) as (Hst & Hdb & Htr).
  { unfold with_partition. by destruct (cache w !! name). }
  split; [|split; [|split; [|split]]].
  - intros f. unfold cached. cbn. by rewrite lookup_insert_eq.
  - intros p f Hp. unfold cached. cbn. rewrite lookup_insert_ne by done.
    apply (cached_with_partition name w p f).
  - apply calls_of_app. rewrite (invalidate_cache_run self w d Hd). cbn.
    fold name. rewrite Htr. by rewrite <- app_assoc.
  - cbn. exact Hst.
  - cbn. exact Hdb.
Qed.

Lemma invalidate_cache_purges_own_partition_witness :
  ∃ w', invalidate_cache stored_version stale_world = (Ok tt, w') ∧
        cached w' "version-d1-1" "intermediate_file" = None.
Proof.
  destruct (invalidate_cache_purges_own_partition stored_version stale_world
              sample_document) as (w' & Hrun & Hgone & _).
  - reflexivity.
  - exists w'. split; [exact Hrun|]. apply (Hgone "intermediate_file").
Defined.

(** X11: after [invalidate_cache], [get_intermidiate_file] converts the
    binary again: it returns the PDF the converter makes now, whatever
    artifact the partition held before. *)
Theorem get_intermidiate_file_after_invalidate_cache (E : Env)
    (self : DocumentVersion) (w : World) (d : Document) (s : Stream)
    (chunks : list Stream) :
  documents (db w) !! document_id self = Some d →
  open E self false w = (Ok s, w) →
  to_pdf E s = Ok chunks →
  ((invalidate_cache self ;; get_intermidiate_file E self) w).1
    = Ok (concat chunks).
Proof.
  intros Hd Hopen Hpdf. rewrite bind_run.
  rewrite (invalidate_cache_run self w d Hd).
  set (w1 := add_calls _ _).
  assert (storage w1 = storage w ∧ db w1 = db w) as [Hst Hdb].
  { unfold w1, with_partition. cbn. by destruct (cache w !! partition_name d self). }
  destruct (get_intermidiate_file_miss E self w1 d s chunks) as (w' & -> & _).
  - by rewrite Hdb.
  - unfold cached, w1. cbn. by rewrite lookup_insert_eq.
  - rewrite (open_run E self false w1), (open_storage E self false w1 w) by done.
    by rewrite Hopen.
  - done.
  - done.
Qed.

Lemma get_intermidiate_file_after_invalidate_cache_witness :
  (get_intermidiate_file plain_env stored_version stale_world).1 = Ok [Byte.xff] ∧
  ((invalidate_cache stored_version ;;
    get_intermidiate_file plain_env stored_version) stale_world).1
    = Ok [Byte.x25; Byte.x50].
Proof.
  split; [reflexivity|].
  apply (get_intermidiate_file_after_invalidate_cache plain_env stored_version
           stale_world sample_document [Byte.x01; Byte.x02]
           [[Byte.x25]; [Byte.x50]]); reflexivity.
Defined.

(** ** The name of the cache partition *)

Lemma digit_not_dash a : digit a → not_dash a.
Proof.
  intros (x & Hx & ->).
  assert (x = 0 ∨ x = 1 ∨ x = 2 ∨ x = 3 ∨ x = 4 ∨ x = 5 ∨ x = 6 ∨ x = 7
          ∨ x = 8 ∨ x = 9)%N as Hcases by lia.
  unfold not_dash, dash. intros Heq.
  repeat (destruct Hcases as [->|Hcases]; [discriminate Heq|]).
  subst x. discriminate Heq.
Qed.

Lemma only_impl (P Q : Ascii.ascii → Prop) s :
  (∀ a, P a → Q a) → only P s → only Q s.
Proof. intros HPQ. induction s as [|a s IH]; [done|]. intros [? ?]. split; auto. Qed.

Lemma pretty_N_go_digits x s : only digit s → only digit (pretty_N_go x s).
Proof.
  revert s. induction (N.lt_wf_0 x) as [x _ IH]; intros s Hs.
  assert (x = 0 ∨ 0 < x)%N as [->|Hpos] by lia.
  - by rewrite pretty_N_go_0.
  - rewrite pretty_N_go_step by done. apply IH; [by apply N.div_lt|].
    split; [|done]. exists (x `mod` 10)%N. split; [|done].
    by apply N.mod_lt.
Qed.

Lemma pretty_positive_digits (k : positive) : only digit (pretty k).
Proof.
  unfold pretty, pretty_positive, pretty, pretty_N.
  destruct (decide (N.pos k = 0%N)); [done|]. by apply pretty_N_go_digits.
Qed.

Lemma pk_text_no_dash p : only not_dash (pk_text p).
Proof.
  destruct p as [k|].
  - apply (only_impl digit); [apply digit_not_dash|apply pretty_positive_digits].
  - unfold not_dash, dash. cbn. repeat split; discriminate.
Qed.

Lemma pk_text_inj p q : pk_text p = pk_text q → p = q.
Proof.
  assert (∀ k : positive, pretty k ≠ "None") as Hnone.
  { intros k Hk. pose proof (pretty_positive_digits k) as Hd. rewrite Hk in Hd.
    destruct Hd as [(x & Hx & Hd) _].
    assert (x = 0 ∨ x = 1 ∨ x = 2 ∨ x = 3 ∨ x = 4 ∨ x = 5 ∨ x = 6 ∨ x = 7
            ∨ x = 8 ∨ x = 9)%N as Hcases by lia.
    repeat (destruct Hcases as [->|Hcases]; [discriminate Hd|]).
    subst x. discriminate Hd. }
  destruct p as [k|], q as [k'|]; cbn; intros Heq.
  - f_equal. by apply (inj pretty).
  - by apply Hnone in Heq.
  - symmetry in Heq. by apply Hnone in Heq.
  - done.
Qed.

Lemma no_dash_in_the_middle s t : only not_dash (s +:+ String dash t) → False.
Proof.
  induction s as [|a s IH]; cbn.
  - intros [Hdash _]. by apply Hdash.
  - intros [_ Hrest]. by apply IH.
Qed.

Lemma split_at_last_dash s1 t1 s2 t2 :
  only not_dash t1 → only not_dash t2 →
  s1 +:+ String dash t1 = s2 +:+ String dash t2 → s1 = s2 ∧ t1 = t2.
Proof.
  intros Ht1 Ht2. revert s2.
  induction s1 as [|a s1 IH]; intros [|b s2]; cbn; intros Heq.
  - by injection Heq as ->.
  - injection Heq as _ ->. by apply no_dash_in_the_middle in Ht1.
  - injection Heq as _ <-. by apply no_dash_in_the_middle in Ht2.
  - injection Heq as -> Heq. destruct (IH s2 Heq) as [-> ->]. done.
Qed.

(** X12: the name of the cache partition of a version determines the UUID
    of its document and its primary key: two versions have the same
    partition only when they are the same version of documents with the
    same UUID. *)
Theorem partition_name_inj (d1 d2 : Document) (v1 v2 : DocumentVersion) :
  partition_name d1 v1 = partition_name d2 v2 ↔
  doc_uuid d1 = doc_uuid d2 ∧ pk v1 = pk v2.
Proof.
  split.
  - unfold partition_name. intros Heq. apply (inj (String.app _)) in Heq.
    change ("-" +:+ ?t) with (String dash t) in Heq.
    apply split_at_last_dash in Heq as [Hd Hp]; [|apply pk_text_no_dash..].
    split; [done|]. by apply pk_text_inj.
  - intros [Hd Hp]. unfold partition_name. by rewrite Hd, Hp.
Qed.

(** ** What [delete] leaves alone *)

Lemma same_outside_refl w : same_outside w w.
Proof. by repeat split. Qed.

Lemma same_outside_trans w1 w2 w3 :
  same_outside w1 w2 → same_outside w2 w3 → same_outside w1 w3.
Proof.
  intros (? & ? & ? & ? & ?) (? & ? & ? & ? & ?). repeat split; congruence.
Qed.

(** The loop over the pages, whatever faults the pages have: the pages it
    has deleted are pages of the list. *)
Lemma for_each_page_delete_any E l w :
  ∃ deleted cs,
    (∀ g, g ∈ deleted → g ∈ l) ∧
    (for_each l (page_delete E) w).2 =
      add_calls cs
        (with_db (with_pages (λ t, foldl (λ t g, base.delete (page_pk g) t) t deleted))
           w).
Proof.
  revert w. induction l as [|g l IH]; intros w.
  - exists [], []. split; [done|]. unfold add_calls. cbn. rewrite app_nil_r.
    by destruct w as [[]].
  - cbn [for_each]. rewrite bind_run, page_delete_run.
    destruct (page_delete_fault E g).
    + exists [], [CallPageDelete (page_pk g)].
      split; [by intros ? ?%elem_of_nil|].
      unfold add_calls. cbn. by destruct w as [[]].
    + destruct (IH (pages_deleted [g] w)) as (deleted & cs & Hin & ->).
      exists (g :: deleted), (CallPageDelete (page_pk g) :: cs). split.
      * intros x [->|Hx]%elem_of_cons; [left|right; by apply Hin].
      * unfold pages_deleted, add_calls, with_db, with_pages. cbn.
        by rewrite <- app_assoc.
Qed.

Lemma page_of_other_version_not_in_pages_of v w k g :
  pages (db w) !! k = Some g →
  Some (document_version_id g) ≠ pk v →
  k ∉ page_pk <$> pages_of v w.
Proof.
  intros Hk Hv (x & -> & Hx)%list_elem_of_fmap.
  apply elem_of_pages_of in Hx as [Hxv (row & Hrow & Hxrow)%elem_of_page_rows].
  assert (row = g) as -> by congruence.
  apply Hv. rewrite <- Hxv, Hxrow. done.
Qed.

(** The world [delete] leaves, for any outcome. *)
Lemma delete_any E v w :
  ∃ deleted,
    (∀ g, g ∈ deleted → g ∈ pages_of v w) ∧
    pages (db (delete E v w).2) =
      foldl (λ t g, base.delete (page_pk g) t) (pages (db w)) deleted ∧
    (versions (db (delete E v w).2) = versions (db w) ∨
     ∃ p, pk v = Some p ∧
          versions (db (delete E v w).2) = base.delete p (versions (db w))) ∧
    (storage (delete E v w).2 = storage w ∨
     storage (delete E v w).2 = base.delete (file v) (storage w)) ∧
    same_outside w (delete E v w).2.
Proof.
  unfold delete. rewrite bind_run.
  change (pages_all v w) with (Ok (pages_of v w), w). cbn iota beta.
  rewrite bind_run.
  destruct (for_each_page_delete_any E (pages_of v w) w)
    as (deleted & cs & Hin & Hloop).
  exists deleted. split; [done|].
  destruct (for_each (pages_of v w) (page_delete E) w) as [[[]|e] w1];
    cbn [snd] in Hloop; subst w1.
  - unfold storage_delete, super_delete, called, modify. rewrite !bind_run.
    cbn iota beta. destruct (pk v) as [p|] eqn:Hpk; rewrite ?bind_run; cbn.
    + split; [done|]. split; [right; by exists p|]. split; [by right|].
      by repeat split.
    + split; [done|]. split; [by left|]. split; [by right|]. by repeat split.
  - cbn. split; [done|]. split; [by left|]. split; [by left|]. by repeat split.
Qed.

(** X13: whether it returns or raises, [delete] leaves the rows of the
    other versions, the pages of the other versions and the files stored
    under another name as they are; it emits no event, writes no log
    record, and changes neither the cache nor a document. *)
Theorem delete_leaves_other_versions_alone (E : Env) (v : DocumentVersion)
    (w : World) :
  (∀ k, Some k ≠ pk v →
     versions (db (delete E v w).2) !! k = versions (db w) !! k) ∧
  (∀ k g, pages (db w) !! k = Some g → Some (document_version_id g) ≠ pk v →
     pages (db (delete E v w).2) !! k = Some g) ∧
  pages (db (delete E v w).2) ⊆ pages (db w) ∧
  (∀ name, name ≠ file v →
     storage (delete E v w).2 !! name = storage w !! name) ∧
  same_outside w (delete E v w).2.
Proof.
  destruct (delete_any E v w) as (deleted & Hin & Hpages & Hversions & Hstorage & Hsame).
  split; [|split; [|split; [|split]]].
  - intros k Hk. destruct Hversions as [->|(p & Hp & ->)]; [done|].
    apply lookup_delete_ne. congruence.
  - intros k g Hg Hv. rewrite Hpages, lookup_foldl_delete, decide_False; [done|].
    intros (x & -> & Hx%Hin)%list_elem_of_fmap.
    apply (page_of_other_version_not_in_pages_of v w (page_pk x) g Hg Hv).
    by apply list_elem_of_fmap_2.
  - rewrite Hpages. apply foldl_delete_subseteq.
  - intros name Hname. destruct Hstorage as [->| ->]; [done|].
    by apply lookup_delete_ne.
  - done.
Qed.

(** ** [revert], the pages and the binaries *)

Lemma delete_ok_pages E v w p k g :
  pk v = Some p →
  (∀ x, x ∈ pages_of v w → page_delete_fault E x = None) →
  pages (db (delete E v w).2) !! k = Some g ↔
  pages (db w) !! k = Some g ∧ document_version_id g ≠ p.
Proof.
  intros Hpk Hok. rewrite (delete_run_ok E v w p Hpk Hok). cbn.
  rewrite lookup_foldl_delete. split.
  - destruct (decide _) as [|Hnin]; [done|]. intros Hg. split; [done|].
    intros Hv. apply Hnin. apply list_elem_of_fmap.
    exists (set_page_pk k g). split; [done|].
    apply elem_of_pages_of. split; [cbn; by rewrite Hv, Hpk|].
    apply elem_of_page_rows. by exists g.
  - intros [Hg Hv]. rewrite decide_False; [done|].
    apply (page_of_other_version_not_in_pages_of v w k g Hg).
    rewrite Hpk. congruence.
Qed.

(** The loop of [revert] when no deletion fails. *)
Lemma for_each_delete_ok_full E l w :
  (∀ v, v ∈ l → is_Some (pk v)) →
  (∀ v g, v ∈ l → g ∈ pages_of v w → page_delete_fault E g = None) →
  ∃ w', for_each l (delete E) w = (Ok tt, w') ∧
    (∀ k g, pages (db w') !! k = Some g ↔
       pages (db w) !! k = Some g ∧ Some (document_version_id g) ∉ pk <$> l) ∧
    (∀ name, storage w' !! name =
       if decide (name ∈ file <$> l) then None else storage w !! name) ∧
    same_outside w w'.
Proof.
  revert w. induction l as [|v l IH]; intros w Hpk Hok.
  - exists w. split; [done|]. split; [|split; [|apply same_outside_refl]].
    + intros k g. split; [|tauto]. intros Hg. split; [done|]. by intros ?%elem_of_nil.
    + intros name. rewrite decide_False; [done|]. by intros ?%elem_of_nil.
  - destruct (Hpk v) as [p Hp]; [left|].
    assert (∀ x, x ∈ pages_of v w → page_delete_fault E x = None) as Hv
      by (intros x Hx; apply (Hok v); [left|done]).
    pose proof (λ k g, delete_ok_pages E v w p k g Hp Hv) as Hpages1.
    cbn [for_each]. rewrite bind_run.
    rewrite (delete_run_ok E v w p Hp Hv) in *.
    set (w1 := with_db _ _) in *. cbn [snd] in *.
    assert (pages (db w1) ⊆ pages (db w)) as Hsub by apply foldl_delete_subseteq.
    destruct (IH w1) as (w' & Hrun & Hpages & Hstorage & Hsame).
    { intros v' Hv'. apply Hpk. by right. }
    { intros v' g Hv' Hg. apply (Hok v'); [by right|]. by eapply pages_of_mono. }
    exists w'. split; [done|]. split; [|split].
    + intros k g. rewrite Hpages, Hpages1. cbn [fmap list_fmap]. rewrite Hp.
      rewrite not_elem_of_cons. split.
      * intros [[Hg Hne] Hnin]. split; [done|]. split; [congruence|done].
      * intros [Hg [Hne Hnin]]. split; [|done]. split; [done|]. congruence.
    + intros name. rewrite Hstorage. cbn [fmap list_fmap].
      destruct (decide (name ∈ file <$> l)) as [Hin|Hnin].
      * rewrite decide_True; [done|]. by right.
      * destruct (decide (name = file v)) as [->|Hne].
        -- rewrite decide_True by left. cbn. apply lookup_delete_eq.
        -- rewrite decide_False by (intros [?|?]%elem_of_cons; done).
           cbn. by apply lookup_delete_ne.
    + eapply same_outside_trans; [|exact Hsame]. by repeat split.
Qed.

Lemma later_files_spec self w name :
  name ∈ file <$> merge_sort timestamp_le
    (filter (λ v, document_id v = document_id self ∧ timestamp self < timestamp v)
       (version_rows w)) ↔
  ∃ k row, versions (db w) !! k = Some row ∧ is_later self row ∧ file row = name.
Proof.
  rewrite merge_sort_Permutation, list_elem_of_fmap. split.
  - intros (v & -> & [Hlater (k & row & Hrow & ->)%elem_of_version_rows]%list_elem_of_filter).
    by exists k, row.
  - intros (k & row & Hrow & Hlater & <-). exists (set_pk (Some k) row).
    split; [done|]. apply list_elem_of_filter. split; [done|].
    apply elem_of_version_rows. by exists k, row.
Qed.

(** [revert] when the document is there and no deletion of a page of a
    later version fails. *)
Lemma revert_ok E self _user w :
  is_Some (documents (db w) !! document_id self) →
  (∀ g v, g ∈ page_rows w →
     versions (db w) !! document_version_id g = Some v → is_later self v →
     page_delete_fault E g = None) →
  ∃ w', revert E self _user w = (Ok tt, w') ∧
    (∀ k, versions (db w') !! k =
       if decide (later_row self w k) then None else versions (db w) !! k) ∧
    (∀ k g, pages (db w') !! k = Some g ↔
       pages (db w) !! k = Some g ∧ ¬ later_row self w (document_version_id g)) ∧
    (∀ k row, versions (db w) !! k = Some row → is_later self row →
       storage w' !! file row = None) ∧
    (∀ name,
       (∀ k row, versions (db w) !! k = Some row → is_later self row →
          file row ≠ name) →
       storage w' !! name = storage w !! name) ∧
    documents (db w') = documents (db w) ∧ cache w' = cache w.
Proof.
  intros Hdocument Hok. rewrite revert_run by done. cbv zeta.
  set (w0 := add_event _ _). set (later := merge_sort _ _).
  assert (∀ v, v ∈ later → is_Some (pk v)) as Hpk.
  { intros v Hv. unfold later in Hv. rewrite merge_sort_Permutation in Hv.
    apply list_elem_of_filter in Hv as [_ (k & row & _ & ->)%elem_of_version_rows].
    by eexists. }
  assert (∀ v g, v ∈ later → g ∈ pages_of v w0 → page_delete_fault E g = None)
    as Hfaults.
  { intros v g Hv [Hgv Hg]%elem_of_pages_of.
    unfold later in Hv. rewrite merge_sort_Permutation in Hv.
    apply list_elem_of_filter in Hv as [Hl (k & row & Hrow & ->)%elem_of_version_rows].
    cbn in Hgv. injection Hgv as Hgv. apply (Hok g row); [done| |done].
    by rewrite Hgv. }
  destruct (for_each_delete_ok E later w0 Hpk Hfaults) as (w' & Hrun & _ & Hversions).
  destruct (for_each_delete_ok_full E later w0 Hpk Hfaults)
    as (w'' & Hrun' & Hpages & Hstorage & Hsame).
  assert (w'' = w') as -> by congruence.
  exists w'. split; [done|].
  split; [|split; [|split; [|split;
    [|destruct Hsame as (_ & _ & Hcache & Hdocs & _); done]]]].
  - intros k. rewrite Hversions.
    destruct (decide (Some k ∈ pk <$> later)) as [Hin|Hnin].
    + rewrite decide_True; [done|]. by apply (later_versions_spec self w0 k).
    + rewrite decide_False; [done|]. intros Hl. apply Hnin.
      by apply (later_versions_spec self w0 k).
  - intros k g. rewrite Hpages.
    assert (Some (document_version_id g) ∈ pk <$> later ↔
            later_row self w (document_version_id g)) as ->
      by apply (later_versions_spec self w0).
    done.
  - intros k row Hrow Hlater. rewrite Hstorage, decide_True; [done|].
    apply (later_files_spec self w0). by exists k, row.
  - intros name Hname. rewrite Hstorage, decide_False; [done|].
    intros (k & row & Hrow & Hlater & Hfile)%(later_files_spec self w0).
    by apply (Hname k row).
Qed.

(** X14: when the document of the version is in the table and no deletion
    of a page fails, [revert] leaves no page of a later version and no
    binary of a later version: the pages left are the pages of the versions
    that stay, and the files left are the ones no later version has.  The
    cache is not touched: the partitions of the deleted versions stay. *)
Theorem revert_removes_pages_and_binaries (E : Env) (self : DocumentVersion)
    (_user : option string) (w : World) :
  is_Some (documents (db w) !! document_id self) →
  (∀ g v, g ∈ page_rows w →
     versions (db w) !! document_version_id g = Some v → is_later self v →
     page_delete_fault E g = None) →
  ∃ w', revert E self _user w = (Ok tt, w') ∧
    (∀ k g, pages (db w') !! k = Some g ↔
       pages (db w) !! k = Some g ∧ ¬ later_row self w (document_version_id g)) ∧
    (∀ k row, versions (db w) !! k = Some row → is_later self row →
       storage w' !! file row = None) ∧
    (∀ name,
       (∀ k row, versions (db w) !! k = Some row → is_later self row →
          file row ≠ name) →
       storage w' !! name = storage w !! name) ∧
    cache w' = cache w.
Proof.
  intros Hdocument Hok.
  destruct (revert_ok E self _user w Hdocument Hok)
    as (w' & Hrun & _ & Hpages & Hgone & Hkept & _ & Hcache).
  exists w'. split; [done|]. split; [done|]. split; [done|]. split; done.
Qed.

Lemma revert_removes_pages_and_binaries_witness :
  ∃ w', revert plain_env (version_at 1 1 100) None history_world = (Ok tt, w') ∧
    pages (db w') !! 2%positive = None ∧
    pages (db w') !! 4%positive = Some (mkDocumentPage 4 4 1) ∧
    storage w' !! "file-3" = None ∧
    storage w' !! "file-1" = Some [Byte.x01].
Proof.
  destruct (revert_removes_pages_and_binaries plain_env (version_at 1 1 100)
              None history_world) as (w' & Hrun & Hpages & Hgone & Hkept & _).
  - by eexists.
  - intros g v _ _ _. reflexivity.
  - exists w'. split; [exact Hrun|]. split; [|split; [|split]].
    + destruct (pages (db w') !! 2%positive) as [g|] eqn:Hg; [|done].
      apply Hpages in Hg as [Hg Hnot]. injection Hg as <-. exfalso. apply Hnot.
      exists (version_at 2 1 200). split; [reflexivity|]. split; [reflexivity|].
      cbn. lia.
    + apply Hpages. split; [reflexivity|].
      intros (row & Hrow & Hdoc & _). injection Hrow as <-. discriminate Hdoc.
    + apply (Hgone 3%positive (version_at 3 1 300)); [reflexivity|].
      split; [reflexivity|]. cbn. lia.
    + rewrite Hkept; [reflexivity|]. intros k row Hrow [Hdoc Hts] Hfile.
      change (versions (db history_world)) with
        ({[1%positive := version_at 1 1 100; 2%positive := version_at 2 1 200;
           3%positive := version_at 3 1 300; 4%positive := version_at 4 2 400]}
           : gmap positive DocumentVersion) in Hrow.
      repeat (apply lookup_insert_Some in Hrow as [[<- <-]|[_ Hrow]];
              [cbn in Hts, Hfile, Hdoc; first [lia|discriminate]|]).
      apply lookup_singleton_Some in Hrow as [<- <-]. discriminate Hdoc.
Defined.

(** The loop of [revert], whatever happens: no event and no log record. *)
Lemma for_each_delete_same_outside E l w :
  same_outside w (for_each l (delete E) w).2.
Proof.
  revert w. induction l as [|v l IH]; intros w; [apply same_outside_refl|].
  cbn [for_each]. rewrite bind_run.
  destruct (delete_any E v w) as (_ & _ & _ & _ & _ & Hsame).
  destruct (delete E v w) as [[[]|e] w1]; cbn [snd] in *; [|done].
  eapply same_outside_trans; [exact Hsame|apply IH].
Qed.

(** X15: [revert] names the document of the version before anything is
    written.  With the document in the table, whether the deletions return
    or raise, and also when there is nothing to delete, [revert] writes one
    log record and emits one event, the revert of the document by the given
    user, before it deletes; the deletions emit nothing.  Without the row
    of the document it raises [DoesNotExist] with no record and no event. *)
Theorem revert_emits_one_event (E : Env) (self : DocumentVersion)
    (_user : option string) (w : World) :
  (is_Some (documents (db w) !! document_id self) →
   events (revert E self _user w).2 =
     events w ++ [event_document_version_revert _user (document_id self)] ∧
   log (revert E self _user w).2 =
     log w ++ [LogInfo "Reverting to document document: %s to version: %s"
                 (document_id self)]) ∧
  (documents (db w) !! document_id self = None →
   revert E self _user w = (Raise DoesNotExist, w)).
Proof.
  split; [|apply revert_missing].
  intros Hdocument. rewrite revert_run by done. cbv zeta.
  set (w0 := add_event _ _). set (later := merge_sort _ _).
  destruct (for_each_delete_same_outside E later w0) as (Hevents & Hlog & _).
  by rewrite Hevents, Hlog.
Qed.

Lemma revert_emits_one_event_witness :
  events (revert locked_page_env (version_at 1 1 100) (Some "ann")
            history_world).2
    = [event_document_version_revert (Some "ann") 1] ∧
  revert plain_env orphan_version None empty_world
    = (Raise DoesNotExist, empty_world).
Proof.
  destruct (revert_emits_one_event locked_page_env (version_at 1 1 100)
              (Some "ann") history_world) as [Hone _].
  destruct (revert_emits_one_event plain_env orphan_version None empty_world)
    as [_ Hmissing].
  split.
  - destruct Hone as [Hevents _]; [by eexists|exact Hevents].
  - apply Hmissing. reflexivity.
Defined.

(** X16: with the document in the table, after a [revert] that returned,
    a second [revert] from the same version finds no later version: it returns, and deletes no row, no page
    and no binary. *)
Theorem revert_twice_deletes_nothing_more (E : Env) (self : DocumentVersion)
    (_user : option string) (w : World) :
  is_Some (documents (db w) !! document_id self) →
  (∀ g v, g ∈ page_rows w →
     versions (db w) !! document_version_id g = Some v → is_later self v →
     page_delete_fault E g = None) →
  ∃ w' w'', revert E self _user w = (Ok tt, w') ∧
    revert E self _user w' = (Ok tt, w'') ∧
    db w'' = db w' ∧ storage w'' = storage w'.
Proof.
  intros Hdocument Hok.
  destruct (revert_ok E self _user w Hdocument Hok)
    as (w' & Hrun & Hversions & _ & _ & _ & Hdocuments & _).
  exists w'. eexists. split; [done|].
  rewrite revert_run by (by rewrite Hdocuments). cbv zeta.
  set (w0 := add_event _ _).
  assert (filter (λ v, document_id v = document_id self ∧ timestamp self < timestamp v)
            (version_rows w0) = []) as ->.
  { apply filter_nil_intro. intros v (k & row & Hrow & ->)%elem_of_version_rows Hl.
    change (versions (db w0)) with (versions (db w')) in Hrow.
    rewrite Hversions in Hrow. destruct (decide (later_row self w k)) as [|Hnot]; [done|].
    apply Hnot. by exists row. }
  split; [reflexivity|]. done.
Qed.

Lemma revert_twice_deletes_nothing_more_witness :
  ∃ w' w'', revert plain_env (version_at 1 1 100) None history_world = (Ok tt, w') ∧
    revert plain_env (version_at 1 1 100) None w' = (Ok tt, w'') ∧
    db w'' = db w'.
Proof.
  destruct (revert_twice_deletes_nothing_more plain_env (version_at 1 1 100)
              None history_world) as (w' & w'' & Hfirst & Hsecond & Hdb & _).
  - by eexists.
  - intros g v _ _ _. reflexivity.
  - exists w', w''. split; [exact Hfirst|]. split; [exact Hsecond|exact Hdb].
Defined.

(** ** [fix_orientation] when every detection returns *)

Lemma elem_of_orientation_rotations E (l : list DocumentPage) t :
  t ∈ l ≫= orientation_rotations E ↔
  ∃ g d, g ∈ l ∧ detect_orientation E g = Ok (Some d) ∧ d ≠ 0 ∧
         t = mkTransformation (page_pk g) "TransformationRotate" (rotate_arguments d).
Proof.
  rewrite list_elem_of_bind. unfold orientation_rotations. split.
  - intros (g & Ht & Hg). exists g.
    destruct (detect_orientation E g) as [[d|]|e]; cbn in Ht;
      try (by apply elem_of_nil in Ht).
    destruct (d =? 0) eqn:Hd; cbn in Ht; [by apply elem_of_nil in Ht|].
    apply list_elem_of_singleton in Ht. exists d. repeat split; [done|lia|done].
  - intros (g & d & Hg & Hdetect & Hd & ->). exists g. split; [|done].
    rewrite Hdetect. cbn. destruct (d =? 0) eqn:Hz; [lia|]. cbn. left.
Qed.

(** X17: when the detection returns for every page of the version,
    [fix_orientation] returns and adds one rotation for each page whose
    detected angle is neither [None] nor 0, in the order of the pages, and
    none for the other pages.  The rotation of a page with angle [d] has
    the arguments [{"degrees": 360 - d}].  The pages, the versions and the
    storage are unchanged. *)
Theorem fix_orientation_adds_inverse_rotations (E : Env)
    (self : DocumentVersion) (w : World) :
  (∀ g, g ∈ pages_of self w → is_ok (detect_orientation E g) = true) →
  ∃ w', fix_orientation E self w = (Ok tt, w') ∧
    transformations (db w') =
      transformations (db w) ++ (pages_of self w ≫= orientation_rotations E) ∧
    (∀ t, t ∈ pages_of self w ≫= orientation_rotations E ↔
       ∃ g d, g ∈ pages_of self w ∧ detect_orientation E g = Ok (Some d) ∧ d ≠ 0 ∧
         t = mkTransformation (page_pk g) "TransformationRotate"
               ("{" +:+ dquote +:+ "degrees" +:+ dquote +:+ ": " +:+
                pretty (360 - d) +:+ "}")) ∧
    pages (db w') = pages (db w) ∧ versions (db w') = versions (db w) ∧
    storage w' = storage w.
Proof.
  intros Hok. exists (oriented E (pages_of self w) w).
  split; [by apply fix_orientation_run_ok|]. split; [done|].
  split; [apply elem_of_orientation_rotations|done].
Qed.

Lemma fix_orientation_adds_inverse_rotations_witness :
  ∃ w', fix_orientation plain_env stored_version paged_world = (Ok tt, w') ∧
    transformations (db w') =
      [mkTransformation 1 "TransformationRotate"
         ("{" +:+ dquote +:+ "degrees" +:+ dquote +:+ ": 270}");
       mkTransformation 2 "TransformationRotate"
         ("{" +:+ dquote +:+ "degrees" +:+ dquote +:+ ": 270}")].
Proof.
  destruct (fix_orientation_adds_inverse_rotations plain_env stored_version
              paged_world) as (w' & Hrun & Hrotations & _).
  - intros g _. reflexivity.
  - exists w'. split; [exact Hrun|]. rewrite Hrotations. reflexivity.
Defined.

(** ** [save] of a saved version *)

Lemma bind_ok_inv {A B} (m : M A) (f : A → M B) w b w' :
  (m ≫= f) w = (Ok b, w') → ∃ a w1, m w = (Ok a, w1) ∧ f a w1 = (Ok b, w').
Proof.
  rewrite bind_run. destruct (m w) as [[a|e] w1]; [|done]. intros Hf. by exists a, w1.
Qed.

(** The fields of the rows [super().save()] writes. *)
Lemma committed_same self w :
  pk (committed self w) = pk self ∧
  document_id (committed self w) = document_id self ∧
  timestamp (committed self w) = timestamp self ∧
  comment (committed self w) = comment self ∧
  mimetype (committed self w) = mimetype self ∧
  encoding (committed self w) = encoding self ∧
  checksum (committed self w) = checksum self ∧
  upload (committed self w) = None ∧
  (upload self = None → committed self w = self).
Proof.
  unfold committed. destruct (upload self) as [content|] eqn:Hup; cbn;
    repeat split; done.
Qed.

Lemma saved_row_fields self p w :
  pk self = Some p →
  pk (saved_row self p w) = Some p ∧
  document_id (saved_row self p w) = document_id self ∧
  comment (saved_row self p w) = comment self ∧
  file (saved_row self p w) = file (committed self w) ∧
  mimetype (saved_row self p w) = mimetype self ∧
  encoding (saved_row self p w) = encoding self ∧
  checksum (saved_row self p w) = checksum self ∧
  upload (saved_row self p w) = None ∧
  (is_Some (versions (db w) !! p) →
     timestamp (saved_row self p w) = timestamp self) ∧
  (versions (db w) !! p = None → timestamp (saved_row self p w) = now w).
Proof.
  intros Hpk. unfold saved_row.
  destruct (committed_same self w) as (Hp & Hd & Ht & Hco & Hm & He & Hc & Hu & _).
  destruct (versions (db w) !! p) as [row|] eqn:Hrow.
  - rewrite bool_decide_eq_true_2 by eauto.
    repeat split; first [congruence | done].
  - rewrite bool_decide_eq_false_2 by (by intros [? ?]). cbn.
    repeat split; first [congruence | by intros [? ?] | done].
Qed.

Lemma inserted_row_fields self w :
  pk (inserted_row self w) = Some (fresh (dom (versions (db w)))) ∧
  document_id (inserted_row self w) = document_id self ∧
  comment (inserted_row self w) = comment self ∧
  file (inserted_row self w) = file (committed self w) ∧
  mimetype (inserted_row self w) = mimetype self ∧
  encoding (inserted_row self w) = encoding self ∧
  checksum (inserted_row self w) = checksum self ∧
  upload (inserted_row self w) = None ∧
  timestamp (inserted_row self w) = now w.
Proof.
  unfold inserted_row.
  destruct (committed_same self w) as (Hp & Hd & Ht & Hco & Hm & He & Hc & Hu & _).
  cbn. repeat split; congruence.
Qed.

(** What [super().save()] returns. *)
Lemma super_save_result E self w self' w' :
  super_save E self w = (Ok self', w') →
  is_Some (pk self') ∧ upload self' = None ∧
  document_id self' = document_id self ∧
  file self' = file (committed self w) ∧
  mimetype self' = mimetype self ∧ encoding self' = encoding self ∧
  checksum self' = checksum self ∧ comment self' = comment self ∧
  storage w' = storage (commit self w) ∧
  (∀ p, pk self = Some p → pk self' = Some p ∧ self' = saved_row self p w) ∧
  (pk self = None → self' = inserted_row self w).
Proof.
  destruct (pk self) as [p|] eqn:Hpk.
  - rewrite (super_save_keyed_run E self p w Hpk).
    destruct (super_save_fault E self); [done|]. intros [= <- <-].
    destruct (saved_row_fields self p w Hpk)
      as (Hp & Hd & Hco & Hf & Hm & He & Hc & Hu & _).
    split; [by eexists|]. repeat split; try done; congruence.
  - rewrite (super_save_new_run E self w Hpk).
    destruct (super_save_fault E self); [done|]. intros [= <- <-].
    destruct (inserted_row_fields self w)
      as (Hp & Hd & Hco & Hf & Hm & He & Hc & Hu & _).
    split; [by eexists|]. repeat split; done.
Qed.

(** The object a save of a saved version returns. *)
Lemma save_depth_persisted_result E n cached user self p w self' w' :
  pk self = Some p →
  save_depth E (S n) cached user self w = (Ok self', w') →
  self' = saved_row self p w.
Proof.
  intros Hpk. rewrite (save_depth_persisted_run E n cached user self p w Hpk), atomic_run.
  rewrite bind_run.
  destruct (super_save E self w) as [[self1|e] w1] eqn:Hsave.
  - apply super_save_result in Hsave as (_ & _ & _ & _ & _ & _ & _ & _ & _ & Hrow & _).
    rewrite bind_run.
    destruct (run_post_save_hooks E _ self1 w1) as [[[]|e] w2].
    + cbn. intros [= <- <-]. by apply (Hrow p).
    + rewrite !bind_run. by destruct (self_document _ _ _) as [[]].
  - rewrite !bind_run. by destruct (self_document _ _ _) as [[]].
Qed.

(** X18: saving a version that has a primary key computes nothing again.
    When [save] returns, the object has the key, the checksum, the MIME
    type, the encoding, the comment and the document it had, and a pending
    upload is gone.  The timestamp is the one it had when the table has a
    row under the key; when it has none, the row is inserted and the
    timestamp is the time of the save.  The name of the file is the one it
    had when no upload was pending.  Without post-save hooks the world
    differs by the committed upload and the row of the version alone.
    When [save] raises, the tables are the ones it started with; the
    handler names the document: with its row in the table the error is the
    last record of the log, and without it the error is [DoesNotExist]. *)
Theorem save_saved_version_recomputes_nothing (E : Env) (user : option string)
    (self : DocumentVersion) (p : positive) (w : World) :
  pk self = Some p →
  (∀ self' w', save E user self w = (Ok self', w') →
     self' = saved_row self p w ∧
     pk self' = Some p ∧ checksum self' = checksum self ∧
     mimetype self' = mimetype self ∧ encoding self' = encoding self ∧
     comment self' = comment self ∧ document_id self' = document_id self ∧
     upload self' = None ∧
     (is_Some (versions (db w) !! p) → timestamp self' = timestamp self) ∧
     (versions (db w) !! p = None → timestamp self' = now w) ∧
     (upload self = None → file self' = file self)) ∧
  (∀ e w', save E user self w = (Raise e, w') →
     db w' = db w ∧
     (is_Some (documents (db w) !! document_id self) →
        last (log w') = Some (error_record self e)) ∧
     (documents (db w) !! document_id self = None → e = DoesNotExist)) ∧
  (super_save_fault E self = None → _post_save_hooks E = ∅ →
   save E user self w =
     (Ok (saved_row self p w),
      with_db (with_versions (<[p := saved_row self p w]>)) (commit self w))) ∧
  (upload self = None → is_Some (versions (db w) !! p) →
   saved_row self p w = self ∧ commit self w = w).
Proof.
  intros Hpk. split; [|split; [|split]].
  - intros self' w' Hsave. unfold save in Hsave.
    change recursion_limit with (S (pred recursion_limit)) in Hsave.
    apply (save_depth_persisted_result E _ None user self p w self' w' Hpk)
      in Hsave as ->.
    destruct (saved_row_fields self p w Hpk)
      as (Hp & Hd & Hco & Hf & Hm & He & Hc & Hu & Hkept & Hnew).
    repeat split; try done.
    intros Hup. rewrite Hf.
    by destruct (committed_no_upload self w Hup) as [-> _].
  - intros e w'. unfold save.
    change recursion_limit with (S (pred recursion_limit)).
    rewrite (save_depth_persisted_run E (pred recursion_limit) None user self p w Hpk),
      atomic_run.
    destruct (mbind _ (super_save E self) w) as [[self'|e'] w1]; [done|].
    rewrite bind_run. cbn [self_document]. unfold get_document. cbn [db with_db].
    destruct (documents (db w) !! document_id self) as [d|] eqn:Hdoc.
    + intros [= <- <-]. split; [done|]. split; [|done].
      intros _. cbn. by rewrite last_snoc.
    + intros [= <- <-]. split; [done|]. split; [|done]. by intros [? ?].
  - intros Hfault Hhooks.
    apply (save_keyed_returns E user self p w); [done..|].
    by rewrite Hhooks, sorted_empty.
  - intros Hup Hrow. unfold saved_row. rewrite bool_decide_eq_true_2 by done.
    apply (committed_no_upload self w Hup).
Qed.

Lemma save_saved_version_recomputes_nothing_witness :
  save plain_env None (set_checksum (Some "stale") stored_version) stored_world
    = (Ok (set_checksum (Some "stale") stored_version),
       with_db (with_versions
         (<[1%positive := set_checksum (Some "stale") stored_version]>))
         stored_world).
Proof.
  destruct (save_saved_version_recomputes_nothing plain_env None
              (set_checksum (Some "stale") stored_version) 1%positive
              stored_world eq_refl) as (_ & _ & Hrow & _).
  apply Hrow; reflexivity.
Defined.

(** ** [save_to_file] *)

Lemma copy_loop_copies turns buffer_size input output :
  buffer_size ≠ 0 → -1 ≤ buffer_size → (length input < turns)%nat →
  copy_loop turns buffer_size input output = (Ok tt, output ++ input).
Proof.
  intros Hsize Hrange. revert input output.
  induction turns as [|turns IH]; intros input output Hturns; [lia|].
  cbn [copy_loop]. unfold read.
  rewrite (proj2 (Z.ltb_ge buffer_size (-1))) by done.
  destruct (buffer_size <? 0) eqn:Hneg.
  - destruct input as [|b input]; [by rewrite app_nil_r|].
    rewrite drop_all. rewrite IH by (cbn in *; lia). by rewrite app_nil_r.
  - destruct input as [|b input]; [by rewrite take_nil, app_nil_r|].
    destruct (Z.to_nat buffer_size) as [|k] eqn:Hk; [lia|].
    cbn [take]. rewrite IH.
    + rewrite <- app_assoc. do 2 f_equal. cbn [length drop app]. f_equal.
      rewrite length_take.
      destruct (decide (k ≤ length input)%nat).
      * rewrite Nat.min_l by lia. apply take_drop.
      * rewrite Nat.min_r by lia. rewrite take_ge by lia.
        by rewrite drop_all, app_nil_r.
    + rewrite length_drop. cbn [length] in *. lia.
Qed.

(** X26: [save_to_file] writes to the local file the stream [open]
    returns, whole, whatever a positive [buffer_size] cuts it into, and
    also for the size -1, and returns the path; a former content of the
    file is replaced and the other local files are untouched.  With a
    [buffer_size] of 0 the first read is empty and the file is left empty.
    With a [buffer_size] below -1 the first read raises [ValueError]: the
    method raises it, and the local file, already opened for writing, is
    left empty.  When [open] raises, the method raises before it opens the
    local file, which is as it was. *)
Theorem save_to_file_copies_opened_stream (E : Env) (self : DocumentVersion)
    (filepath : string) (buffer_size : Z) (local : gmap string Stream)
    (w : World) :
  (∀ s, open E self false w = (Ok s, w) →
     save_to_file E self filepath buffer_size local w =
       if decide (buffer_size < -1)
       then (Raise ValueError, <[filepath := []]> local, w)
       else (Ok filepath,
             <[filepath := if decide (buffer_size = 0) then [] else s]> local,
             w)) ∧
  (∀ e, open E self false w = (Raise e, w) →
     save_to_file E self filepath buffer_size local w = (Raise e, local, w)).
Proof.
  unfold save_to_file. split.
  - intros s Hopen. rewrite Hopen. cbv zeta. rewrite insert_insert_eq.
    destruct (decide (buffer_size < -1)) as [Hlow|Hrange].
    + cbn [copy_loop]. unfold read.
      by rewrite (proj2 (Z.ltb_lt buffer_size (-1))) by done.
    + destruct (decide (buffer_size = 0)) as [->|Hne].
      * by destruct s.
      * by rewrite copy_loop_copies by (done || lia).
  - intros e Hopen. by rewrite Hopen.
Qed.

Lemma save_to_file_copies_opened_stream_witness :
  save_to_file plain_env stored_version "/tmp/copy" 1 ∅ stored_world
    = (Ok "/tmp/copy", {["/tmp/copy" := [Byte.x01; Byte.x02]]}, stored_world) ∧
  save_to_file plain_env stored_version "/tmp/copy" (-2) ∅ stored_world
    = (Raise ValueError, {["/tmp/copy" := []]}, stored_world) ∧
  save_to_file plain_env stored_version "/tmp/copy" default_buffer_size ∅ lost_world
    = (Raise IOError, ∅, lost_world).
Proof.
  destruct (save_to_file_copies_opened_stream plain_env stored_version
              "/tmp/copy" 1 ∅ stored_world) as [Hcopy _].
  destruct (save_to_file_copies_opened_stream plain_env stored_version
              "/tmp/copy" (-2) ∅ stored_world) as [Hlow _].
  destruct (save_to_file_copies_opened_stream plain_env stored_version
              "/tmp/copy" default_buffer_size ∅ lost_world) as [_ Hraise].
  split; [|split].
  - rewrite (Hcopy [Byte.x01; Byte.x02]); reflexivity.
  - rewrite (Hlow [Byte.x01; Byte.x02]); reflexivity.
  - apply Hraise. reflexivity.
Defined.

(** ** [save] of a new version, when it returns *)

Lemma save_new_ok_inv E user self w self' w' :
  pk self = None →
  save E user self w = (Ok self', w') →
  ∃ d w1, documents (db w) !! document_id self = Some d ∧
    new_version_transaction E d self (creating self w) = (Ok self', w1) ∧
    db w' = db w1 ∧ storage w' = storage w1 ∧ log w' = log w1 ∧
    events w' =
      events w1 ++
      [event_document_new_version user (pk self') (document_id self');
       post_version_upload (pk self')] ++
      (if bool_decide
            (pk <$> merge_sort timestamp_le
               (filter (λ v, document_id v = document_id self') (version_rows w1))
             = [pk self'])
       then [post_document_created (document_id self')] else []).
Proof.
  intros Hpk.
  destruct (documents (db w) !! document_id self) as [d|] eqn:Hdoc;
    [|by rewrite save_new_missing].
  rewrite (save_new_run E user self w d), atomic_run by done.
  destruct (new_version_transaction E d self (creating self w))
    as [[self1|e] w1] eqn:Hblock; [|done].
  unfold emit, modify, document_versions_all, gets. rewrite !bind_run.
  cbn [mret M_ret].
  change (version_rows (add_event _ (add_event _ w1))) with (version_rows w1).
  destruct (bool_decide _) eqn:Hb; intros [= <- <-]; exists d, w1;
    (split; [done|]); (split; [done|]); cbn; rewrite Hb; by rewrite <- ?app_assoc.
Qed.

Lemma NoDup_singleton_of_constant {A} (l : list A) x :
  NoDup l → l ≠ [] → (∀ y, y ∈ l → y = x) → l = [x].
Proof.
  intros Hnd Hne Hall. destruct l as [|a [|b l]]; [done| |].
  - f_equal. apply Hall. left.
  - exfalso. apply NoDup_cons in Hnd as [Hab _]. apply Hab.
    rewrite (Hall a) by left. rewrite (Hall b) by (right; left). left.
Qed.

Lemma version_rows_pk_NoDup w : NoDup (pk <$> version_rows w).
Proof.
  unfold version_rows. rewrite <- list_fmap_compose.
  assert (pk ∘ (λ kv : positive * DocumentVersion, set_pk (Some kv.1) kv.2)
            <$> map_to_list (versions (db w)) =
          Some <$> (map_to_list (versions (db w))).*1) as ->
    by (rewrite <- list_fmap_compose; by apply list_fmap_ext).
  apply (NoDup_fmap_2 Some), NoDup_fst_map_to_list.
Qed.

Lemma only_version_spec self w :
  pk <$> merge_sort timestamp_le
    (filter (λ v, document_id v = document_id self) (version_rows w)) = [pk self] ↔
  only_version self w.
Proof.
  set (l := filter _ (version_rows w)).
  assert (∀ v, v ∈ l ↔ ∃ k row, versions (db w) !! k = Some row ∧
                         document_id row = document_id self ∧
                         v = set_pk (Some k) row) as Hl.
  { intros v. unfold l. rewrite list_elem_of_filter, elem_of_version_rows. split.
    - intros [Hdoc (k & row & Hrow & ->)]. by exists k, row.
    - intros (k & row & Hrow & Hdoc & ->). split; [done|]. by exists k, row. }
  split.
  - intros Hsorted.
    assert (pk <$> l = [pk self]) as Hpks.
    { apply Permutation_singleton_r. rewrite <- Hsorted.
      by rewrite merge_sort_Permutation. }
    destruct l as [|v [|? ?]] eqn:Heq; [done| |done].
    injection Hpks as Hv.
    destruct (proj1 (Hl v) ltac:(left)) as (k & row & Hrow & Hdoc & Hvrow).
    exists k. split; [by rewrite <- Hv, Hvrow|]. split; [by exists row|].
    intros k' row' Hrow' Hdoc'.
    assert (set_pk (Some k') row' ∈ [v]) as Hin by (apply Hl; by exists k', row').
    apply list_elem_of_singleton in Hin. rewrite Hvrow in Hin.
    by injection Hin.
  - intros (k & Hpk & (row & Hrow & Hdoc) & Huniq).
    apply Permutation_singleton_r. rewrite merge_sort_Permutation, Hpk.
    apply reflexive_eq, NoDup_singleton_of_constant.
    + apply (sublist_NoDup _ (pk <$> version_rows w)); [apply version_rows_pk_NoDup|].
      apply fmap_sublist, sublist_filter.
    + intros Hnil. apply fmap_nil_inv in Hnil.
      assert (set_pk (Some k) row ∈ l) as Hin by (apply Hl; by exists k, row).
      rewrite Hnil in Hin. by apply elem_of_nil in Hin.
    + intros q (v & -> & (k' & row' & Hrow' & Hdoc' & ->)%Hl)%list_elem_of_fmap.
      cbn. f_equal. by apply (Huniq k' row').
Qed.

(** X19: when [save] of a new version returns, it has emitted, after
    everything the block did, the new-version event for the given user and
    the upload signal, and then the document-created signal exactly when
    the table has no other version of the document. *)
Theorem save_sends_document_created_for_only_version (E : Env)
    (user : option string) (self self' : DocumentVersion) (w w' : World) :
  pk self = None →
  save E user self w = (Ok self', w') →
  ∃ before,
    (only_version self' w' ∧
     events w' = before ++
       [event_document_new_version user (pk self') (document_id self');
        post_version_upload (pk self');
        post_document_created (document_id self')]) ∨
    (¬ only_version self' w' ∧
     events w' = before ++
       [event_document_new_version user (pk self') (document_id self');
        post_version_upload (pk self')]).
Proof.
  intros Hpk Hsave.
  destruct (save_new_ok_inv E user self w self' w' Hpk Hsave)
    as (d & w1 & _ & _ & Hdb & _ & _ & Hevents).
  exists (events w1). rewrite Hevents.
  assert (only_version self' w' ↔ only_version self' w1) as Honly
    by (unfold only_version; by rewrite Hdb).
  destruct (bool_decide _) eqn:Hdecide.
  - left. apply bool_decide_eq_true in Hdecide. split; [|done].
    by apply Honly, only_version_spec.
  - right. apply bool_decide_eq_false in Hdecide. split; [|by rewrite app_nil_r].
    intros Hone. by apply Hdecide, only_version_spec, Honly.
Qed.

Lemma save_sends_document_created_for_only_version_witness :
  ∃ self',
    (save plain_env None second_version second_upload_world).1 = Ok self' ∧
    ∃ before,
      (only_version self'
         (save plain_env None second_version second_upload_world).2 ∧
       events (save plain_env None second_version second_upload_world).2 =
         before ++
         [event_document_new_version None (pk self') (document_id self');
          post_version_upload (pk self');
          post_document_created (document_id self')]) ∨
      (¬ only_version self'
           (save plain_env None second_version second_upload_world).2 ∧
       events (save plain_env None second_version second_upload_world).2 =
         before ++
         [event_document_new_version None (pk self') (document_id self');
          post_version_upload (pk self')]).
Proof.
  destruct (save plain_env None second_version second_upload_world)
    as [[self'|e] w'] eqn:Hsave.
  - exists self'. split; [done|].
    apply (save_sends_document_created_for_only_version plain_env None
             second_version self' second_upload_world w' eq_refl Hsave).
  - vm_compute in Hsave. discriminate Hsave.
Defined.



Lemma update_page_count_with_keeps E self_save v w counted w' :
  update_page_count_with E self_save v false w = (Ok counted, w') →
  counted.1 = v.
Proof.
  unfold update_page_count_with. rewrite try_except_else_run, bind_run.
  rewrite (open_run E v false w).
  destruct (open E v false w).1 as [s|e].
  - unfold lift. destruct (get_page_count E s (mimetype v)) as [n|e].
    + rewrite bind_run. destruct (atomic _ w) as [[[]|e] w1]; [|done].
      by intros [= <- <-].
    + destruct e; try done. by intros [= <- <-].
  - destruct e; try done. by intros [= <- <-].
Qed.





(** ** [save] of a new version with an upload, without hooks *)

Lemma keeps_ret {A} (a : A) : keeps_files_and_rows (mret a : M A).
Proof. by intros w. Qed.

Lemma keeps_raise {A} e : keeps_files_and_rows (raise e : M A).
Proof. by intros w. Qed.

Lemma keeps_lift {A} (r : Result A) : keeps_files_and_rows (lift r).
Proof. by intros w. Qed.

Lemma keeps_gets {A} (f : World → A) : keeps_files_and_rows (gets f).
Proof. by intros w. Qed.

Lemma keeps_modify f :
  (∀ w, same_files_and_rows w (f w)) → keeps_files_and_rows (modify f).
Proof. intros Hf w. apply Hf. Qed.

Lemma keeps_bind {A B} (m : M A) (f : A → M B) :
  keeps_files_and_rows m → (∀ a, keeps_files_and_rows (f a)) →
  keeps_files_and_rows (m ≫= f).
Proof.
  intros Hm Hf w. rewrite bind_run. specialize (Hm w).
  destruct (m w) as [[a|e] w1]; cbn in *; [|done].
  destruct Hm as [Hs Hv], (Hf a w1) as [Hs' Hv']. split; congruence.
Qed.

Lemma keeps_try_except_else {A B} (m : M A) (h : Exn → M B) (k : A → M B) :
  keeps_files_and_rows m → (∀ e, keeps_files_and_rows (h e)) →
  (∀ a, keeps_files_and_rows (k a)) →
  keeps_files_and_rows (try_except_else m h k).
Proof.
  intros Hm Hh Hk w. rewrite try_except_else_run. specialize (Hm w).
  destruct (m w) as [[a|e] w1]; cbn in *; destruct Hm as [Hs Hv].
  - destruct (Hk a w1). split; congruence.
  - destruct (Hh e w1). split; congruence.
Qed.

Lemma keeps_atomic {A} (m : M A) :
  keeps_files_and_rows m → keeps_files_and_rows (atomic m).
Proof.
  intros Hm w. rewrite atomic_run. specialize (Hm w).
  destruct (m w) as [[a|e] w1]; cbn in *; [done|]. by destruct Hm.
Qed.

Lemma keeps_for_each {A} (l : list A) (body : A → M unit) :
  (∀ x, keeps_files_and_rows (body x)) → keeps_files_and_rows (for_each l body).
Proof.
  intros Hbody. induction l as [|x l IH]; [apply keeps_ret|].
  cbn [for_each]. apply keeps_bind; [apply Hbody|]. by intros [].
Qed.

Lemma keeps_open E self raw : keeps_files_and_rows (open E self raw).
Proof. intros w. by rewrite open_world. Qed.

(** [fix_orientation] and [update_page_count(save=False)] write pages and
    transformations only. *)
Lemma keeps_fix_orientation E self : keeps_files_and_rows (fix_orientation E self).
Proof.
  unfold fix_orientation. apply keeps_bind; [apply keeps_gets|]. intros ps.
  apply keeps_for_each. intros page. apply keeps_bind.
  - unfold page_detect_orientation. apply keeps_bind; [by apply keeps_modify|].
    intros _. apply keeps_lift.
  - intros degrees. destruct (truthy degrees); [|apply keeps_ret].
    unfold add_for_model. apply keeps_bind; by intros; apply keeps_modify.
Qed.

Lemma keeps_update_page_count_with E self_save self :
  keeps_files_and_rows (update_page_count_with E self_save self false).
Proof.
  unfold update_page_count_with. apply keeps_try_except_else.
  - apply keeps_bind; [apply keeps_open|]. intros s. apply keeps_lift.
  - intros e. destruct e; first [apply keeps_ret | apply keeps_raise].
  - intros n. apply keeps_bind.
    + apply keeps_atomic. apply keeps_bind; [by apply keeps_modify|].
      intros _. apply keeps_for_each. intros i. unfold pages_create.
      destruct (pk self); [|apply keeps_raise].
      destruct (page_create_fault _ _ _); [apply keeps_raise|].
      by apply keeps_modify.
    + intros _. apply keeps_bind; intros; apply keeps_ret.
Qed.

(** The nested [self.save()] of the block, without post-save hooks, when it
    returns: the row of the version is written, and nothing else. *)
Lemma nested_save_ok_inv E d v p w v' w' :
  _post_save_hooks E = ∅ → pk v = Some p → upload v = None →
  is_Some (versions (db w) !! p) →
  nested_save E d v w = (Ok v', w') →
  v' = v ∧ w' = with_db (with_versions (<[p := v]>)) w.
Proof.
  intros Hhooks Hpk Hup Hrow. unfold nested_save.
  change (pred recursion_limit) with (S (pred (pred recursion_limit))).
  rewrite (save_depth_persisted_run E _ (Some d) None v p w Hpk), atomic_run, bind_run.
  rewrite (super_save_keyed_run E v p w Hpk). unfold saved_row.
  rewrite bool_decide_eq_true_2 by done.
  destruct (committed_no_upload v w Hup) as [-> ->].
  rewrite Hhooks, sorted_empty.
  destruct (super_save_fault E v); [done|]. by intros [= <- <-].
Qed.

(** The upload of a new version, once committed, is the file of the row. *)
Lemma commit_upload self content w :
  upload self = Some content →
  file (inserted_row self w) = get_available_name (file self) (storage w) ∧
  storage (commit self w)
    = <[get_available_name (file self) (storage w) := content]> (storage w) ∧
  storage (commit self w) !! file (inserted_row self w) = Some content.
Proof.
  intros Hup. unfold inserted_row, committed, commit. rewrite Hup. cbn.
  split; [done|]. split; [done|]. apply lookup_insert_eq.
Qed.


(** Without a pending upload the file is the one the version names. *)
Lemma commit_no_upload self content w :
  upload self = None → storage w !! file self = Some content →
  storage (commit self w) !! file (inserted_row self w) = Some content.
Proof. intros Hup Hfile. unfold inserted_row, committed, commit. by rewrite Hup. Qed.

(** The block of a new version whose file, once a pending upload is
    committed, has the content [content], without hooks, when it returns. *)
Lemma new_version_transaction_plain E d self content w self' w' :
  _pre_open_hooks E = ∅ → _post_save_hooks E = ∅ →
  pk self = None →
  storage (commit self w) !! file (inserted_row self w) = Some content →
  new_version_transaction E d self w = (Ok self', w') →
  let p := fresh (dom (versions (db w))) in
  self' = set_encoding (detected_or_blank E content).2
            (set_mimetype (detected_or_blank E content).1
               (set_checksum (Some (document_hash_function E content))
                  (inserted_row self w))) ∧
  storage w' = storage (commit self w) ∧
  versions (db w') = <[p := self']> (versions (db w)).
Proof.
  intros Hpre Hpost Hpk Hstored Hblock p.
  unfold new_version_transaction, save_transaction in Hblock.
  apply bind_ok_inv in Hblock as (v1 & w1 & Hsave & Hblock).
  apply bind_ok_inv in Hblock as ([] & w2 & Hhooks & Hblock).
  apply bind_ok_inv in Hblock as (v2 & w3 & Hchecksum & Hblock).
  apply bind_ok_inv in Hblock as (v3 & w4 & Hmimetype & Hblock).
  apply bind_ok_inv in Hblock as (v4 & w5 & Hnested & Hblock).
  apply bind_ok_inv in Hblock as (counted & w6 & Hcount & Hblock).
  cbv zeta in Hblock.
  apply bind_ok_inv in Hblock as ([] & w7 & Horient & Hblock).
  apply bind_ok_inv in Hblock as (d0 & w8 & Hdoc & Hblock).
  apply bind_ok_inv in Hblock as ([] & w9 & Hlog & Hblock).
  apply bind_ok_inv in Hblock as ([] & w10 & Hdocsave & Hblock).
  cbn in Hblock. injection Hblock as <- <-.
  cbn in Hdoc. injection Hdoc as <- <-.
  rewrite (super_save_new_run E self w Hpk) in Hsave. fold p in Hsave.
  destruct (super_save_fault E self); [done|]. injection Hsave as <- <-.
  rewrite Hpost, sorted_empty in Hhooks. injection Hhooks as <-.
  set (v1 := inserted_row self w) in *.
  set (w1 := with_db (with_versions (<[p := v1]>)) (commit self w)) in *.
  assert (pk v1 = Some p ∧ upload v1 = None) as [Hp1 Hup1].
  { by destruct (inserted_row_fields self w) as (? & _ & _ & _ & _ & _ & _ & ? & _). }
  assert (∀ v, file v = file v1 → storage w1 !! file v = Some content) as Hfile.
  { by intros v ->. }
  assert (∀ v, file v = file v1 → open E v false w1 = (Ok content, w1)) as Hopen.
  { intros v Hv. by rewrite open_not_raw_run, (Hfile v Hv), Hpre, sorted_empty. }
  rewrite (update_checksum_with_run E _ v1 false w1 content (Hfile v1 eq_refl)),
    (Hopen v1 eq_refl) in Hchecksum.
  injection Hchecksum as <- <-.
  set (v2 := set_checksum (Some (document_hash_function E content)) v1) in *.
  rewrite (update_mimetype_with_run E _ v2 false w1 content (Hfile v2 eq_refl)),
    (Hopen v2 eq_refl) in Hmimetype.
  cbv zeta in Hmimetype. injection Hmimetype as <- <-.
  set (v3 := match get_mimetype E content with
             | Ok detected => _ | Raise _ => _ end) in *.
  assert (v3 = set_encoding (detected_or_blank E content).2
            (set_mimetype (detected_or_blank E content).1
               v2)) as Hv3.
  { unfold v3, detected_or_blank. by destruct (get_mimetype E content). }
  clearbody v3. subst v3.
  pose proof (update_page_count_with_keeps _ _ _ _ _ _ Hcount) as Hself.
  pose proof (keeps_update_page_count_with E (nested_save E d) v4 w5) as Hk1.
  rewrite Hcount in Hk1. destruct Hk1 as [Hs1 Hr1]. clear Hcount.
  apply (nested_save_ok_inv E d _ p) in Hnested as [-> ->];
    [|done|exact Hp1|exact Hup1|].
  2:{ unfold w1. cbn -[v1]. rewrite lookup_insert_eq. by eexists. }
  pose proof (keeps_fix_orientation E counted.1 w6) as Hk2.
  assert (same_files_and_rows w6 w7) as [Hs2 Hr2].
  { destruct (setting_fix_orientation E).
    - by rewrite Horient in Hk2.
    - by injection Horient as <-. }
  injection Hlog as <-.
  injection Hdocsave as <-. rewrite Hself. split; [done|].
  cbn -[v1]. cbn -[v1] in Hs1, Hr1, Hs2, Hr2. rewrite Hs2, Hs1, Hr2, Hr1.
  split; [done|].
  assert (versions (db (commit self w)) = versions (db w)) as ->
    by (unfold commit; by destruct (upload self)).
  apply insert_insert_eq.
Qed.



(** With [save=False] the [self.save] the method was given is not called. *)
Lemma update_page_count_with_unsaved E self_save self_save' self :
  update_page_count_with E self_save self false
  = update_page_count_with E self_save' self false.
Proof. reflexivity. Qed.

Lemma update_page_count_with_returns E self_save v p w s :
  pk v = Some p → open E v false w = (Ok s, w) →
  (∀ n, page_create_fault E p n = None) →
  (∀ m e, get_page_count E s m = Raise e → e = PageCountError) →
  ∃ counted w', update_page_count_with E self_save v false w = (Ok counted, w') ∧
    documents (db w') = documents (db w).
Proof.
  intros Hpk Hopen Hcreate Hcount.
  rewrite (update_page_count_with_unsaved E self_save (save E None)).
  fold (update_page_count E v false).
  destruct (get_page_count E s (mimetype v)) as [n|e] eqn:Hn.
  - destruct (update_page_count_saved_version E v false w p s n Hpk Hopen Hn)
      as [[_ ->]|(e & i & _ & Hfault & _)].
    + by eexists _, _.
    + by rewrite Hcreate in Hfault.
  - rewrite (Hcount _ _ Hn) in Hn.
    rewrite (update_page_count_unpaginatable E v false w s Hopen Hn).
    by eexists _, _.
Qed.

Lemma nested_save_run E d v p w :
  _post_save_hooks E = ∅ → super_save_fault E v = None →
  pk v = Some p → upload v = None → is_Some (versions (db w) !! p) →
  nested_save E d v w = (Ok v, with_db (with_versions (<[p := v]>)) w).
Proof.
  intros Hhooks Hfault Hpk Hup Hrow. unfold nested_save.
  change (pred recursion_limit) with (S (pred (pred recursion_limit))).
  rewrite (save_depth_persisted_run E _ (Some d) None v p w Hpk), atomic_run, bind_run.
  rewrite (super_save_keyed_run E v p w Hpk), Hfault. unfold saved_row.
  rewrite bool_decide_eq_true_2 by done.
  destruct (committed_no_upload v w Hup) as [-> ->].
  by rewrite Hhooks, sorted_empty.
Qed.

(** The block of a new version returns when nothing it calls fails. *)
Lemma new_version_transaction_returns E d self content w :
  _pre_open_hooks E = ∅ → _post_save_hooks E = ∅ →
  pk self = None →
  storage (commit self w) !! file (inserted_row self w) = Some content →
  (∀ v, super_save_fault E v = None) →
  (∀ v n, page_create_fault E v n = None) →
  (∀ m e, get_page_count E content m = Raise e → e = PageCountError) →
  (setting_fix_orientation E = true →
   ∀ g, is_ok (detect_orientation E g) = true) →
  ∃ self' w1, new_version_transaction E d self w = (Ok self', w1).
Proof.
  intros Hpre Hpost Hpk Hstored Hsave Hcreate Hcount Hdetect.
  unfold new_version_transaction, save_transaction.
  rewrite bind_run, (super_save_new_run E self _ Hpk), Hsave.
  cbn [fst snd].
  destruct (inserted_row_fields self w)
    as (Hp1 & Hd1 & _ & _ & _ & _ & _ & Hup1 & _).
  set (p := fresh (dom (versions (db w)))) in *.
  set (v1 := inserted_row self w) in *.
  set (w1 := with_db (with_versions (<[p := v1]>)) _).
  rewrite bind_run, Hpost, sorted_empty. cbn [run_post_save_hooks].
  change ((mret tt : M unit) w1) with (Ok tt, w1). cbn [fst snd].
  assert (∀ v, file v = file v1 → storage w1 !! file v = Some content)
    as Hfile by (by intros v ->).
  assert (∀ v, file v = file v1 → open E v false w1 = (Ok content, w1))
    as Hopen.
  { intros v Hv. by rewrite open_not_raw_run, (Hfile v Hv), Hpre, sorted_empty. }
  rewrite bind_run,
    (update_checksum_with_run E _ v1 false w1 content (Hfile v1 eq_refl)),
    (Hopen v1 eq_refl).
  cbn [fst snd].
  set (v2 := set_checksum (Some (document_hash_function E content)) v1).
  rewrite bind_run,
    (update_mimetype_with_run E _ v2 false w1 content (Hfile v2 eq_refl)),
    (Hopen v2 eq_refl).
  cbn [fst snd].
  set (v3 := match get_mimetype E content with
             | Ok detected => _ | Raise _ => _ end).
  assert (pk v3 = Some p ∧ upload v3 = None ∧ file v3 = file v1 ∧
          document_id v3 = document_id self) as (Hp3 & Hup3 & Hf3 & Hd3).
  { unfold v3. by destruct (get_mimetype E content). }
  rewrite bind_run, (nested_save_run E d v3 p w1 Hpost (Hsave v3) Hp3 Hup3);
    [|unfold w1; cbn -[v1]; rewrite lookup_insert_eq; by eexists].
  cbn [fst snd].
  set (w2 := with_db (with_versions (<[p := v3]>)) w1).
  assert (open E v3 false w2 = (Ok content, w2)) as Hopen3.
  { rewrite open_run, <- (open_storage E v3 false w1 w2 eq_refl).
    by rewrite (Hopen v3 Hf3). }
  destruct (update_page_count_with_returns E (nested_save E d) v3 p w2 content
              Hp3 Hopen3 (Hcreate p) Hcount) as (counted & w3 & Hrun & Hdocs).
  pose proof (update_page_count_with_keeps _ _ _ _ _ _ Hrun) as Hcounted.
  rewrite bind_run, Hrun. cbn [fst snd]. rewrite Hcounted, bind_run.
  assert (∃ w4, (if setting_fix_orientation E then fix_orientation E v3
                 else mret tt) w3 = (Ok tt, w4)) as (w4 & ->).
  { destruct (setting_fix_orientation E); [|by eexists].
    rewrite (fix_orientation_run_ok E v3 w3 (λ g _, Hdetect eq_refl g)).
    by eexists. }
  by eexists _, _.
Qed.

(** [save] returns when its block does. *)
Lemma save_new_returns E user self w d self' w1 :
  pk self = None → documents (db w) !! document_id self = Some d →
  new_version_transaction E d self (creating self w) = (Ok self', w1) →
  ∃ w', save E user self w = (Ok self', w').
Proof.
  intros Hpk Hd Hblock.
  pose proof (save_new_ok E user self w d self' w1 Hpk Hd) as Hok.
  rewrite atomic_run, Hblock in Hok. specialize (Hok eq_refl).
  destruct (save E user self w) as [r w'] eqn:Hrun. cbn in Hok. subst r.
  by exists w'.
Qed.

(** X22: [save] of a new version with an upload returns when nothing it
    calls fails: without hooks, with the document in the table, with a
    database that writes the rows of the version and of its pages, with a
    converter that counts the pages or raises [PageCountError], and, when
    the setting asks for it, with an orientation detection that returns.  A
    failure of the sniffer does not matter. *)
Theorem save_new_version_returns (E : Env) (user : option string)
    (self : DocumentVersion) (content : Stream) (w : World) :
  _pre_open_hooks E = ∅ → _post_save_hooks E = ∅ →
  pk self = None → upload self = Some content →
  is_Some (documents (db w) !! document_id self) →
  (∀ v, super_save_fault E v = None) →
  (∀ v n, page_create_fault E v n = None) →
  (∀ m e, get_page_count E content m = Raise e → e = PageCountError) →
  (setting_fix_orientation E = true →
   ∀ g, is_ok (detect_orientation E g) = true) →
  ∃ self' w', save E user self w = (Ok self', w').
Proof.
  intros Hpre Hpost Hpk Hup [d Hd] Hsave Hcreate Hcount Hdetect.
  destruct (commit_upload self content (creating self w) Hup)
    as (_ & _ & Hstored).
  destruct (new_version_transaction_returns E d self content (creating self w)
              Hpre Hpost Hpk Hstored Hsave Hcreate Hcount Hdetect)
    as (self' & w1 & Hblock).
  exists self'. by apply (save_new_returns E user self w d self' w1).
Qed.

Lemma save_new_version_returns_witness :
  ∃ self' w', save unpaginatable_env (Some "ann") new_version empty_world
              = (Ok self', w').
Proof.
  apply (save_new_version_returns unpaginatable_env (Some "ann") new_version
           [Byte.x01; Byte.x02] empty_world eq_refl eq_refl eq_refl eq_refl).
  - by eexists.
  - done.
  - done.
  - intros m e. vm_compute. by intros [= <-].
  - done.
Defined.

(** ** The post-save hooks *)

Lemma registered_post_save_hooks_keys E :
  (registered_post_save_hooks E).*1 = sorted (_post_save_hooks E).
Proof.
  unfold registered_post_save_hooks. rewrite <- list_fmap_compose.
  rewrite <- (list_fmap_id (sorted _)) at 2. by apply list_fmap_ext.
Qed.

Lemma registered_post_save_hooks_elem_of E k h :
  (k, h) ∈ registered_post_save_hooks E ↔ _post_save_hooks E !! k = Some h.
Proof.
  unfold registered_post_save_hooks. rewrite list_elem_of_fmap. split.
  - intros [k' [[= -> ->] Hin]].
    apply sorted_elem_of in Hin as [h' Hh']. by rewrite Hh'.
  - intros Hk. exists k. split; [by rewrite Hk|].
    apply sorted_elem_of. eauto.
Qed.

(** The loop over the sorted keys never meets a key without a hook. *)
Lemma run_post_save_hooks_for_each E keys self :
  (∀ k, k ∈ keys → is_Some (_post_save_hooks E !! k)) →
  run_post_save_hooks E keys self =
  for_each ((λ k, default idle_hook (_post_save_hooks E !! k)) <$> keys)
    (λ hook, hook self).
Proof.
  induction keys as [|k keys IH]; intros Hin; [done|].
  cbn [run_post_save_hooks fmap list_fmap for_each]. unfold PostSaveHook in *.
  destruct (Hin k) as [h Hh]; [by left|]. rewrite Hh. cbn [default].
  rewrite IH; [reflexivity|]. intros k' Hk'. apply Hin. by right.
Qed.

(** X23: [save] of a version that has a primary key writes the row and then
    calls every registered post-save hook, once, in ascending order of the
    keys they are registered under, each with the saved object, inside the
    transaction; the first hook that raises ends the loop, and after the
    tables went back the handler names the document of the version, logs
    the error and raises it again. *)
Theorem save_runs_post_save_hooks_in_ascending_order (E : Env)
    (user : option string) (self : DocumentVersion) (p : positive) (w : World) :
  pk self = Some p →
  ∃ registered : list (Z * PostSaveHook),
    (∀ k h, (k, h) ∈ registered ↔ _post_save_hooks E !! k = Some h) ∧
    StronglySorted Z.lt registered.*1 ∧
    save E user self w =
      try_except_else
        (atomic (row ← super_save E self ;
                 for_each registered.*2 (λ hook, hook row) ;;
                 mret row))
        (λ exception,
           get_document self ;;
           logger_error error_message (Some (document_id self)) exception ;;
           raise exception)
        mret w.
Proof.
  intros Hpk. exists (registered_post_save_hooks E).
  split; [apply registered_post_save_hooks_elem_of|]. split.
  - rewrite registered_post_save_hooks_keys. apply sorted_ascending.
  - unfold save. change recursion_limit with (S (pred recursion_limit)).
    rewrite (save_depth_persisted_run E _ None user self p w Hpk).
    rewrite try_except_else_run, !atomic_run, !bind_run.
    destruct (super_save E self w) as [[row|e] w1]; [|done].
    rewrite !bind_run.
    rewrite run_post_save_hooks_for_each by (intros k; apply sorted_elem_of).
    unfold registered_post_save_hooks. rewrite <- list_fmap_compose.
    by destruct (for_each _ _ w1) as [[[]|e] w2].
Qed.

Lemma save_runs_post_save_hooks_in_ascending_order_witness :
  ∃ registered : list (Z * PostSaveHook),
    (∀ k h, (k, h) ∈ registered ↔ _post_save_hooks failing_hook_env !! k = Some h) ∧
    StronglySorted Z.lt registered.*1 ∧
    save failing_hook_env None stored_version stored_world =
      try_except_else
        (atomic (row ← super_save failing_hook_env stored_version ;
                 for_each registered.*2 (λ hook, hook row) ;;
                 mret row))
        (λ exception,
           get_document stored_version ;;
           logger_error error_message (Some (document_id stored_version))
             exception ;;
           raise exception)
        mret stored_world.
Proof.
  apply (save_runs_post_save_hooks_in_ascending_order failing_hook_env None
           stored_version 1%positive stored_world eq_refl).
Defined.

(** X24: the two registries are dicts keyed by the order: registering under
    a key that is in use replaces the hook that was there, in both
    registries, and a registration in one registry leaves the other one and
    every collaborator as they were, so that a post-save hook does not
    change what [open] returns. *)
Theorem register_hook_replaces_same_key (E : Env) (order : Z)
    (old_open new_open : PreOpenHook) (old_save new_save : PostSaveHook) :
  register_pre_open_hook order new_open (register_pre_open_hook order old_open E)
    = register_pre_open_hook order new_open E ∧
  register_post_save_hook order new_save (register_post_save_hook order old_save E)
    = register_post_save_hook order new_save E ∧
  _post_save_hooks (register_pre_open_hook order new_open E) = _post_save_hooks E ∧
  _pre_open_hooks (register_post_save_hook order new_save E) = _pre_open_hooks E ∧
  ∀ self raw,
    open (register_post_save_hook order new_save E) self raw = open E self raw.
Proof.
  unfold register_pre_open_hook, register_post_save_hook. cbn.
  rewrite !insert_insert_eq. done.
Qed.

(** ** [update_mimetype] when the detection fails *)

(** C6: the file of the version is in the storage and the detection fails:
    [open] raises, or the sniffer raises on the stream [open] returns.  Then
    [update_mimetype] assigns the empty string to [mimetype] and to
    [encoding]; with [save=False] it returns normally; with [save=True] it
    goes on to save the object with the two blank fields, and what it
    returns is what that [save] returns.  The error of the detection is
    never raised.

    For every version that has a key, whatever the registry of post-save
    hooks, whether an upload is pending and whether the table has the row:
    when the database takes the row, the row written has the two blank
    fields, and when the post-save hooks then return, [update_mimetype]
    returns that row.

    For an object without a key and without a pending upload, [save] is the
    whole ingestion, which detects the MIME type again: without hooks,
    when it returns, the object and its row have the two blank fields, and
    it returns when nothing else fails. *)
Theorem update_mimetype_detection_failure_is_soft (E : Env)
    (self : DocumentVersion) (w : World) (content : Stream) :
  storage w !! file self = Some content →
  (∀ s, (open E self false w).1 = Ok s → is_ok (get_mimetype E s) = false) →
  mimetype (blank self) = Some EmptyString ∧
  encoding (blank self) = Some EmptyString ∧
  update_mimetype E self false w = (Ok (blank self), w) ∧
  update_mimetype E self true w = save E None (blank self) w ∧
  (∀ p, pk self = Some p → super_save_fault E (blank self) = None →
     ∃ row w1,
       super_save E (blank self) w = (Ok row, w1) ∧
       mimetype row = Some EmptyString ∧ encoding row = Some EmptyString ∧
       pk row = Some p ∧ checksum row = checksum self ∧
       versions (db w1) !! p = Some row ∧
       (∀ w2, run_post_save_hooks E (sorted (_post_save_hooks E)) row w1
                = (Ok tt, w2) →
          update_mimetype E self true w = (Ok row, w2)) ∧
       (_post_save_hooks E = ∅ →
          update_mimetype E self true w = (Ok row, w1)) ∧
       (upload self = None → is_Some (versions (db w) !! p) →
          row = blank self)) ∧
  (pk self = None → upload self = None →
   _pre_open_hooks E = ∅ → _post_save_hooks E = ∅ →
     (∀ self' w', update_mimetype E self true w = (Ok self', w') →
        mimetype self' = Some EmptyString ∧ encoding self' = Some EmptyString ∧
        ∃ p, pk self' = Some p ∧ versions (db w') !! p = Some self') ∧
     (is_Some (documents (db w) !! document_id self) →
      (∀ v, super_save_fault E v = None) →
      (∀ v n, page_create_fault E v n = None) →
      (∀ m e, get_page_count E content m = Raise e → e = PageCountError) →
      (setting_fix_orientation E = true →
       ∀ g, is_ok (detect_orientation E g) = true) →
      ∃ self' w', update_mimetype E self true w = (Ok self', w'))).
Proof.
  intros Hsome Hfail.
  pose proof (update_mimetype_with_blank E (save E None) self) as Hrun.
  split; [reflexivity|]. split; [reflexivity|].
  split; [exact (Hrun false w content Hsome Hfail)|].
  split; [exact (Hrun true w content Hsome Hfail)|].
  split.
  - intros p Hpk Hfault.
    assert (pk (blank self) = Some p) as Hpk' by done.
    destruct (saved_row_blank self p w Hpk) as (Hm & He & Hp & _ & Hc & _).
    exists (saved_row (blank self) p w),
      (with_db (with_versions (<[p := saved_row (blank self) p w]>))
         (commit (blank self) w)).
    split; [by rewrite (super_save_keyed_run E (blank self) p w Hpk'), Hfault|].
    split; [done|]. split; [done|]. split; [done|]. split; [done|].
    split; [unfold commit; destruct (upload (blank self)); apply lookup_insert_eq|].
    assert (∀ w2, run_post_save_hooks E (sorted (_post_save_hooks E))
                    (saved_row (blank self) p w)
                    (with_db (with_versions (<[p := saved_row (blank self) p w]>))
                       (commit (blank self) w)) = (Ok tt, w2) →
              update_mimetype E self true w = (Ok (saved_row (blank self) p w), w2))
      as Hreturns.
    { intros w2 Hhooks. unfold update_mimetype.
      rewrite (Hrun true w content Hsome Hfail).
      by apply (save_keyed_returns E None (blank self) p w w2). }
    split; [exact Hreturns|]. split.
    + intros Hhooks. apply Hreturns. by rewrite Hhooks, sorted_empty.
    + intros Hup Hrow. unfold saved_row.
      rewrite bool_decide_eq_true_2 by done.
      by destruct (committed_no_upload (blank self) w Hup).
  - intros Hpk Hup Hpre Hpost.
    assert (pk (blank self) = None) as Hpk' by done.
    assert (upload (blank self) = None) as Hup' by done.
    assert (is_ok (get_mimetype E content) = false) as Hsniff.
    { apply Hfail. by rewrite open_not_raw_run, Hsome, Hpre, sorted_empty. }
    assert (detected_or_blank E content = (Some EmptyString, Some EmptyString))
      as Hblank.
    { unfold detected_or_blank. by destruct (get_mimetype E content). }
    assert (storage (commit (blank self) (creating (blank self) w))
              !! file (inserted_row (blank self) (creating (blank self) w))
            = Some content) as Hstored
      by (by apply commit_no_upload).
    unfold update_mimetype. rewrite (Hrun true w content Hsome Hfail). split.
    + intros self' w' Hsave.
      destruct (save_new_ok_inv E None (blank self) w self' w' Hpk' Hsave)
        as (d & w1 & _ & Hblock & Hdb & _).
      apply (new_version_transaction_plain E d (blank self) content) in Hblock
        as (Hself & _ & Hrows); [|done..].
      rewrite Hblank in Hself. cbn in Hrows.
      split; [by rewrite Hself|]. split; [by rewrite Hself|].
      exists (fresh (dom (versions (db w)))). split.
      * rewrite Hself. cbn [pk set_encoding set_mimetype set_checksum].
        by destruct (inserted_row_fields (blank self) (creating (blank self) w))
          as (-> & _).
      * rewrite Hdb, Hrows. apply lookup_insert_eq.
    + intros [d Hd] Hsave Hcreate Hcount Hdetect.
      destruct (new_version_transaction_returns E d (blank self) content
                  (creating (blank self) w) Hpre Hpost Hpk' Hstored Hsave
                  Hcreate Hcount Hdetect) as (self' & w1 & Hblock).
      exists self'.
      by apply (save_new_returns E None (blank self) w d self' w1).
Qed.

Lemma update_mimetype_detection_failure_is_soft_witness :
  update_mimetype unsniffable_hooked_env stored_version false stored_world
    = (Ok (blank stored_version), stored_world) ∧
  (∃ w', update_mimetype unsniffable_hooked_env stored_version true stored_world
           = (Ok (blank stored_version), w') ∧
         versions (db w') !! 1%positive = Some (blank stored_version)) ∧
  ∃ self' w', update_mimetype unsniffable_env unsaved_version true stored_world
                = (Ok self', w').
Proof.
  destruct (update_mimetype_detection_failure_is_soft unsniffable_hooked_env
              stored_version stored_world [Byte.x01; Byte.x02])
    as (_ & _ & Hsoft & _ & Hrow & _).
  - reflexivity.
  - intros s _. reflexivity.
  - destruct (update_mimetype_detection_failure_is_soft unsniffable_env
                unsaved_version stored_world [Byte.x01; Byte.x02])
      as (_ & _ & _ & _ & _ & Hnew).
    + reflexivity.
    + intros s _. reflexivity.
    + split; [exact Hsoft|]. split.
      * destruct (Hrow 1%positive eq_refl eq_refl)
          as (row & w1 & Hsuper & _ & _ & _ & _ & _ & Hreturns & _ & Hsame).
        specialize (Hsame eq_refl (ex_intro _ stored_version eq_refl)). subst row.
        vm_compute in Hsuper. injection Hsuper as <-.
        eexists. split; [apply Hreturns; vm_compute; reflexivity|].
        vm_compute. reflexivity.
      * destruct (Hnew eq_refl eq_refl eq_refl eq_refl) as [_ Hreturns].
        apply Hreturns; done.
Defined.
